(** * LunarSim: height-field sampling kernels and the collider cache

    A shallow embedding of
    [src/terrain_management/large_scale_terrain/geometric_clipmaps_warp.py]
    (the Warp kernels that sample a digital elevation model) and of the
    collider cache driven by [test_dynamic_colliders.py].  The lab manager
    factory of [src/environments_wrappers/ros2/simulation_manager_ros2.py]
    and the lens flare control of [src/environments/lunalab.py] follow,
    each in a module of its own.

    Conventions of the embedding.
    - A Warp [float] is modelled by an exact rational ([Q]): additions,
      products and quotients are exact, rounding is not modelled.  Results
      that are obtained by arithmetic are compared with [==]; values that
      are only moved around are compared with [=].
    - A Warp [int] is a 32-bit signed integer: a [Z] with the wrap-around of
      every addition, subtraction and product written out ([wrap32]).
    - [int(x)] on a float is the C conversion: truncation toward zero,
      undefined when the result does not fit 32 bits ([None]).
    - A [wp.array] is a list; a negative index counts from the end of the
      array; reading or writing outside of it is a memory fault ([None]).
      Kernels are run one thread after the other, each thread being a state
      transformer on the device buffers.
    - Warp converts no operand: the two operands of an arithmetic operator
      have the same type.  A function that breaks this rule is rejected
      when the kernel that calls it is built, and returns nothing
      ([None]). *)

From Stdlib Require Import ZArith QArith Qround Qminmax Qpower Qabs Qfield Lia Lqa.
From Stdlib Require Import String.
From stdpp Require Import base option list strings gmap.

Local Open Scope Z_scope.

(** ** Failure monad *)

Notation "'do' x <- e ; k" :=
  (match e with Some x => k | None => None end)
  (at level 10, x name, e at level 100, k at level 200,
   format "'[v' 'do'  x  <-  e ; '/' k ']'").
Notation "'do' ' p <- e ; k" :=
  (match e with Some p => k | None => None end)
  (at level 10, p pattern, e at level 100, k at level 200,
   format "'[v' 'do'  ' p  <-  e ; '/' k ']'").

(** ** Machine numbers *)

Module Int32.

Definition min_signed : Z := - 2 ^ 31.
Definition max_signed : Z := 2 ^ 31 - 1.

Definition in_range (z : Z) : bool :=
  (min_signed <=? z) && (z <=? max_signed).

(** Two's complement wrap-around of a mathematical integer. *)
Definition wrap32 (z : Z) : Z := (z + 2 ^ 31) mod 2 ^ 32 - 2 ^ 31.

Definition add (a b : Z) : Z := wrap32 (a + b).
Definition sub (a b : Z) : Z := wrap32 (a - b).
Definition mul (a b : Z) : Z := wrap32 (a * b).

End Int32.

Module Float.

(** [wp.trunc] and [int(.)]: the integer part, rounded toward zero. *)
Definition trunc_Z (x : Q) : Z := Z.quot (Qnum x) (Zpos (Qden x)).

Definition trunc (x : Q) : Q := inject_Z (trunc_Z x).

Definition to_int (x : Q) : option Z :=
  let z := trunc_Z x in
  if Int32.in_range z then Some z else None.

(** The values a 32-bit float can take: a 24-bit significand scaled by a
    power of two (subnormals included; infinities and NaN are not
    rationals). *)
Definition binary32 (x : Q) : Prop :=
  exists m e : Z,
    Z.abs m < 2 ^ 24 /\ -149 <= e <= 104 /\ x == inject_Z m * 2 ^ e.

End Float.

(** ** Vectors and matrices of Warp *)

Record vec2f := Vec2f { v2f_0 : Q; v2f_1 : Q }.
Record vec2i := Vec2i { v2i_0 : Z; v2i_1 : Z }.
Record vec3f := Vec3f { v3f_0 : Q; v3f_1 : Q; v3f_2 : Q }.
Record vec4f := Vec4f { v4f_0 : Q; v4f_1 : Q; v4f_2 : Q; v4f_3 : Q }.

(** [wp.mat22f]; [m22 i j] is the entry [q[i, j]]. *)
Record mat22f := Mat22f { m22_00 : Q; m22_01 : Q; m22_10 : Q; m22_11 : Q }.

(** [wp.mat44f], stored by rows. *)
Record mat44f := Mat44f { m44_r0 : vec4f; m44_r1 : vec4f;
                          m44_r2 : vec4f; m44_r3 : vec4f }.

Definition vec4_get (v : vec4f) (j : nat) : Q :=
  match j with
  | 0%nat => v4f_0 v | 1%nat => v4f_1 v | 2%nat => v4f_2 v | _ => v4f_3 v
  end.

Definition vec4_set (v : vec4f) (j : nat) (a : Q) : vec4f :=
  match j with
  | 0%nat => Vec4f a (v4f_1 v) (v4f_2 v) (v4f_3 v)
  | 1%nat => Vec4f (v4f_0 v) a (v4f_2 v) (v4f_3 v)
  | 2%nat => Vec4f (v4f_0 v) (v4f_1 v) a (v4f_3 v)
  | _ => Vec4f (v4f_0 v) (v4f_1 v) (v4f_2 v) a
  end.

Definition mat22_get (m : mat22f) (i j : nat) : Q :=
  match i, j with
  | 0%nat, 0%nat => m22_00 m
  | 0%nat, _ => m22_01 m
  | _, 0%nat => m22_10 m
  | _, _ => m22_11 m
  end.

Definition mat22_set (m : mat22f) (i j : nat) (a : Q) : mat22f :=
  match i, j with
  | 0%nat, 0%nat => Mat22f a (m22_01 m) (m22_10 m) (m22_11 m)
  | 0%nat, _ => Mat22f (m22_00 m) a (m22_10 m) (m22_11 m)
  | _, 0%nat => Mat22f (m22_00 m) (m22_01 m) a (m22_11 m)
  | _, _ => Mat22f (m22_00 m) (m22_01 m) (m22_10 m) a
  end.

Definition mat44_row (m : mat44f) (i : nat) : vec4f :=
  match i with
  | 0%nat => m44_r0 m | 1%nat => m44_r1 m | 2%nat => m44_r2 m | _ => m44_r3 m
  end.

Definition mat44_get (m : mat44f) (i j : nat) : Q := vec4_get (mat44_row m i) j.

Definition mat44_set (m : mat44f) (i j : nat) (a : Q) : mat44f :=
  match i with
  | 0%nat => Mat44f (vec4_set (m44_r0 m) j a) (m44_r1 m) (m44_r2 m) (m44_r3 m)
  | 1%nat => Mat44f (m44_r0 m) (vec4_set (m44_r1 m) j a) (m44_r2 m) (m44_r3 m)
  | 2%nat => Mat44f (m44_r0 m) (m44_r1 m) (vec4_set (m44_r2 m) j a) (m44_r3 m)
  | _ => Mat44f (m44_r0 m) (m44_r1 m) (m44_r2 m) (vec4_set (m44_r3 m) j a)
  end.

(** ** Arrays *)

(** [a[i]] with a computed 32-bit index: a negative index counts from the
    end of the array. *)
Definition load {A : Type} (a : list A) (i : Z) : option A :=
  let i := if i <? 0 then i + Z.of_nat (length a) else i in
  if i <? 0 then None else a !! Z.to_nat i.

(** [a[tid] = v]. *)
Definition store {A : Type} (a : list A) (tid : nat) (v : A) : option (list A) :=
  if (tid <? length a)%nat then Some (<[tid := v]> a) else None.

(** [wp.atomic_min(a, tid, v)]: the array receives the minimum of its entry
    and [v]; the value returned is the entry as it was BEFORE the update
    (Warp builtins reference: "Compute the minimum of value and arr[i],
    atomically update the array, and return the old value"). *)
Definition atomic_min (a : list Q) (tid : nat) (v : Q) : option (Q * list Q) :=
  do old <- a !! tid;
  do a' <- store a tid (Qmin old v);
  Some (old, a').

(** [wp.atomic_max(a, tid, v)], likewise returning the old entry. *)
Definition atomic_max (a : list Q) (tid : nat) (v : Q) : option (Q * list Q) :=
  do old <- a !! tid;
  do a' <- store a tid (Qmax old v);
  Some (old, a').

(** ** The kernels of [geometric_clipmaps_warp.py] *)

(** [_preprocess], thread [tid]; the arrays [x] and [y] are the outputs. *)
Definition _preprocess (tid : nat) (x y : list Q) (points : list vec2f)
    (coord : vec2f) (mpp : Q) (dem_shape : vec2f) : option (list Q * list Q) :=
  do p <- points !! tid;
  do x <- store x tid (v2f_0 p / mpp + v2f_0 coord)%Q;
  do p <- points !! tid;
  do y <- store y tid (v2f_1 p / mpp + v2f_1 coord)%Q;
  do '(r, x) <- atomic_min x tid (v2f_0 dem_shape - 1.0)%Q;
  do x <- store x tid r;
  do '(r, y) <- atomic_min y tid (v2f_1 dem_shape - 1.0)%Q;
  do y <- store y tid r;
  do '(r, x) <- atomic_max x tid 0.0%Q;
  do x <- store x tid r;
  do '(r, y) <- atomic_max y tid 0.0%Q;
  do y <- store y tid r;
  Some (x, y).

Definition _get_4x4_mat (dem : list Q) (dem_shape : vec2i) (x y : Q)
    (out : mat44f) : option mat44f :=
  do ix <- Float.to_int x;
  do iy <- Float.to_int y;
  let x0 := Z.max (Int32.sub ix 1) 0 in
  let y0 := Z.max (Int32.sub iy 1) 0 in
  let x1 := Int32.mul (Z.min (Int32.add x0 1) (Int32.sub (v2i_0 dem_shape) 1))
                      (v2i_1 dem_shape) in
  let x2 := Int32.mul (Z.min (Int32.add x0 2) (Int32.sub (v2i_0 dem_shape) 1))
                      (v2i_1 dem_shape) in
  let x3 := Int32.mul (Z.min (Int32.add x0 3) (Int32.sub (v2i_0 dem_shape) 1))
                      (v2i_1 dem_shape) in
  let x0 := Int32.mul x0 (v2i_1 dem_shape) in
  let y1 := Z.min (Int32.add y0 1) (Int32.sub (v2i_1 dem_shape) 1) in
  let y2 := Z.min (Int32.add y0 2) (Int32.sub (v2i_1 dem_shape) 1) in
  let y3 := Z.min (Int32.add y0 3) (Int32.sub (v2i_1 dem_shape) 1) in
  do v <- load dem (Int32.add x0 y0); let out := mat44_set out 0 0 v in
  do v <- load dem (Int32.add x1 y0); let out := mat44_set out 1 0 v in
  do v <- load dem (Int32.add x2 y0); let out := mat44_set out 2 0 v in
  do v <- load dem (Int32.add x3 y0); let out := mat44_set out 3 0 v in
  do v <- load dem (Int32.add x0 y1); let out := mat44_set out 0 1 v in
  do v <- load dem (Int32.add x1 y1); let out := mat44_set out 1 1 v in
  do v <- load dem (Int32.add x2 y1); let out := mat44_set out 2 1 v in
  do v <- load dem (Int32.add x3 y1); let out := mat44_set out 3 1 v in
  do v <- load dem (Int32.add x0 y2); let out := mat44_set out 0 2 v in
  do v <- load dem (Int32.add x1 y2); let out := mat44_set out 1 2 v in
  do v <- load dem (Int32.add x2 y2); let out := mat44_set out 2 2 v in
  do v <- load dem (Int32.add x3 y2); let out := mat44_set out 3 2 v in
  do v <- load dem (Int32.add x0 y3); let out := mat44_set out 0 3 v in
  do v <- load dem (Int32.add x1 y3); let out := mat44_set out 1 3 v in
  do v <- load dem (Int32.add x2 y3); let out := mat44_set out 2 3 v in
  do v <- load dem (Int32.add x3 y3); let out := mat44_set out 3 3 v in
  Some out.

(** [_get_values_wp_4x4], thread [tid]. *)
Definition _get_values_wp_4x4 (tid : nat) (dem : list Q) (dem_shape : vec2i)
    (x y : list Q) (out : list mat44f) : option (list mat44f) :=
  do xt <- x !! tid;
  do yt <- y !! tid;
  do ot <- out !! tid;
  do m <- _get_4x4_mat dem dem_shape xt yt ot;
  store out tid m.

Definition _get_2x2_mat (dem : list Q) (dem_shape : vec2i) (x y : Q)
    (out : mat22f) : option mat22f :=
  do x0 <- Float.to_int x;
  do y0 <- Float.to_int y;
  let x1 := Int32.mul (Z.min (Int32.add x0 1) (Int32.sub (v2i_0 dem_shape) 1))
                      (v2i_1 dem_shape) in
  let x0 := Int32.mul x0 (v2i_1 dem_shape) in
  let y1 := Z.min (Int32.add y0 1) (Int32.sub (v2i_1 dem_shape) 1) in
  do v <- load dem (Int32.add x0 y0); let out := mat22_set out 0 0 v in
  do v <- load dem (Int32.add x1 y0); let out := mat22_set out 1 0 v in
  do v <- load dem (Int32.add x0 y1); let out := mat22_set out 0 1 v in
  do v <- load dem (Int32.add x1 y1); let out := mat22_set out 1 1 v in
  Some out.

(** [_get_values_wp_2x2], thread [tid]. *)
Definition _get_values_wp_2x2 (tid : nat) (dem : list Q) (dem_shape : vec2i)
    (x y : list Q) (out : list mat22f) : option (list mat22f) :=
  do xt <- x !! tid;
  do yt <- y !! tid;
  do ot <- out !! tid;
  do m <- _get_2x2_mat dem dem_shape xt yt ot;
  store out tid m.

Definition _bilinear_interpolator (x y : Q) (q : mat22f) : Q :=
  let x2 := (x - Float.trunc x)%Q in
  let y2 := (y - Float.trunc y)%Q in
  ((1.0 - x2) * (1.0 - y2) * mat22_get q 0 0
   + x2 * (1.0 - y2) * mat22_get q 1 0
   + (1.0 - x2) * y2 * mat22_get q 0 1
   + x2 * y2 * mat22_get q 1 1)%Q.

(** [_bilinear_interpolation], thread [tid]. *)
Definition _bilinear_interpolation (tid : nat) (x y : list Q)
    (q : list mat22f) (out : list Q) : option (list Q) :=
  do xt <- x !! tid;
  do yt <- y !! tid;
  do qt <- q !! tid;
  store out tid (_bilinear_interpolator xt yt qt).

Definition _cubic_interpolator (x : Q) (coeffs : vec4f) : vec4f :=
  let x2 := (x - Float.trunc x)%Q in
  let a := (-0.5)%Q in
  let coeffs := vec4_set coeffs 0 (a * (x2 * (1.0 - x2 * (2.0 - x2))))%Q in
  let coeffs := vec4_set coeffs 1 (a * (-2.0 + x2 * x2 * (5.0 - 3.0 * x2)))%Q in
  let coeffs := vec4_set coeffs 2 (a * (x2 * (-1.0 + x2 * (-4.0 + 3.0 * x2))))%Q in
  let coeffs := vec4_set coeffs 3 (a * (x2 * x2 * (1.0 - x2)))%Q in
  coeffs.

(** [_bicubic_interpolation], thread [tid]; [coeffs] is a scratch array. *)
Definition _bicubic_interpolation (tid : nat) (x y : list Q)
    (q : list mat44f) (coeffs : list vec4f) (out : list Q)
    : option (list vec4f * list Q) :=
  do xt <- x !! tid;
  do ct <- coeffs !! tid;
  do coeffs <- store coeffs tid (_cubic_interpolator xt ct);
  do qt <- q !! tid;
  do c <- coeffs !! tid;
  let a0 := (mat44_get qt 0 0 * vec4_get c 0 + mat44_get qt 1 0 * vec4_get c 1
             + mat44_get qt 2 0 * vec4_get c 2 + mat44_get qt 3 0 * vec4_get c 3)%Q in
  let a1 := (mat44_get qt 0 1 * vec4_get c 0 + mat44_get qt 1 1 * vec4_get c 1
             + mat44_get qt 2 1 * vec4_get c 2 + mat44_get qt 3 1 * vec4_get c 3)%Q in
  let a2 := (mat44_get qt 0 2 * vec4_get c 0 + mat44_get qt 1 2 * vec4_get c 1
             + mat44_get qt 2 2 * vec4_get c 2 + mat44_get qt 3 2 * vec4_get c 3)%Q in
  let a3 := (mat44_get qt 0 3 * vec4_get c 0 + mat44_get qt 1 3 * vec4_get c 1
             + mat44_get qt 2 3 * vec4_get c 2 + mat44_get qt 3 3 * vec4_get c 3)%Q in
  do yt <- y !! tid;
  do ct <- coeffs !! tid;
  do coeffs <- store coeffs tid (_cubic_interpolator yt ct);
  do c <- coeffs !! tid;
  do out <- store out tid (a0 * vec4_get c 0 + a1 * vec4_get c 1
                           + a2 * vec4_get c 2 + a3 * vec4_get c 3)%Q;
  Some (coeffs, out).

(** [x / n] for a [float] [x] and an [int] [n], the literal [2] of
    [_normal_on_grid].  The operands of Warp's operators have the same type,
    and a literal has the type it is written in ([2] is an [int], [2.0] a
    [float]): this division has no overload, whatever [x] and [n], and the
    function that contains it is not built.  Every other operation of the
    kernels combines two floats or two ints. *)
Definition div_float_int (x : Q) (n : Z) : option Q := None.

(** [_normal_on_grid]: [grid_size / 2] is such a division, in both
    components. *)
Definition _normal_on_grid (q : mat22f) (grid_size : Q) : option vec3f :=
  do half0 <- div_float_int grid_size 2;
  do half1 <- div_float_int grid_size 2;
  Some (Vec3f (half0 * (mat22_get q 0 1 - mat22_get q 1 1 - mat22_get q 1 0
                        + mat22_get q 0 0))%Q
              (half1 * (mat22_get q 1 0 - mat22_get q 1 1 - mat22_get q 0 1
                        - mat22_get q 0 0))%Q
              (grid_size * grid_size)%Q).

(** [_4points_normal], thread [tid]. *)
Definition _4points_normal (tid : nat) (q : list mat22f) (grid_size : Q)
    (normal : list vec3f) : option (list vec3f) :=
  do qt <- q !! tid;
  do v <- _normal_on_grid qt grid_size;
  store normal tid v.

(** ** Kernel launches *)

(** [wp.launch(kernel, dim = n, ...)]: the threads [0 .. n-1] run the kernel
    body, here one after the other; a faulting thread aborts the launch. *)
Fixpoint run_threads {S : Type} (body : nat -> S -> option S)
    (tids : list nat) (s : S) : option S :=
  match tids with
  | [] => Some s
  | t :: ts => do s' <- body t s; run_threads body ts s'
  end.

Definition launch {S : Type} (dim : nat) (body : nat -> S -> option S)
    (s : S) : option S :=
  run_threads body (seq 0 dim) s.

(** The shape of the DEM as [_preprocess] receives it (a [wp.vec2f]). *)
Definition shape_f (dem_shape : vec2i) : vec2f :=
  Vec2f (inject_Z (v2i_0 dem_shape)) (inject_Z (v2i_1 dem_shape)).

Definition launch_preprocess (n : nat) (points : list vec2f) (coord : vec2f)
    (mpp : Q) (dem_shape : vec2f) (xy : list Q * list Q) :=
  launch n (fun tid '(x, y) => _preprocess tid x y points coord mpp dem_shape) xy.

Definition launch_get_values_2x2 (n : nat) (dem : list Q) (dem_shape : vec2i)
    (x y : list Q) (out : list mat22f) :=
  launch n (fun tid out => _get_values_wp_2x2 tid dem dem_shape x y out) out.

Definition launch_get_values_4x4 (n : nat) (dem : list Q) (dem_shape : vec2i)
    (x y : list Q) (out : list mat44f) :=
  launch n (fun tid out => _get_values_wp_4x4 tid dem dem_shape x y out) out.

Definition launch_bilinear (n : nat) (x y : list Q) (q : list mat22f)
    (out : list Q) :=
  launch n (fun tid out => _bilinear_interpolation tid x y q out) out.

Definition launch_bicubic (n : nat) (x y : list Q) (q : list mat44f)
    (co : list vec4f * list Q) :=
  launch n (fun tid '(coeffs, out) =>
              _bicubic_interpolation tid x y q coeffs out) co.

Definition launch_normal (n : nat) (q : list mat22f) (grid_size : Q)
    (normal : list vec3f) :=
  launch n (fun tid normal => _4points_normal tid q grid_size normal) normal.

(** The sampling pipelines of the height-field sampler: preprocessing, then
    the gather, then the interpolation, all over the same [n] points.  The
    host code that chains the launches is not among the sources; the chain
    is the one the kernels' parameters impose (the gather reads the [x], [y]
    that [_preprocess] writes, the interpolation reads the gathered
    patches). *)
Definition sample_bilinear (dem : list Q) (dem_shape : vec2i) (coord : vec2f)
    (mpp : Q) (points : list vec2f) : option (list Q) :=
  let n := length points in
  do '(x, y) <- launch_preprocess n points coord mpp (shape_f dem_shape)
                  (replicate n 0%Q, replicate n 0%Q);
  do q <- launch_get_values_2x2 n dem dem_shape x y
            (replicate n (Mat22f 0 0 0 0));
  launch_bilinear n x y q (replicate n 0%Q).

Definition sample_bicubic (dem : list Q) (dem_shape : vec2i) (coord : vec2f)
    (mpp : Q) (points : list vec2f) : option (list Q) :=
  let n := length points in
  let z4 := Vec4f 0 0 0 0 in
  do '(x, y) <- launch_preprocess n points coord mpp (shape_f dem_shape)
                  (replicate n 0%Q, replicate n 0%Q);
  do q <- launch_get_values_4x4 n dem dem_shape x y
            (replicate n (Mat44f z4 z4 z4 z4));
  do '(_, out) <- launch_bicubic n x y q (replicate n z4, replicate n 0%Q);
  Some out.

(** ** Patches as tables *)

(** Patches filled from a table of loads, in the order of the gathers. *)
Definition mat22_of (f : nat -> nat -> option Q) : option mat22f :=
  do q00 <- f 0%nat 0%nat;
  do q10 <- f 1%nat 0%nat;
  do q01 <- f 0%nat 1%nat;
  do q11 <- f 1%nat 1%nat;
  Some (Mat22f q00 q01 q10 q11).

Definition vec4_of (f : nat -> option Q) : option vec4f :=
  do a <- f 0%nat; do b <- f 1%nat; do c <- f 2%nat; do d <- f 3%nat;
  Some (Vec4f a b c d).

Definition mat44_of (f : nat -> nat -> option Q) : option mat44f :=
  do c0 <- vec4_of (fun i => f i 0%nat);
  do c1 <- vec4_of (fun i => f i 1%nat);
  do c2 <- vec4_of (fun i => f i 2%nat);
  do c3 <- vec4_of (fun i => f i 3%nat);
  Some (Mat44f (Vec4f (v4f_0 c0) (v4f_0 c1) (v4f_0 c2) (v4f_0 c3))
               (Vec4f (v4f_1 c0) (v4f_1 c1) (v4f_1 c2) (v4f_1 c3))
               (Vec4f (v4f_2 c0) (v4f_2 c1) (v4f_2 c2) (v4f_2 c3))
               (Vec4f (v4f_3 c0) (v4f_3 c1) (v4f_3 c2) (v4f_3 c3))).

(** ** The sampler as the specification words it *)

Module Spec.

Definition clamp (lo hi v : Z) : Z := Z.max lo (Z.min v hi).

(** Direct lookup of the sample [dem[i, j]] of a row-major DEM whose rows
    have [dem_shape[1]] samples. *)
Definition dem_at (dem : list Q) (dem_shape : vec2i) (i j : Z) : option Q :=
  if (0 <=? i) && (i <? v2i_0 dem_shape) && (0 <=? j) && (j <? v2i_1 dem_shape)
  then dem !! Z.to_nat (i * v2i_1 dem_shape + j)
  else None.

(** The sample at [(i, j)], each index clamped to the bounds on its own. *)
Definition dem_clamped (dem : list Q) (dem_shape : vec2i) (i j : Z) : option Q :=
  dem_at dem dem_shape (clamp 0 (v2i_0 dem_shape - 1) i)
                       (clamp 0 (v2i_1 dem_shape - 1) j).

(** Fractional part [px - floor(px)]. *)
Definition frac (px : Q) : Q := (px - inject_Z (Qfloor px))%Q.

(** Step 2: clamping of a pixel coordinate to [[0, n - 1]]. *)
Definition clamp_px (n : Q) (px : Q) : Q := Qmax 0 (Qmin px (n - 1)).

(** Step 3: bilinear reconstruction. *)
Definition bilinear (dem : list Q) (dem_shape : vec2i) (px py : Q) : option Q :=
  let x0 := Qfloor px in
  let y0 := Qfloor py in
  let fx := frac px in
  let fy := frac py in
  do q00 <- dem_clamped dem dem_shape x0 y0;
  do q10 <- dem_clamped dem dem_shape (x0 + 1) y0;
  do q01 <- dem_clamped dem dem_shape x0 (y0 + 1);
  do q11 <- dem_clamped dem dem_shape (x0 + 1) (y0 + 1);
  Some ((1 - fx) * (1 - fy) * q00 + fx * (1 - fy) * q10
        + (1 - fx) * fy * q01 + fx * fy * q11)%Q.

(** Step 4: the cubic convolution kernel with coefficient [a] (Keys), as a
    function of the distance [s] between a sample and the point of
    reconstruction. *)
Definition keys (a s : Q) : Q :=
  let r := Qabs s in
  if Qle_bool r 1 then ((a + 2) * r * r * r - (a + 3) * r * r + 1)%Q
  else if negb (Qle_bool 2 r)
       then (a * r * r * r - 5 * a * r * r + 8 * a * r - 4 * a)%Q
       else 0%Q.

(** The weight of tap [k] (at offset [k - 1], for [k] from 0 to 3) for a
    point at the fraction [t] of the cell. *)
Definition cubic_weight (a : Q) (k : nat) (t : Q) : Q :=
  keys a (t - (inject_Z (Z.of_nat k) - 1)).

Definition catmull_rom (k : nat) (t : Q) : Q := cubic_weight (-0.5) k t.

(** The 4x4 neighbourhood of the pixel [(x0, y0)]: taps at offsets
    -1 .. 2 in each direction, every index clamped on its own. *)
Definition tap (dem : list Q) (dem_shape : vec2i) (x0 y0 : Z) (i j : nat)
    : option Q :=
  dem_clamped dem dem_shape (x0 - 1 + Z.of_nat i) (y0 - 1 + Z.of_nat j).

Definition patch44 (dem : list Q) (dem_shape : vec2i) (x0 y0 : Z)
    : option mat44f :=
  mat44_of (tap dem dem_shape x0 y0).

Definition blend4 (w v : nat -> Q) : Q :=
  (w 0%nat * v 0%nat + w 1%nat * v 1%nat
   + w 2%nat * v 2%nat + w 3%nat * v 3%nat)%Q.

(** Separable convolution of a patch [q]: the weights of [fx] blend the
    rows [q[0 .. 3, j]] into four intermediate values, which the weights
    of [fy] blend into the result. *)
Definition bicubic_patch (q : mat44f) (fx fy : Q) : Q :=
  blend4 (fun j => catmull_rom j fy)
         (fun j => blend4 (fun i => catmull_rom i fx)
                          (fun i => mat44_get q i j)).

Definition bicubic (dem : list Q) (dem_shape : vec2i) (px py : Q) : option Q :=
  do q <- patch44 dem dem_shape (Qfloor px) (Qfloor py);
  Some (bicubic_patch q (frac px) (frac py)).

(** The square of the length of a vector. *)
Definition norm2 (v : vec3f) : Q :=
  (v3f_0 v * v3f_0 v + v3f_1 v * v3f_1 v + v3f_2 v * v3f_2 v)%Q.

(** Unit length, stated on the square of the length. *)
Definition unit_length (v : vec3f) : Prop := norm2 v == 1.

(** What [normals] answers for one point: a normal, or the report of a
    degenerate patch. *)
Inductive normal_outcome :=
| Normal (v : vec3f)
| DegenerateNormalError.

(** Step 5, the contract on the outcome for a patch whose unnormalized
    normal is [u]: below the magnitude [eps] the error is reported,
    otherwise the vector returned has unit length. *)
Definition normal_contract (eps : Q) (u : vec3f) (o : normal_outcome) : Prop :=
  match o with
  | Normal v => (eps * eps <= norm2 u)%Q /\ unit_length v
  | DegenerateNormalError => (norm2 u < eps * eps)%Q
  end.

(** Step 5: the unnormalized normal of a quad. *)
Definition normal (q : nat -> nat -> Q) (grid_size : Q) : vec3f :=
  let q00 := q 0%nat 0%nat in
  let q01 := q 0%nat 1%nat in
  let q10 := q 1%nat 0%nat in
  let q11 := q 1%nat 1%nat in
  Vec3f (grid_size / 2 * (q01 - q11 - q10 + q00))%Q
        (grid_size / 2 * (q10 - q11 - q01 - q00))%Q
        (grid_size ^ 2)%Q.

End Spec.


(** ** Auxiliary definitions for the gathers *)

(** A DEM of shape [dem_shape] held in a [wp.array]: one sample per grid
    node, and a number of samples that fits the 32-bit length of an array. *)
Definition wf_dem (dem : list Q) (dem_shape : vec2i) : Prop :=
  0 < v2i_0 dem_shape /\ 0 < v2i_1 dem_shape /\
  Z.of_nat (length dem) = v2i_0 dem_shape * v2i_1 dem_shape /\
  v2i_0 dem_shape * v2i_1 dem_shape <= Int32.max_signed.

(** A pixel coordinate inside the DEM along an axis of [n] samples. *)
Definition clamped (n : Z) (px : Q) : Prop :=
  (0 <= px)%Q /\ (px <= inject_Z (n - 1))%Q.

(** Row offsets and columns of the taps of [_get_2x2_mat], from the
    integer parts [x0], [y0] of the coordinates. *)
Definition row2 (dem_shape : vec2i) (x0 : Z) (i : nat) : Z :=
  match i with
  | 0%nat => Int32.mul x0 (v2i_1 dem_shape)
  | _ => Int32.mul (Z.min (Int32.add x0 1) (Int32.sub (v2i_0 dem_shape) 1))
                   (v2i_1 dem_shape)
  end.

Definition col2 (dem_shape : vec2i) (y0 : Z) (j : nat) : Z :=
  match j with
  | 0%nat => y0
  | _ => Z.min (Int32.add y0 1) (Int32.sub (v2i_1 dem_shape) 1)
  end.

(** Row offsets and columns of the taps of [_get_4x4_mat], from the
    integer parts [ix], [iy] of the coordinates. *)
Definition row4 (dem_shape : vec2i) (ix : Z) (i : nat) : Z :=
  let x0 := Z.max (Int32.sub ix 1) 0 in
  match i with
  | 0%nat => Int32.mul x0 (v2i_1 dem_shape)
  | _ => Int32.mul (Z.min (Int32.add x0 (Z.of_nat i))
                          (Int32.sub (v2i_0 dem_shape) 1))
                   (v2i_1 dem_shape)
  end.

Definition col4 (dem_shape : vec2i) (iy : Z) (j : nat) : Z :=
  let y0 := Z.max (Int32.sub iy 1) 0 in
  match j with
  | 0%nat => y0
  | _ => Z.min (Int32.add y0 (Z.of_nat j)) (Int32.sub (v2i_1 dem_shape) 1)
  end.

(** The grid row (or column) that tap [k] of [_get_4x4_mat] reads along an
    axis of [n] samples, for a coordinate of integer part [i0]. *)
Definition node4 (n i0 : Z) (k : nat) : Z :=
  Z.min (Z.max (i0 - 1) 0 + Z.of_nat k) (n - 1).

(** ** Auxiliary definitions for the interpolation kernels *)

(** The pixel coordinate that a thread of [_preprocess] leaves in [x] or
    [y] for the world coordinate [p]. *)
Definition pixel (p mpp offset : Q) : Q := (p / mpp + offset)%Q.

(** The weights that [_cubic_interpolator] writes; they do not depend on
    the previous content of [coeffs]. *)
Definition cubic_weights (x : Q) : vec4f :=
  _cubic_interpolator x (Vec4f 0 0 0 0).

(** One of the intermediate values [a0 .. a3] of [_bicubic_interpolation]. *)
Definition blend_col (qt : mat44f) (j : nat) (c : vec4f) : Q :=
  (mat44_get qt 0 j * vec4_get c 0 + mat44_get qt 1 j * vec4_get c 1
   + mat44_get qt 2 j * vec4_get c 2 + mat44_get qt 3 j * vec4_get c 3)%Q.

(** The value a thread of [_bicubic_interpolation] stores in [out]. *)
Definition bicubic_value (xt yt : Q) (qt : mat44f) : Q :=
  let c := cubic_weights xt in
  let cy := cubic_weights yt in
  (blend_col qt 0 c * vec4_get cy 0 + blend_col qt 1 c * vec4_get cy 1
   + blend_col qt 2 c * vec4_get cy 2 + blend_col qt 3 c * vec4_get cy 3)%Q.

(** ** Per-point independence of a batch operation *)

(** A batch operation [run n inputs s], launched over [n] points with the
    read-only [inputs] and the output buffers [s], is per-point independent
    when the slot [i] of its output is the same in any two runs whose inputs
    agree on slot [i]: whatever the other points, the sizes of the batches
    and the previous content of the output buffers. *)
Definition per_point {I S V W : Type} (run : nat -> I -> S -> option S)
    (inp : I -> nat -> V) (outp : S -> nat -> W) : Prop :=
  forall n1 n2 in1 in2 s1 s2 s1' s2' i,
    (i < n1)%nat -> (i < n2)%nat ->
    inp in1 i = inp in2 i ->
    run n1 in1 s1 = Some s1' -> run n2 in2 s2 = Some s2' ->
    outp s1' i = outp s2' i.

(** Slot [i] of one array, of two arrays, of three arrays. *)
Definition slot1 {A : Type} (a : list A) (i : nat) : option A := a !! i.
Definition slot2 {A B : Type} (ab : list A * list B) (i : nat)
    : option A * option B :=
  (fst ab !! i, snd ab !! i).
Definition slot3 {A B C : Type} (abc : list A * list B * list C) (i : nat)
    : option A * option B * option C :=
  (fst (fst abc) !! i, snd (fst abc) !! i, snd abc !! i).

(** What each batch operation computes for the point of index [i], as a
    function of slot [i] of its inputs. *)
Definition zero22 : mat22f := Mat22f 0 0 0 0.
Definition zero4 : vec4f := Vec4f 0 0 0 0.
Definition zero44 : mat44f := Mat44f zero4 zero4 zero4 zero4.

Definition point_get_2x2 (dem : list Q) (dem_shape : vec2i) (x y : list Q)
    (i : nat) : option mat22f :=
  do xt <- x !! i; do yt <- y !! i; _get_2x2_mat dem dem_shape xt yt zero22.

Definition point_get_4x4 (dem : list Q) (dem_shape : vec2i) (x y : list Q)
    (i : nat) : option mat44f :=
  do xt <- x !! i; do yt <- y !! i; _get_4x4_mat dem dem_shape xt yt zero44.

Definition point_bilinear (x y : list Q) (q : list mat22f) (i : nat)
    : option Q :=
  do xt <- x !! i; do yt <- y !! i; do qt <- q !! i;
  Some (_bilinear_interpolator xt yt qt).

Definition point_bicubic (x y : list Q) (q : list mat44f) (i : nat)
    : option Q :=
  do xt <- x !! i; do yt <- y !! i; do qt <- q !! i;
  Some (bicubic_value xt yt qt).

Definition point_normal (q : list mat22f) (grid_size : Q) (i : nat)
    : option vec3f :=
  do qt <- q !! i; _normal_on_grid qt grid_size.

(** What the sampling pipelines compute for one query point. *)
Definition point_sample_bilinear (dem : list Q) (dem_shape : vec2i)
    (coord : vec2f) (mpp : Q) (p : vec2f) : option Q :=
  let px := pixel (v2f_0 p) mpp (v2f_0 coord) in
  let py := pixel (v2f_1 p) mpp (v2f_1 coord) in
  do q <- _get_2x2_mat dem dem_shape px py zero22;
  Some (_bilinear_interpolator px py q).

Definition point_sample_bicubic (dem : list Q) (dem_shape : vec2i)
    (coord : vec2f) (mpp : Q) (p : vec2f) : option Q :=
  let px := pixel (v2f_0 p) mpp (v2f_0 coord) in
  let py := pixel (v2f_1 p) mpp (v2f_1 coord) in
  do q <- _get_4x4_mat dem dem_shape px py zero44;
  Some (bicubic_value px py q).

(** ** The collider cache *)

Module Colliders.

(** The configuration record, with the fields that
    [test_dynamic_colliders.py] gives it. *)
Record CollidersManagerConf := {
  root_path : string;
  sim_length : Q;
  sim_width : Q;
  resolution : Q;
  build_radius : Q;
  remove_radius : Q;
  max_cache_size : Z
}.

(** Modelled from the spec: the tile coordinate and the cache entry of
    section 3 (the module [colliders_manager] is not among the sources). *)
Definition TileCoordinate : Type := Z * Z.

Record ColliderEntry := {
  tile : TileCoordinate;
  handle : nat;
  last_seen_distance : Q
}.

(** Modelled from the spec: the cache of section 4.3, the live entries in
    the order of their insertion (oldest first), with the next free
    handle. *)
Record ColliderCache := {
  entries : list ColliderEntry;
  next_handle : nat
}.

(** Modelled from the spec: what one reconciliation reports, the tiles
    built and evicted (section 4.3) and the capacity contentions
    (section 7). *)
Record Delta := {
  built : list TileCoordinate;
  evicted : list TileCoordinate;
  contention : list TileCoordinate
}.

Definition Qltb (a b : Q) : bool := negb (Qle_bool b a).

Definition tile_eqb (a b : TileCoordinate) : bool :=
  (fst a =? fst b) && (snd a =? snd b).

(** Modelled from the spec: the side of a tile, "a fixed tile size derived
    from resolution" (the module [colliders_manager] is not among the
    sources); the resolution itself is taken. *)
Definition tile_size (cfg : CollidersManagerConf) : Q := resolution cfg.

(** Modelled from the spec: the configuration errors of section 7 that
    concern the cache ([colliders_manager] is not among the sources):
    radii out of order, non-positive tile size, non-positive capacity. *)
Definition valid_conf (cfg : CollidersManagerConf) : bool :=
  Qltb 0 (tile_size cfg)
  && Qltb (build_radius cfg) (remove_radius cfg)
  && (1 <=? max_cache_size cfg).

(** Modelled from the spec: [world_to_tile] of section 4.2, by floor
    division ([colliders_manager] is not among the sources). *)
Definition world_to_tile (x y ts : Q) : TileCoordinate :=
  (Qfloor (x / ts), Qfloor (y / ts)).

(** Modelled from the spec: distance from the reference point to the
    centre of a tile.  It is kept squared, and [d <= r] is decided as
    [0 <= r] and [d * d <= r * r], so that no square root is taken. *)
Definition distance2 (ts : Q) (ref : Q * Q) (t : TileCoordinate) : Q :=
  let cx := ((inject_Z (fst t) + 0.5) * ts)%Q in
  let cy := ((inject_Z (snd t) + 0.5) * ts)%Q in
  ((cx - fst ref) * (cx - fst ref) + (cy - snd ref) * (cy - snd ref))%Q.

Definition within (d2 r : Q) : bool := Qle_bool 0 r && Qle_bool d2 (r * r).

Definition zrange (lo hi : Z) : list Z :=
  map (fun k => lo + Z.of_nat k) (seq 0 (Z.to_nat (hi - lo + 1))).

(** Modelled from the spec: the candidate tiles of one pass, those whose
    centre is within [remove_radius] of the reference point. *)
Definition candidates (cfg : CollidersManagerConf) (ref : Q * Q)
    : list TileCoordinate :=
  let ts := tile_size cfg in
  let r := remove_radius cfg in
  let lo := world_to_tile (fst ref - r) (snd ref - r) ts in
  let hi := world_to_tile (fst ref + r) (snd ref + r) ts in
  let xs := zrange (fst lo - 1) (fst hi + 1) in
  let ys := zrange (snd lo - 1) (snd hi + 1) in
  filter (fun t => within (distance2 ts ref t) r = true)
         (list_prod xs ys).

(** Modelled from the spec: "every reconciliation step updates
    [last_seen_distance] for all Built entries". *)
Definition refresh (ts : Q) (ref : Q * Q) (e : ColliderEntry) : ColliderEntry :=
  {| tile := tile e; handle := handle e;
     last_seen_distance := distance2 ts ref (tile e) |}.

(** Modelled from the spec: the eviction candidate, the entry with the
    largest [last_seen_distance], the oldest one among equals. *)
Fixpoint farthest (es : list ColliderEntry) : option ColliderEntry :=
  match es with
  | [] => None
  | e :: rest =>
      match farthest rest with
      | Some f =>
          if Qltb (last_seen_distance e) (last_seen_distance f)
          then Some f else Some e
      | None => Some e
      end
  end.

(** Modelled from the spec: "tile not already in cache", and the removal
    of the entry of a tile. *)
Definition cached (es : list ColliderEntry) (t : TileCoordinate) : bool :=
  existsb (fun e => tile_eqb (tile e) t) es.

Definition remove_tile (es : list ColliderEntry) (t : TileCoordinate)
    : list ColliderEntry :=
  filter (fun e => tile_eqb (tile e) t = false) es.

Definition add_built (d : Delta) (t : TileCoordinate) : Delta :=
  {| built := built d ++ [t]; evicted := evicted d;
     contention := contention d |}.
Definition add_evicted (d : Delta) (t : TileCoordinate) : Delta :=
  {| built := built d; evicted := evicted d ++ [t];
     contention := contention d |}.
Definition add_contention (d : Delta) (t : TileCoordinate) : Delta :=
  {| built := built d; evicted := evicted d;
     contention := contention d ++ [t] |}.

(** Modelled from the spec: the entry created by a build, added after
    the entries [es] that stay. *)
Definition new_entry (c : ColliderCache) (t : TileCoordinate) (d2 : Q)
    (es : list ColliderEntry) : ColliderCache :=
  {| entries := es ++ [{| tile := t; handle := next_handle c;
                          last_seen_distance := d2 |}];
     next_handle := S (next_handle c) |}.

(** Modelled from the spec: the transitions of section 4.3 for one
    candidate tile.  A tile within [build_radius] that is not cached is
    built when there is room; when the cache is full, the farthest entry
    is evicted to make room if it is farther than the tile, and capacity
    contention is reported otherwise. *)
Definition visit (cfg : CollidersManagerConf) (ref : Q * Q)
    (st : ColliderCache * Delta) (t : TileCoordinate)
    : ColliderCache * Delta :=
  let '(c, d) := st in
  let d2 := distance2 (tile_size cfg) ref t in
  if within d2 (build_radius cfg) && negb (cached (entries c) t) then
    if Z.of_nat (length (entries c)) <? max_cache_size cfg then
      (new_entry c t d2 (entries c), add_built d t)
    else
      match farthest (entries c) with
      | Some f =>
          if Qltb d2 (last_seen_distance f) then
            (new_entry c t d2 (remove_tile (entries c) (tile f)),
             add_built (add_evicted d (tile f)) t)
          else (c, add_contention d t)
      | None => (c, add_contention d t)
      end
  else (c, d).

(** Modelled from the spec: [reconcile] of section 4.3.  The distances of
    the entries are refreshed, the entries beyond [remove_radius] are
    evicted, and the candidate tiles are visited in one pass. *)
Definition reconcile (cfg : CollidersManagerConf) (ref : Q * Q)
    (c : ColliderCache) : ColliderCache * Delta :=
  let ts := tile_size cfg in
  let es := map (refresh ts ref) (entries c) in
  let far := filter (fun e => within (last_seen_distance e)
                                     (remove_radius cfg) = false) es in
  let kept := filter (fun e => within (last_seen_distance e)
                                      (remove_radius cfg) = true) es in
  let c1 := {| entries := kept; next_handle := next_handle c |} in
  let d1 := {| built := []; evicted := map tile far; contention := [] |} in
  fold_left (visit cfg ref) (candidates cfg ref) (c1, d1).

(** Modelled from the spec: the construction of the manager, which
    rejects an invalid configuration and starts with an empty cache. *)
Definition CollidersManager (cfg : CollidersManagerConf)
    : option ColliderCache :=
  if valid_conf cfg then Some {| entries := []; next_handle := 0 |}
  else None.

(** Modelled from the spec: [CM.update_blocks(position)] as the test calls
    it, one reconciliation per tick around the horizontal position of the
    reference point. *)
Definition update_blocks (cfg : CollidersManagerConf) (c : ColliderCache)
    (position : Q * Q * Q) : ColliderCache :=
  let '(x, y, _) := position in
  fst (reconcile cfg (x, y) c).

(** The caches after each tick of a run: the loop of the test, for the
    positions it visits. *)
Fixpoint run (cfg : CollidersManagerConf) (c : ColliderCache)
    (positions : list (Q * Q * Q)) : list ColliderCache :=
  match positions with
  | [] => []
  | p :: ps =>
      let c' := update_blocks cfg c p in
      c' :: run cfg c' ps
  end.

(** The capacity invariant of the cache. *)
Definition within_capacity (cfg : CollidersManagerConf) (c : ColliderCache)
    : Prop :=
  Z.of_nat (length (entries c)) <= max_cache_size cfg.

(** The configuration of the test. *)
Definition CMC : CollidersManagerConf :=
  {| root_path := "/Main";
     sim_length := 50.0; sim_width := 50.0;
     resolution := 0.1;
     build_radius := 1.5; remove_radius := 2.5;
     max_cache_size := 6 |}.

End Colliders.

(** ** A small DEM for the examples *)

(** Four rows of four samples, [dem44[i, j] = 10 i + j]. *)
Definition dem44 : list Q :=
  map inject_Z [0; 1; 2; 3; 10; 11; 12; 13; 20; 21; 22; 23; 30; 31; 32; 33].

Definition shape44 : vec2i := Vec2i 4 4.

(** ** Patches and DEMs of a given shape, for the properties of the
       interpolators *)

(** A DEM that samples the plane [a i + b j + c]. *)
Definition plane_dem (dem : list Q) (dem_shape : vec2i) (a b c : Q) : Prop :=
  forall i j, 0 <= i < v2i_0 dem_shape -> 0 <= j < v2i_1 dem_shape ->
    exists v, Spec.dem_at dem dem_shape i j = Some v /\
              v == a * inject_Z i + b * inject_Z j + c.

(** The polynomial of degree at most 2 in each variable whose coefficient
    of [u^m v^n] is [c m n]. *)
Definition biquadratic (c : nat -> nat -> Q) (u v : Q) : Q :=
  let c00 := c 0%nat 0%nat in
  let c10 := c 1%nat 0%nat in
  let c20 := c 2%nat 0%nat in
  let c01 := c 0%nat 1%nat in
  let c11 := c 1%nat 1%nat in
  let c21 := c 2%nat 1%nat in
  let c02 := c 0%nat 2%nat in
  let c12 := c 1%nat 2%nat in
  let c22 := c 2%nat 2%nat in
  (c00 + c10 * u + c20 * u * u
   + (c01 + c11 * u + c21 * u * u) * v
   + (c02 + c12 * u + c22 * u * u) * v * v)%Q.

(** The coefficients of the plane [h0 + a u + b v]. *)
Definition plane_coeffs (h0 a b : Q) (m n : nat) : Q :=
  match m, n with
  | 0%nat, 0%nat => h0
  | 1%nat, 0%nat => a
  | 0%nat, 1%nat => b
  | _, _ => 0
  end.

(** The coefficients of the paraboloid [u^2 + v]. *)
Definition paraboloid_coeffs (m n : nat) : Q :=
  match m, n with
  | 2%nat, 0%nat => 1
  | 0%nat, 1%nat => 1
  | _, _ => 0
  end.


(** ** The lab manager factory

    [src/environments_wrappers/ros2/simulation_manager_ros2.py].  A
    configuration is a Python value made of dictionaries with string keys;
    an expression either returns a value or raises an exception.  The two
    lab manager classes are not among the sources: a lab manager is any
    callable that takes the two configurations and returns a node or
    raises. *)

Module Factory.

#[warnings="-register-all"] Inductive value :=
| VNone
| VBool (b : bool)
| VInt (n : Z)
| VFloat (x : Q)
| VStr (s : string)
| VDict (items : list (string * value)).

Inductive exn :=
| KeyError (key : value)
| TypeError.

Definition result (A : Type) : Type := (exn + A)%type.

Definition bind {A B : Type} (r : result A) (k : A -> result B) : result B :=
  match r with
  | inl e => inl e
  | inr a => k a
  end.

Notation "'let*' x := e 'in' k" := (bind e (fun x => k))
  (at level 10, x name, e at level 100, k at level 200).

(** The value that a dictionary holds for [k]. *)
Fixpoint dict_get (items : list (string * value)) (k : string) : option value :=
  match items with
  | [] => None
  | (k', v) :: items => if String.eqb k k' then Some v else dict_get items k
  end.

(** [d[k]] for a string [k]: a dictionary without the key raises
    [KeyError(k)]; a string, a number, a boolean or [None] raises
    [TypeError]. *)
Definition subscript (d : value) (k : string) : result value :=
  match d with
  | VDict items =>
      match dict_get items k with
      | Some v => inr v
      | None => inl (KeyError (VStr k))
      end
  | _ => inl TypeError
  end.

Section Managers.

Variable node : Type.

Definition lab_manager : Type := value -> value -> result node.

Record ROS2_LabManagerFactory := { _lab_managers : gmap string lab_manager }.

Definition __init__ : ROS2_LabManagerFactory := {| _lab_managers := ∅ |}.

Definition register (self : ROS2_LabManagerFactory) (name : string)
    (m : lab_manager) : ROS2_LabManagerFactory :=
  {| _lab_managers := <[name := m]> (_lab_managers self) |}.

(** [self._lab_managers[name]], the names registered being strings: a
    dictionary is not hashable ([TypeError]), any other value that is not
    registered raises [KeyError(name)]. *)
Definition registered (self : ROS2_LabManagerFactory) (name : value)
    : result lab_manager :=
  match name with
  | VStr s =>
      match _lab_managers self !! s with
      | Some m => inr m
      | None => inl (KeyError name)
      end
  | VDict _ => inl TypeError
  | _ => inl (KeyError name)
  end.

(** [__call__]: Python evaluates the callee first, then the arguments from
    left to right, then calls. *)
Definition __call__ (self : ROS2_LabManagerFactory) (cfg : value)
    : result node :=
  let* environment := subscript cfg "environment" in
  let* name := subscript environment "name" in
  let* m := registered self name in
  let* environment := subscript cfg "environment" in
  let* rendering := subscript cfg "rendering" in
  let* lens_flares := subscript rendering "lens_flares" in
  m environment lens_flares.

Variables ROS_LunalabManager ROS_LunaryardManager : lab_manager.

Definition ROS2_LMF : ROS2_LabManagerFactory :=
  register (register __init__ "Lunalab" ROS_LunalabManager)
           "Lunaryard" ROS_LunaryardManager.

End Managers.

Arguments _lab_managers {node}.
Arguments __init__ {node}.
Arguments register {node}.
Arguments registered {node}.
Arguments __call__ {node}.
Arguments ROS2_LMF {node}.

End Factory.

(** ** The lens flare of the lab

    [src/environments/lunalab.py], the render control of
    [LunalabController].  The carb settings are a dictionary from paths to
    the values set; [FlaresConf] is not among the sources, its fields are
    the ones that [enableLensFlare] reads. *)

Module Lunalab.

(** The values that the controller stores: a [bool], an [int] or a
    [float]. *)
Inductive pyval :=
| PBool (b : bool)
| PInt (n : Z)
| PFloat (x : Q).

(** Python's [int(.)]: a float is truncated toward zero. *)
Definition int (v : pyval) : Z :=
  match v with
  | PBool b => if b then 1 else 0
  | PInt n => n
  | PFloat x => Float.trunc_Z x
  end.

Record FlaresConf := {
  enable : bool;
  scale : pyval;
  blades : pyval;
  aperture_rotation : pyval;
  sensor_aspect_ratio : pyval;
  sensor_diagonal : pyval;
  fstop : pyval;
  focal_length : pyval }.

Definition setFlareScale (value : pyval) (s : gmap string pyval)
    : gmap string pyval :=
  <["/rtx/post/lensFlares/flareScale" := value]> s.

Definition setFlareNumBlades (value : pyval) (s : gmap string pyval)
    : gmap string pyval :=
  <["/rtx/post/lensFlares/blades" := PInt (int value)]> s.

Definition setFlareApertureRotation (value : pyval) (s : gmap string pyval)
    : gmap string pyval :=
  <["/rtx/post/lensFlares/apertureRotation" := value]> s.

Definition setFlareSensorDiagonal (value : pyval) (s : gmap string pyval)
    : gmap string pyval :=
  <["/rtx/post/lensFlares/sensorDiagonal" := value]> s.

Definition setFlareSensorAspectRatio (value : pyval) (s : gmap string pyval)
    : gmap string pyval :=
  <["/rtx/post/lensFlares/sensorAspectRatio" := value]> s.

Definition setFlareFstop (value : pyval) (s : gmap string pyval)
    : gmap string pyval :=
  <["/rtx/post/lensFlares/fNumber" := value]> s.

Definition setFlareFocalLength (value : pyval) (s : gmap string pyval)
    : gmap string pyval :=
  <["/rtx/post/lensFlares/focalLength" := value]> s.

Definition enableLensFlare (flare_settings : FlaresConf) (data : bool)
    (s : gmap string pyval)
    : gmap string pyval :=
  if data then
    let s := <["/rtx/post/lensFlares/enabled" := PBool true]> s in
    let s := setFlareScale (scale flare_settings) s in
    let s := setFlareNumBlades (blades flare_settings) s in
    let s := setFlareApertureRotation (aperture_rotation flare_settings) s in
    let s := setFlareSensorAspectRatio (sensor_aspect_ratio flare_settings) s in
    let s := setFlareSensorDiagonal (sensor_diagonal flare_settings) s in
    let s := setFlareFstop (fstop flare_settings) s in
    setFlareFocalLength (focal_length flare_settings) s
  else
    <["/rtx/post/lensFlares/enabled" := PBool false]> s.

(** The calls to the render control of the lens flare, and a sequence of
    them on a controller whose configuration is [flare_settings]. *)
Inductive call :=
| EnableLensFlare (data : bool)
| SetFlareScale (value : pyval)
| SetFlareNumBlades (value : pyval)
| SetFlareApertureRotation (value : pyval)
| SetFlareSensorDiagonal (value : pyval)
| SetFlareSensorAspectRatio (value : pyval)
| SetFlareFstop (value : pyval)
| SetFlareFocalLength (value : pyval).

Definition step (flare_settings : FlaresConf) (c : call) (s : gmap string pyval)
    : gmap string pyval :=
  match c with
  | EnableLensFlare data => enableLensFlare flare_settings data s
  | SetFlareScale value => setFlareScale value s
  | SetFlareNumBlades value => setFlareNumBlades value s
  | SetFlareApertureRotation value => setFlareApertureRotation value s
  | SetFlareSensorDiagonal value => setFlareSensorDiagonal value s
  | SetFlareSensorAspectRatio value => setFlareSensorAspectRatio value s
  | SetFlareFstop value => setFlareFstop value s
  | SetFlareFocalLength value => setFlareFocalLength value s
  end.

Fixpoint run (flare_settings : FlaresConf) (cs : list call)
    (s : gmap string pyval) : gmap string pyval :=
  match cs with
  | [] => s
  | c :: cs => run flare_settings cs (step flare_settings c s)
  end.

(** The paths of the settings of the lens flare. *)
Definition flare_paths : list string :=
  ["/rtx/post/lensFlares/enabled"; "/rtx/post/lensFlares/flareScale";
   "/rtx/post/lensFlares/blades"; "/rtx/post/lensFlares/apertureRotation";
   "/rtx/post/lensFlares/sensorDiagonal";
   "/rtx/post/lensFlares/sensorAspectRatio";
   "/rtx/post/lensFlares/fNumber"; "/rtx/post/lensFlares/focalLength"].

Definition is_int (v : pyval) : bool :=
  match v with
  | PInt _ => true
  | _ => false
  end.

End Lunalab.
(** * Properties *)

(** ** Machine numbers *)

Lemma wrap32_small z :
  Int32.min_signed <= z <= Int32.max_signed -> Int32.wrap32 z = z.
Proof.
  unfold Int32.min_signed, Int32.max_signed, Int32.wrap32. intros Hz.
  rewrite Z.mod_small; lia.
Qed.

Lemma int32_add_small a b :
  Int32.min_signed <= a + b <= Int32.max_signed -> Int32.add a b = a + b.
Proof. apply wrap32_small. Qed.

Lemma int32_sub_small a b :
  Int32.min_signed <= a - b <= Int32.max_signed -> Int32.sub a b = a - b.
Proof. apply wrap32_small. Qed.

Lemma int32_mul_small a b :
  Int32.min_signed <= a * b <= Int32.max_signed -> Int32.mul a b = a * b.
Proof. apply wrap32_small. Qed.

Lemma trunc_Z_floor x : (0 <= x)%Q -> Float.trunc_Z x = Qfloor x.
Proof.
  destruct x as [n d]. unfold Qle, Float.trunc_Z, Qfloor. simpl. intros Hn.
  apply Z.quot_div_nonneg; lia.
Qed.

Lemma trunc_Z_integer x i : x == inject_Z i -> Float.trunc_Z x = i.
Proof.
  destruct x as [n d]. unfold Qeq, Float.trunc_Z. simpl. intros Hn.
  replace n with (i * Z.pos d) by lia. apply Z.quot_mul. lia.
Qed.

Lemma trunc_frac_floor x : (0 <= x)%Q -> (x - Float.trunc x)%Q = Spec.frac x.
Proof. intros Hx. unfold Float.trunc, Spec.frac. now rewrite trunc_Z_floor. Qed.

Lemma trunc_Z_bounds x n :
  (0 <= x)%Q -> (x <= inject_Z n)%Q -> 0 <= Float.trunc_Z x <= n.
Proof.
  intros H0 Hn. rewrite trunc_Z_floor by assumption. split.
  - rewrite <- (Qfloor_Z 0). now apply Qfloor_resp_le.
  - rewrite <- (Qfloor_Z n). now apply Qfloor_resp_le.
Qed.

Lemma to_int_small x :
  Int32.min_signed <= Float.trunc_Z x <= Int32.max_signed ->
  Float.to_int x = Some (Float.trunc_Z x).
Proof.
  intros Hx. unfold Float.to_int, Int32.in_range.
  destruct (Z.leb_spec Int32.min_signed (Float.trunc_Z x)); [|lia].
  destruct (Z.leb_spec (Float.trunc_Z x) Int32.max_signed); [|lia].
  reflexivity.
Qed.

Lemma binary32_headroom x n :
  Float.binary32 x -> (0 <= x)%Q -> (x <= inject_Z n)%Q ->
  n <= Int32.max_signed ->
  Float.trunc_Z x <= 2 ^ 31 - 128.
Proof.
  intros (m & e & Hm & He & Hx) H0 Hn Hmax.
  unfold Int32.max_signed in Hmax.
  destruct (Z_le_gt_dec e 6) as [Hsmall|Hbig].
  - assert (Hle : (x <= inject_Z (2 ^ 30))%Q).
    { rewrite Hx.
      assert (Hp : (0 < 2 ^ e)%Q) by (apply Qpower_0_lt; reflexivity).
      assert (Hp6 : (2 ^ e <= 2 ^ 6)%Q)
        by (apply Qpower_le_compat_l; [lia | discriminate]).
      destruct (Z_lt_le_dec m 0) as [Hneg|Hpos].
      - apply Qle_trans with 0%Q; [|discriminate].
        assert (Hm0 : (inject_Z m <= 0)%Q)
          by (change 0%Q with (inject_Z 0); rewrite <- Zle_Qle; lia).
        apply Qle_trans with (0 * 2 ^ e)%Q.
        * apply Qmult_le_compat_r; [assumption | now apply Qlt_le_weak].
        * rewrite Qmult_0_l. apply Qle_refl.
      - apply Qle_trans with (inject_Z m * 2 ^ 6)%Q.
        + rewrite !(Qmult_comm (inject_Z m)).
          apply Qmult_le_compat_r; [assumption|].
          change 0%Q with (inject_Z 0). rewrite <- Zle_Qle. assumption.
        + apply Qle_trans with (inject_Z (2 ^ 24) * 2 ^ 6)%Q; [|discriminate].
          apply Qmult_le_compat_r; [|discriminate].
          rewrite <- Zle_Qle. lia. }
    pose proof (trunc_Z_bounds x (2 ^ 30) H0 Hle). lia.
  - assert (Hint : x == inject_Z (m * 2 ^ e)).
    { rewrite Hx, inject_Z_mult, Zpower_Qpower by lia. reflexivity. }
    rewrite (trunc_Z_integer _ _ Hint).
    rewrite Hint, <- Zle_Qle in Hn.
    replace e with ((e - 7) + 7) in * by lia.
    rewrite Z.pow_add_r in * by lia.
    set (k := 2 ^ (e - 7)) in *.
    change (2 ^ 7) with 128 in *. lia.
Qed.

(** ** Arrays *)

Lemma load_nonneg {A : Type} (a : list A) (i : Z) :
  0 <= i -> load a i = a !! Z.to_nat i.
Proof.
  intros Hi. unfold load. destruct (Z.ltb_spec i 0); [lia|].
  cbv zeta. destruct (Z.ltb_spec i 0); [lia|]. reflexivity.
Qed.

(** A negative index counts from the end. *)
Lemma load_negative {A : Type} (a : list A) (i : Z) :
  - Z.of_nat (length a) <= i < 0 -> load a i = load a (i + Z.of_nat (length a)).
Proof.
  intros Hi. rewrite (load_nonneg a (i + _)) by lia. unfold load.
  destruct (Z.ltb_spec i 0); [|lia]. cbv zeta.
  destruct (Z.ltb_spec (i + Z.of_nat (length a)) 0); [lia|]. reflexivity.
Qed.

Lemma load_past_the_end {A : Type} (a : list A) (i : Z) :
  Z.of_nat (length a) <= i -> load a i = None.
Proof.
  intros Hi. rewrite load_nonneg by lia. apply lookup_ge_None. lia.
Qed.

Lemma load_in_range {A : Type} (a : list A) (i : Z) :
  0 <= i < Z.of_nat (length a) -> exists v, load a i = Some v.
Proof.
  intros Hi. rewrite load_nonneg by lia.
  apply lookup_lt_is_Some_2. lia.
Qed.

Lemma store_Some {A : Type} (a : list A) (tid : nat) (v : A) :
  (tid < length a)%nat -> store a tid v = Some (<[tid := v]> a).
Proof.
  intros Ht. unfold store. destruct (Nat.ltb_spec tid (length a)); [done|lia].
Qed.

Lemma store_inv {A : Type} (a a' : list A) (tid : nat) (v : A) :
  store a tid v = Some a' -> (tid < length a)%nat /\ a' = <[tid := v]> a.
Proof.
  unfold store. destruct (Nat.ltb_spec tid (length a)); [|discriminate].
  intros [= <-]. done.
Qed.

(** ** The gathers as tables of loads *)

Lemma get_2x2_mat_table dem dem_shape x y out :
  _get_2x2_mat dem dem_shape x y out =
  do x0 <- Float.to_int x;
  do y0 <- Float.to_int y;
  mat22_of (fun i j =>
              load dem (Int32.add (row2 dem_shape x0 i) (col2 dem_shape y0 j))).
Proof.
  unfold _get_2x2_mat, mat22_of.
  destruct (Float.to_int x) as [x0|]; [|done].
  destruct (Float.to_int y) as [y0|]; [|done].
  cbn [row2 col2].
  repeat (match goal with
          | |- context [load ?d ?i] => destruct (load d i)
          end; [|done]).
  reflexivity.
Qed.

Lemma get_4x4_mat_table dem dem_shape x y out :
  _get_4x4_mat dem dem_shape x y out =
  do ix <- Float.to_int x;
  do iy <- Float.to_int y;
  mat44_of (fun i j =>
              load dem (Int32.add (row4 dem_shape ix i) (col4 dem_shape iy j))).
Proof.
  unfold _get_4x4_mat, mat44_of, vec4_of.
  destruct (Float.to_int x) as [ix|]; [|done].
  destruct (Float.to_int y) as [iy|]; [|done].
  cbn [row4 col4].
  change (Z.of_nat 1) with 1. change (Z.of_nat 2) with 2.
  change (Z.of_nat 3) with 3.
  repeat (match goal with
          | |- context [load ?d ?i] => destruct (load d i)
          end; [|done]).
  reflexivity.
Qed.

(** ** Indexing a well-formed DEM *)

Section Indexing.

Variables (dem : list Q) (dem_shape : vec2i).
Hypothesis Hwf : wf_dem dem dem_shape.

Let w := v2i_0 dem_shape.
Let h := v2i_1 dem_shape.

Lemma flat_index_bounds r c :
  0 <= r < w -> 0 <= c < h ->
  0 <= r * h /\ r * h + c < w * h /\ w * h <= Int32.max_signed.
Proof.
  destruct Hwf as (Hw & Hh & Hlen & Hmax). fold w h in Hw, Hh, Hlen, Hmax.
  intros Hr Hc.
  assert (r * h <= (w - 1) * h) by (apply Z.mul_le_mono_nonneg_r; lia).
  assert (0 <= r * h) by (apply Z.mul_nonneg_nonneg; lia).
  lia.
Qed.

(** A node inside the grid is read without fault, at the flat index
    [r * h + c] computed with 32-bit arithmetic. *)
Lemma dem_at_in_range r c :
  0 <= r < w -> 0 <= c < h ->
  exists v, Spec.dem_at dem dem_shape r c = Some v /\
            load dem (Int32.add (Int32.mul r h) c) = Some v.
Proof.
  intros Hr Hc.
  destruct (flat_index_bounds r c Hr Hc) as (H0 & Hlt & Hmax).
  destruct Hwf as (Hw & Hh & Hlen & _). fold w h in Hw, Hh, Hlen.
  unfold Int32.max_signed in Hmax.
  rewrite int32_mul_small
    by (unfold Int32.min_signed, Int32.max_signed; lia).
  rewrite int32_add_small
    by (unfold Int32.min_signed, Int32.max_signed; lia).
  destruct (load_in_range dem (r * h + c)) as [v Hv]; [lia|].
  exists v. split; [|exact Hv].
  unfold Spec.dem_at. fold w h.
  destruct (Z.leb_spec 0 r); [|lia]. destruct (Z.ltb_spec r w); [|lia].
  destruct (Z.leb_spec 0 c); [|lia]. destruct (Z.ltb_spec c h); [|lia].
  simpl. rewrite load_nonneg in Hv by lia. exact Hv.
Qed.

Lemma clamp_bounds n v : 0 < n -> 0 <= Spec.clamp 0 (n - 1) v < n.
Proof. unfold Spec.clamp. lia. Qed.

Lemma dem_clamped_Some i j :
  exists v, Spec.dem_clamped dem dem_shape i j = Some v.
Proof.
  destruct Hwf as (Hw & Hh & _).
  destruct (dem_at_in_range (Spec.clamp 0 (w - 1) i) (Spec.clamp 0 (h - 1) j))
    as (v & Hv & _); [now apply clamp_bounds..|].
  exists v. exact Hv.
Qed.

(** The flat index of a tap of [_get_2x2_mat] at a coordinate inside the
    DEM. *)
Lemma index2_clamped x0 y0 i j :
  0 <= x0 <= w - 1 -> 0 <= y0 <= h - 1 -> (i < 2)%nat -> (j < 2)%nat ->
  Int32.add (row2 dem_shape x0 i) (col2 dem_shape y0 j) =
  Int32.add (Int32.mul (Spec.clamp 0 (w - 1) (x0 + Z.of_nat i)) h)
            (Spec.clamp 0 (h - 1) (y0 + Z.of_nat j)).
Proof.
  intros Hx Hy Hi Hj.
  pose proof Hwf as (Hw & Hh & Hlen & Hmax). fold w h in Hw, Hh, Hlen, Hmax.
  assert (Hwm : w <= Int32.max_signed /\ h <= Int32.max_signed) by nia.
  unfold Int32.max_signed in Hwm, Hmax.
  assert (Hr : row2 dem_shape x0 i
               = Int32.mul (Spec.clamp 0 (w - 1) (x0 + Z.of_nat i)) h).
  { destruct i as [|[|]]; [| |lia]; cbn [row2]; fold w h.
    - f_equal. unfold Spec.clamp. lia.
    - rewrite int32_add_small, int32_sub_small
        by (unfold Int32.min_signed, Int32.max_signed; lia).
      f_equal. unfold Spec.clamp. lia. }
  assert (Hc : col2 dem_shape y0 j = Spec.clamp 0 (h - 1) (y0 + Z.of_nat j)).
  { destruct j as [|[|]]; [| |lia]; cbn [col2]; fold w h.
    - unfold Spec.clamp. lia.
    - rewrite int32_add_small, int32_sub_small
        by (unfold Int32.min_signed, Int32.max_signed; lia).
      unfold Spec.clamp. lia. }
  now rewrite Hr, Hc.
Qed.

(** The flat index of a node of the grid, in 32-bit arithmetic. *)
Lemma flat_index_small r c :
  0 <= r < w -> 0 <= c < h ->
  Int32.add (Int32.mul r h) c = r * h + c /\ 0 <= r * h + c < w * h.
Proof.
  intros Hr Hc.
  destruct (flat_index_bounds r c Hr Hc) as (H0 & Hlt & Hmax).
  destruct Hwf as (Hw & Hh & Hlen & _). fold w h in Hw, Hh, Hlen.
  unfold Int32.max_signed in Hmax.
  rewrite int32_mul_small
    by (unfold Int32.min_signed, Int32.max_signed; lia).
  rewrite int32_add_small
    by (unfold Int32.min_signed, Int32.max_signed; lia).
  lia.
Qed.

(** The taps of [_get_2x2_mat] at a coordinate inside the DEM. *)
Lemma load2_clamped x0 y0 i j :
  0 <= x0 <= w - 1 -> 0 <= y0 <= h - 1 -> (i < 2)%nat -> (j < 2)%nat ->
  load dem (Int32.add (row2 dem_shape x0 i) (col2 dem_shape y0 j)) =
  Spec.dem_clamped dem dem_shape (x0 + Z.of_nat i) (y0 + Z.of_nat j).
Proof.
  intros Hx Hy Hi Hj.
  pose proof Hwf as (Hw & Hh & _). fold w h in Hw, Hh.
  rewrite index2_clamped by assumption. unfold Spec.dem_clamped. fold w h.
  destruct (dem_at_in_range (Spec.clamp 0 (w - 1) (x0 + Z.of_nat i))
                            (Spec.clamp 0 (h - 1) (y0 + Z.of_nat j)))
    as (v & -> & ->); [now apply clamp_bounds..|].
  reflexivity.
Qed.

End Indexing.

(** ** Bilinear sampling *)

Lemma to_int_clamped n x :
  n <= Int32.max_signed -> clamped n x ->
  Float.to_int x = Some (Qfloor x) /\ 0 <= Qfloor x <= n - 1.
Proof.
  intros Hn [H0 H1]. pose proof (trunc_Z_bounds x (n - 1) H0 H1) as Hb.
  rewrite <- (trunc_Z_floor x H0). split; [|exact Hb].
  apply to_int_small. unfold Int32.min_signed, Int32.max_signed in *. lia.
Qed.

Lemma wf_dem_dims dem dem_shape :
  wf_dem dem dem_shape ->
  v2i_0 dem_shape <= Int32.max_signed /\ v2i_1 dem_shape <= Int32.max_signed.
Proof. intros (Hw & Hh & _ & Hmax). nia. Qed.

(** The 2x2 gather at a coordinate inside the DEM: no fault, and the patch
    holds the four neighbours, each index clamped on its own. *)
Lemma get_2x2_mat_clamped dem dem_shape px py out :
  wf_dem dem dem_shape ->
  clamped (v2i_0 dem_shape) px -> clamped (v2i_1 dem_shape) py ->
  exists q,
    _get_2x2_mat dem dem_shape px py out = Some q /\
    forall i j, (i < 2)%nat -> (j < 2)%nat ->
      Spec.dem_clamped dem dem_shape (Qfloor px + Z.of_nat i)
                                     (Qfloor py + Z.of_nat j)
      = Some (mat22_get q i j).
Proof.
  intros Hwf Hx Hy. destruct (wf_dem_dims _ _ Hwf) as [Hw Hh].
  destruct (to_int_clamped _ _ Hw Hx) as [Hix Hbx].
  destruct (to_int_clamped _ _ Hh Hy) as [Hiy Hby].
  rewrite get_2x2_mat_table, Hix, Hiy. unfold mat22_of.
  rewrite !(load2_clamped dem dem_shape Hwf) by (assumption || lia).
  destruct (dem_clamped_Some dem dem_shape Hwf (Qfloor px + Z.of_nat 0) (Qfloor py + Z.of_nat 0))
    as [q00 H00].
  destruct (dem_clamped_Some dem dem_shape Hwf (Qfloor px + Z.of_nat 1) (Qfloor py + Z.of_nat 0))
    as [q10 H10].
  destruct (dem_clamped_Some dem dem_shape Hwf (Qfloor px + Z.of_nat 0) (Qfloor py + Z.of_nat 1))
    as [q01 H01].
  destruct (dem_clamped_Some dem dem_shape Hwf (Qfloor px + Z.of_nat 1) (Qfloor py + Z.of_nat 1))
    as [q11 H11].
  rewrite H00, H10, H01, H11. eexists. split; [reflexivity|].
  intros [|[|]] [|[|]] Hi Hj; try lia; assumption.
Qed.

(** C5. At a pixel coordinate inside the DEM, the 2x2 gather followed by the
    bilinear interpolator returns the bilinear reconstruction of the
    specification: the four neighbours (x0,y0), (x0+1,y0), (x0,y0+1),
    (x0+1,y0+1), each index clamped on its own, weighted by the fractional
    parts fx = px - floor(px) and fy = py - floor(py). *)
Theorem bilinear_sampling_correct dem dem_shape px py out :
  wf_dem dem dem_shape ->
  clamped (v2i_0 dem_shape) px -> clamped (v2i_1 dem_shape) py ->
  exists q v,
    _get_2x2_mat dem dem_shape px py out = Some q /\
    Spec.dem_clamped dem dem_shape (Qfloor px) (Qfloor py)
      = Some (mat22_get q 0 0) /\
    Spec.dem_clamped dem dem_shape (Qfloor px + 1) (Qfloor py)
      = Some (mat22_get q 1 0) /\
    Spec.dem_clamped dem dem_shape (Qfloor px) (Qfloor py + 1)
      = Some (mat22_get q 0 1) /\
    Spec.dem_clamped dem dem_shape (Qfloor px + 1) (Qfloor py + 1)
      = Some (mat22_get q 1 1) /\
    Spec.bilinear dem dem_shape px py = Some v /\
    _bilinear_interpolator px py q == v.
Proof.
  intros Hwf Hx Hy.
  destruct (get_2x2_mat_clamped dem dem_shape px py out Hwf Hx Hy)
    as (q & Hq & Htaps).
  pose proof (Htaps 0%nat 0%nat ltac:(lia) ltac:(lia)) as H00.
  pose proof (Htaps 1%nat 0%nat ltac:(lia) ltac:(lia)) as H10.
  pose proof (Htaps 0%nat 1%nat ltac:(lia) ltac:(lia)) as H01.
  pose proof (Htaps 1%nat 1%nat ltac:(lia) ltac:(lia)) as H11.
  change (Z.of_nat 0) with 0 in *. change (Z.of_nat 1) with 1 in *.
  rewrite !Z.add_0_r in *.
  exists q. eexists. repeat (split; [eassumption|]).
  unfold Spec.bilinear. rewrite H00, H10, H01, H11. split; [reflexivity|].
  unfold _bilinear_interpolator. cbv zeta.
  destruct Hx as [Hx _], Hy as [Hy _].
  rewrite !trunc_frac_floor by assumption.
  ring.
Qed.

(** ** The 4x4 gather *)

Lemma vec4_of_total (f : nat -> option Q) :
  (forall i, (i < 4)%nat -> is_Some (f i)) ->
  exists v, vec4_of f = Some v /\
            forall i, (i < 4)%nat -> f i = Some (vec4_get v i).
Proof.
  intros Hf. unfold vec4_of.
  destruct (Hf 0%nat ltac:(lia)) as [a Ha].
  destruct (Hf 1%nat ltac:(lia)) as [b Hb].
  destruct (Hf 2%nat ltac:(lia)) as [c Hc].
  destruct (Hf 3%nat ltac:(lia)) as [d Hd].
  rewrite Ha, Hb, Hc, Hd. eexists. split; [reflexivity|].
  intros [|[|[|[|]]]] Hi; try lia; assumption.
Qed.

Lemma mat44_of_total (f : nat -> nat -> option Q) :
  (forall i j, (i < 4)%nat -> (j < 4)%nat -> is_Some (f i j)) ->
  exists m, mat44_of f = Some m /\
            forall i j, (i < 4)%nat -> (j < 4)%nat ->
                        f i j = Some (mat44_get m i j).
Proof.
  intros Hf. unfold mat44_of.
  destruct (vec4_of_total (fun i => f i 0%nat)) as (c0 & -> & H0);
    [intros; apply Hf; lia|].
  destruct (vec4_of_total (fun i => f i 1%nat)) as (c1 & -> & H1);
    [intros; apply Hf; lia|].
  destruct (vec4_of_total (fun i => f i 2%nat)) as (c2 & -> & H2);
    [intros; apply Hf; lia|].
  destruct (vec4_of_total (fun i => f i 3%nat)) as (c3 & -> & H3);
    [intros; apply Hf; lia|].
  eexists. split; [reflexivity|].
  intros i j Hi Hj.
  destruct j as [|[|[|[|]]]]; try lia;
    [rewrite (H0 i Hi) | rewrite (H1 i Hi) | rewrite (H2 i Hi)
     | rewrite (H3 i Hi)];
    destruct i as [|[|[|[|]]]]; try lia; reflexivity.
Qed.

Section Indexing4.

Variables (dem : list Q) (dem_shape : vec2i).
Hypothesis Hwf : wf_dem dem dem_shape.

Let w := v2i_0 dem_shape.
Let h := v2i_1 dem_shape.

Lemma node4_bounds n i0 k : 0 < n -> 0 <= i0 <= n - 1 -> 0 <= node4 n i0 k < n.
Proof. unfold node4. lia. Qed.

(** The taps of [_get_4x4_mat], with enough headroom for [x0 + 3] and
    [y0 + 3] not to wrap around. *)
Lemma load4_nodes ix iy i j :
  0 <= ix <= w - 1 -> 0 <= iy <= h - 1 ->
  ix + 2 <= Int32.max_signed -> iy + 2 <= Int32.max_signed ->
  (i < 4)%nat -> (j < 4)%nat ->
  Int32.add (row4 dem_shape ix i) (col4 dem_shape iy j)
    = node4 w ix i * h + node4 h iy j /\
  0 <= node4 w ix i * h + node4 h iy j < w * h /\
  load dem (Int32.add (row4 dem_shape ix i) (col4 dem_shape iy j)) =
  Spec.dem_at dem dem_shape (node4 w ix i) (node4 h iy j) /\
  is_Some (Spec.dem_at dem dem_shape (node4 w ix i) (node4 h iy j)).
Proof.
  intros Hx Hy Hxm Hym Hi Hj.
  pose proof Hwf as (Hw & Hh & Hlen & Hmax). fold w h in Hw, Hh, Hlen, Hmax.
  assert (Hwm : w <= Int32.max_signed /\ h <= Int32.max_signed) by nia.
  unfold Int32.max_signed in Hwm, Hmax, Hxm, Hym.
  assert (Hs : forall a, 0 <= a <= 2 ^ 31 - 1 -> Int32.sub a 1 = a - 1).
  { intros a Ha. apply int32_sub_small.
    unfold Int32.min_signed, Int32.max_signed. lia. }
  assert (Ha : forall a k, 0 <= a -> 0 <= k -> a + k <= 2 ^ 31 - 1 ->
                           Int32.add a k = a + k).
  { intros a k H0 H1 H2. apply int32_add_small.
    unfold Int32.min_signed, Int32.max_signed. lia. }
  assert (Hr : row4 dem_shape ix i = Int32.mul (node4 w ix i) h).
  { unfold row4, node4. fold w h. rewrite !Hs by lia.
    destruct i as [|i']; [f_equal; lia|].
    rewrite Ha by lia. reflexivity. }
  assert (Hc : col4 dem_shape iy j = node4 h iy j).
  { unfold col4, node4. fold w h. rewrite !Hs by lia.
    destruct j as [|j']; [lia|].
    rewrite Ha by lia. reflexivity. }
  pose proof (node4_bounds w ix i Hw Hx) as Hnr.
  pose proof (node4_bounds h iy j Hh Hy) as Hnc.
  destruct (flat_index_bounds dem dem_shape Hwf _ _ Hnr Hnc) as (H0 & Hlt & _).
  destruct (dem_at_in_range dem dem_shape Hwf _ _ Hnr Hnc) as (v & Hv & Hl).
  fold w h in H0, Hlt, Hl.
  rewrite Hr, Hc. rewrite Hl, Hv. fold h.
  rewrite int32_mul_small, int32_add_small
    by (unfold Int32.min_signed, Int32.max_signed; lia).
  repeat split; try lia. eexists; reflexivity.
Qed.

Lemma get_4x4_mat_nodes x y out :
  clamped w x -> clamped h y ->
  Float.trunc_Z x + 2 <= Int32.max_signed ->
  Float.trunc_Z y + 2 <= Int32.max_signed ->
  exists q,
    _get_4x4_mat dem dem_shape x y out = Some q /\
    forall i j, (i < 4)%nat -> (j < 4)%nat ->
      Spec.dem_at dem dem_shape (node4 w (Qfloor x) i) (node4 h (Qfloor y) j)
      = Some (mat44_get q i j).
Proof.
  intros Hx Hy Hxm Hym. destruct (wf_dem_dims _ _ Hwf) as [Hw Hh].
  destruct (to_int_clamped _ _ Hw Hx) as [Hix Hbx].
  destruct (to_int_clamped _ _ Hh Hy) as [Hiy Hby].
  rewrite (trunc_Z_floor x (proj1 Hx)) in Hxm.
  rewrite (trunc_Z_floor y (proj1 Hy)) in Hym.
  rewrite get_4x4_mat_table, Hix, Hiy.
  destruct (mat44_of_total
              (fun i j => load dem (Int32.add (row4 dem_shape (Qfloor x) i)
                                              (col4 dem_shape (Qfloor y) j))))
    as (m & Hm & Hget).
  { intros i j Hi Hj.
    destruct (load4_nodes (Qfloor x) (Qfloor y) i j) as (_ & _ & -> & Hs);
      assumption. }
  exists m. split; [exact Hm|]. intros i j Hi Hj.
  rewrite <- (Hget i j Hi Hj).
  destruct (load4_nodes (Qfloor x) (Qfloor y) i j) as (_ & _ & -> & _);
    try assumption. reflexivity.
Qed.

End Indexing4.

(** C10. For coordinates inside the DEM (0 <= x <= width-1 and
    0 <= y <= height-1, both 32-bit floats) and a DEM array of
    width*height samples, every flat index that [_get_2x2_mat] and
    [_get_4x4_mat] form and dereference lies in [0, width*height), and both
    gathers return a patch without fault. *)
Theorem gather_indices_in_bounds dem dem_shape x y out2 out4 :
  wf_dem dem dem_shape ->
  Float.binary32 x -> Float.binary32 y ->
  clamped (v2i_0 dem_shape) x -> clamped (v2i_1 dem_shape) y ->
  let size := v2i_0 dem_shape * v2i_1 dem_shape in
  let x0 := Float.trunc_Z x in
  let y0 := Float.trunc_Z y in
  (forall i j, (i < 2)%nat -> (j < 2)%nat ->
     0 <= Int32.add (row2 dem_shape x0 i) (col2 dem_shape y0 j) < size) /\
  (forall i j, (i < 4)%nat -> (j < 4)%nat ->
     0 <= Int32.add (row4 dem_shape x0 i) (col4 dem_shape y0 j) < size) /\
  (exists q, _get_2x2_mat dem dem_shape x y out2 = Some q) /\
  (exists q, _get_4x4_mat dem dem_shape x y out4 = Some q).
Proof.
  intros Hwf Bx By Hx Hy size x0 y0.
  destruct (wf_dem_dims _ _ Hwf) as [Hw Hh].
  destruct (to_int_clamped _ _ Hw Hx) as [_ Hbx].
  destruct (to_int_clamped _ _ Hh Hy) as [_ Hby].
  assert (Hx0 : x0 = Qfloor x) by (apply trunc_Z_floor, Hx).
  assert (Hy0 : y0 = Qfloor y) by (apply trunc_Z_floor, Hy).
  assert (Hxm : x0 + 2 <= Int32.max_signed).
  { pose proof (binary32_headroom x _ Bx (proj1 Hx) (proj2 Hx)) as Hr.
    unfold Int32.max_signed in *. subst x0. lia. }
  assert (Hym : y0 + 2 <= Int32.max_signed).
  { pose proof (binary32_headroom y _ By (proj1 Hy) (proj2 Hy)) as Hr.
    unfold Int32.max_signed in *. subst y0. lia. }
  rewrite Hx0, Hy0 in *.
  pose proof Hwf as (Hwp & Hhp & _ & _).
  repeat split.
  - rewrite (index2_clamped dem dem_shape Hwf) by (assumption || lia).
    destruct (flat_index_small dem dem_shape Hwf
                (Spec.clamp 0 (v2i_0 dem_shape - 1) (Qfloor x + Z.of_nat i))
                (Spec.clamp 0 (v2i_1 dem_shape - 1) (Qfloor y + Z.of_nat j)))
      as [-> Hb]; [now apply clamp_bounds..|]. lia.
  - rewrite (index2_clamped dem dem_shape Hwf) by (assumption || lia).
    destruct (flat_index_small dem dem_shape Hwf
                (Spec.clamp 0 (v2i_0 dem_shape - 1) (Qfloor x + Z.of_nat i))
                (Spec.clamp 0 (v2i_1 dem_shape - 1) (Qfloor y + Z.of_nat j)))
      as [-> Hb]; [now apply clamp_bounds..|]. subst size. lia.
  - destruct (load4_nodes dem dem_shape Hwf (Qfloor x) (Qfloor y) i j)
      as (-> & Hb & _); try assumption. lia.
  - destruct (load4_nodes dem dem_shape Hwf (Qfloor x) (Qfloor y) i j)
      as (-> & Hb & _); try assumption. subst size. lia.
  - destruct (get_2x2_mat_clamped dem dem_shape x y out2 Hwf Hx Hy)
      as (q & Hq & _). eauto.
  - destruct (get_4x4_mat_nodes dem dem_shape Hwf x y out4 Hx Hy)
      as (q & Hq & _); [rewrite trunc_Z_floor by apply Hx; assumption
                       |rewrite trunc_Z_floor by apply Hy; assumption|].
    eauto.
Qed.

(** ** What one thread of each kernel does *)

Ltac inv_store :=
  repeat match goal with
         | H : store _ _ _ = Some _ |- _ =>
             apply store_inv in H; destruct H as [? ?]; subst
         end.

Lemma store_None {A : Type} (a : list A) (tid : nat) (v : A) :
  (length a <= tid)%nat -> store a tid v = None.
Proof.
  intros Ht. unfold store. destruct (Nat.ltb_spec tid (length a)); [lia|done].
Qed.

Lemma atomic_min_run a tid v old :
  a !! tid = Some old ->
  atomic_min a tid v = Some (old, <[tid := Qmin old v]> a).
Proof.
  intros Ha. unfold atomic_min. rewrite Ha.
  rewrite store_Some by (eapply lookup_lt_Some; eassumption). reflexivity.
Qed.

Lemma atomic_max_run a tid v old :
  a !! tid = Some old ->
  atomic_max a tid v = Some (old, <[tid := Qmax old v]> a).
Proof.
  intros Ha. unfold atomic_max. rewrite Ha.
  rewrite store_Some by (eapply lookup_lt_Some; eassumption). reflexivity.
Qed.

(** A thread of [_preprocess] leaves the unclamped pixel coordinates in
    [x[tid]] and [y[tid]]: each [atomic_min]/[atomic_max] does clamp the
    entry, but the assignment of its result writes the old entry back. *)
Lemma preprocess_run tid x y points coord mpp dem_shape p :
  points !! tid = Some p ->
  (tid < length x)%nat -> (tid < length y)%nat ->
  _preprocess tid x y points coord mpp dem_shape =
  Some (<[tid := pixel (v2f_0 p) mpp (v2f_0 coord)]> x,
        <[tid := pixel (v2f_1 p) mpp (v2f_1 coord)]> y).
Proof.
  intros Hp Hx Hy. unfold _preprocess, pixel. rewrite Hp.
  rewrite !store_Some by assumption.
  repeat
    (first [ erewrite atomic_min_run
               by (apply list_lookup_insert_eq; rewrite ?length_insert; lia)
           | erewrite atomic_max_run
               by (apply list_lookup_insert_eq; rewrite ?length_insert; lia)
           | rewrite store_Some by (rewrite ?length_insert; lia) ];
     rewrite ?list_insert_insert_eq).
  reflexivity.
Qed.

Lemma preprocess_inv tid x y points coord mpp dem_shape x' y' :
  _preprocess tid x y points coord mpp dem_shape = Some (x', y') ->
  exists p,
    points !! tid = Some p /\ (tid < length x)%nat /\ (tid < length y)%nat /\
    x' = <[tid := pixel (v2f_0 p) mpp (v2f_0 coord)]> x /\
    y' = <[tid := pixel (v2f_1 p) mpp (v2f_1 coord)]> y.
Proof.
  intros H. destruct (points !! tid) as [p|] eqn:Hp;
    [|unfold _preprocess in H; rewrite Hp in H; discriminate].
  destruct (Nat.lt_ge_cases tid (length x)) as [Hx|Hx];
    [|unfold _preprocess in H; rewrite Hp, store_None in H by assumption;
      discriminate].
  destruct (Nat.lt_ge_cases tid (length y)) as [Hy|Hy];
    [|unfold _preprocess in H;
      rewrite Hp, store_Some, store_None in H by assumption; discriminate].
  rewrite (preprocess_run _ _ _ _ _ _ _ p Hp Hx Hy) in H.
  injection H as <- <-. exists p. done.
Qed.

Lemma get_values_2x2_inv tid dem dem_shape x y out out' :
  _get_values_wp_2x2 tid dem dem_shape x y out = Some out' ->
  exists xt yt ot m,
    x !! tid = Some xt /\ y !! tid = Some yt /\ out !! tid = Some ot /\
    _get_2x2_mat dem dem_shape xt yt ot = Some m /\ out' = <[tid := m]> out.
Proof.
  unfold _get_values_wp_2x2. intros H.
  destruct (x !! tid) as [xt|]; [|discriminate].
  destruct (y !! tid) as [yt|]; [|discriminate].
  destruct (out !! tid) as [ot|]; [|discriminate].
  destruct (_get_2x2_mat dem dem_shape xt yt ot) as [m|] eqn:Hm; [|discriminate].
  inv_store. exists xt, yt, ot, m. done.
Qed.

Lemma get_values_4x4_inv tid dem dem_shape x y out out' :
  _get_values_wp_4x4 tid dem dem_shape x y out = Some out' ->
  exists xt yt ot m,
    x !! tid = Some xt /\ y !! tid = Some yt /\ out !! tid = Some ot /\
    _get_4x4_mat dem dem_shape xt yt ot = Some m /\ out' = <[tid := m]> out.
Proof.
  unfold _get_values_wp_4x4. intros H.
  destruct (x !! tid) as [xt|]; [|discriminate].
  destruct (y !! tid) as [yt|]; [|discriminate].
  destruct (out !! tid) as [ot|]; [|discriminate].
  destruct (_get_4x4_mat dem dem_shape xt yt ot) as [m|] eqn:Hm; [|discriminate].
  inv_store. exists xt, yt, ot, m. done.
Qed.

(** The patch a gather returns does not depend on the patch it overwrites. *)
Lemma get_2x2_mat_out dem dem_shape x y out out' :
  _get_2x2_mat dem dem_shape x y out = _get_2x2_mat dem dem_shape x y out'.
Proof. now rewrite !get_2x2_mat_table. Qed.

Lemma get_4x4_mat_out dem dem_shape x y out out' :
  _get_4x4_mat dem dem_shape x y out = _get_4x4_mat dem dem_shape x y out'.
Proof. now rewrite !get_4x4_mat_table. Qed.

Lemma bilinear_inv tid x y q out out' :
  _bilinear_interpolation tid x y q out = Some out' ->
  exists xt yt qt,
    x !! tid = Some xt /\ y !! tid = Some yt /\ q !! tid = Some qt /\
    (tid < length out)%nat /\
    out' = <[tid := _bilinear_interpolator xt yt qt]> out.
Proof.
  unfold _bilinear_interpolation. intros H.
  destruct (x !! tid) as [xt|]; [|discriminate].
  destruct (y !! tid) as [yt|]; [|discriminate].
  destruct (q !! tid) as [qt|]; [|discriminate].
  inv_store. repeat eexists; eauto.
Qed.

Lemma cubic_interpolator_weights x c : _cubic_interpolator x c = cubic_weights x.
Proof. reflexivity. Qed.

Lemma bicubic_run tid x y q coeffs out xt yt qt :
  x !! tid = Some xt -> y !! tid = Some yt -> q !! tid = Some qt ->
  (tid < length coeffs)%nat -> (tid < length out)%nat ->
  _bicubic_interpolation tid x y q coeffs out =
  Some (<[tid := cubic_weights yt]> coeffs,
        <[tid := bicubic_value xt yt qt]> out).
Proof.
  intros Hx Hy Hq Hc Ho. unfold _bicubic_interpolation.
  destruct (lookup_lt_is_Some_2 coeffs tid Hc) as [ct Hct].
  rewrite Hx, Hct, store_Some, Hq, list_lookup_insert_eq, Hy by assumption.
  rewrite store_Some by (rewrite ?length_insert; lia).
  rewrite list_lookup_insert_eq by (rewrite ?length_insert; lia).
  rewrite store_Some by assumption.
  rewrite list_insert_insert_eq. reflexivity.
Qed.

Lemma bicubic_inv tid x y q coeffs out coeffs' out' :
  _bicubic_interpolation tid x y q coeffs out = Some (coeffs', out') ->
  exists xt yt qt,
    x !! tid = Some xt /\ y !! tid = Some yt /\ q !! tid = Some qt /\
    (tid < length coeffs)%nat /\ (tid < length out)%nat /\
    coeffs' = <[tid := cubic_weights yt]> coeffs /\
    out' = <[tid := bicubic_value xt yt qt]> out.
Proof.
  intros H.
  destruct (x !! tid) as [xt|] eqn:Hx;
    [|unfold _bicubic_interpolation in H; rewrite Hx in H; discriminate].
  destruct (coeffs !! tid) as [ct|] eqn:Hct;
    [|unfold _bicubic_interpolation in H; rewrite Hx, Hct in H; discriminate].
  pose proof (lookup_lt_Some _ _ _ Hct) as Hc.
  destruct (q !! tid) as [qt|] eqn:Hq;
    [|unfold _bicubic_interpolation in H;
      rewrite Hx, Hct, store_Some, Hq in H by assumption; discriminate].
  destruct (y !! tid) as [yt|] eqn:Hy;
    [|unfold _bicubic_interpolation in H;
      rewrite Hx, Hct, store_Some, Hq, list_lookup_insert_eq, Hy in H
        by assumption; discriminate].
  destruct (Nat.lt_ge_cases tid (length out)) as [Ho|Ho].
  - rewrite (bicubic_run _ _ _ _ _ _ xt yt qt Hx Hy Hq Hc Ho) in H.
    injection H as <- <-. exists xt, yt, qt. done.
  - unfold _bicubic_interpolation in H.
    rewrite Hx, Hct, store_Some, Hq, list_lookup_insert_eq, Hy in H
      by assumption.
    rewrite store_Some in H by (rewrite ?length_insert; lia).
    rewrite list_lookup_insert_eq in H by (rewrite ?length_insert; lia).
    rewrite store_None in H by assumption.
    discriminate.
Qed.

Lemma normal_inv tid q grid_size normal normal' :
  _4points_normal tid q grid_size normal = Some normal' ->
  exists qt v,
    q !! tid = Some qt /\ _normal_on_grid qt grid_size = Some v /\
    (tid < length normal)%nat /\ normal' = <[tid := v]> normal.
Proof.
  unfold _4points_normal. intros H.
  destruct (q !! tid) as [qt|]; [|discriminate].
  destruct (_normal_on_grid qt grid_size) as [v|] eqn:Hv; [|discriminate].
  inv_store. repeat eexists; eauto.
Qed.

(** ** Launches of thread-local kernels *)

Section Pointwise.

Context {S W : Type}.
Variables (outp : S -> nat -> W) (body : nat -> S -> option S).
Variables (pre : nat -> Prop) (v : nat -> W).

(** Thread [t] needs [pre t], writes [v t] in its own slot and leaves the
    slots of the other threads as they are. *)
Hypothesis Hbody : forall t s s',
  body t s = Some s' ->
  pre t /\ outp s' t = v t /\ forall j, j <> t -> outp s' j = outp s j.

Lemma run_threads_pointwise tids : forall s s',
  run_threads body tids s = Some s' ->
  (forall i, i ∈ tids -> pre i /\ outp s' i = v i) /\
  (forall j, j ∉ tids -> outp s' j = outp s j).
Proof.
  induction tids as [|t ts IH]; intros s s' Hrun; simpl in Hrun.
  - injection Hrun as <-. split; [intros i Hi; inversion Hi | done].
  - destruct (body t s) as [s1|] eqn:Ht; [|discriminate].
    destruct (Hbody _ _ _ Ht) as (Hpre & Hv & Hframe).
    destruct (IH _ _ Hrun) as [Hin Hout]. split.
    + intros i Hi. destruct (decide (i ∈ ts)) as [Hts|Hts]; [auto|].
      apply elem_of_cons in Hi as [->|Hi]; [|contradiction].
      split; [assumption|]. rewrite (Hout t Hts). assumption.
    + intros j Hj. apply not_elem_of_cons in Hj as [Hne Hj].
      rewrite (Hout j Hj). auto.
Qed.

Lemma launch_pointwise n s s' i :
  launch n body s = Some s' -> (i < n)%nat -> pre i /\ outp s' i = v i.
Proof.
  intros Hrun Hi. apply (run_threads_pointwise _ _ _ Hrun).
  apply elem_of_seq. lia.
Qed.

Lemma launch_untouched n s s' j :
  launch n body s = Some s' -> (n <= j)%nat -> outp s' j = outp s j.
Proof.
  intros Hrun Hj. apply (run_threads_pointwise _ _ _ Hrun).
  rewrite elem_of_seq. lia.
Qed.

(** The order in which the threads run does not matter. *)
Lemma run_threads_schedule tids1 tids2 s s1 s2 :
  tids1 ≡ₚ tids2 ->
  run_threads body tids1 s = Some s1 -> run_threads body tids2 s = Some s2 ->
  forall i, outp s1 i = outp s2 i.
Proof.
  intros Hperm H1 H2 i.
  destruct (run_threads_pointwise _ _ _ H1) as [Hin1 Hout1].
  destruct (run_threads_pointwise _ _ _ H2) as [Hin2 Hout2].
  destruct (decide (i ∈ tids1)) as [Hi|Hi].
  - destruct (Hin1 i Hi) as [_ ->].
    destruct (Hin2 i) as [_ ->]; [now rewrite <- Hperm | reflexivity].
  - rewrite (Hout1 i Hi), (Hout2 i); [reflexivity | now rewrite <- Hperm].
Qed.

End Pointwise.

(** An invariant of every thread is an invariant of the launch. *)
Lemma launch_invariant {S : Type} (P : S -> Prop) (body : nat -> S -> option S) :
  (forall t s s', body t s = Some s' -> P s -> P s') ->
  forall n s s', launch n body s = Some s' -> P s -> P s'.
Proof.
  intros Hbody n. unfold launch. generalize (seq 0 n) as tids.
  induction tids as [|t ts IH]; intros s s' Hrun Hs; simpl in Hrun.
  - now injection Hrun as <-.
  - destruct (body t s) as [s1|] eqn:Ht; [|discriminate]. eauto.
Qed.

(** A kernel whose thread [t] writes [f t] at index [t] of one array. *)
Lemma launch_array {A : Type} (body : nat -> list A -> option (list A))
    (f : nat -> option A) :
  (forall t a a', body t a = Some a' ->
     exists m, f t = Some m /\ (t < length a)%nat /\ a' = <[t := m]> a) ->
  forall n a a' i,
    launch n body a = Some a' -> (i < n)%nat ->
    exists m, f i = Some m /\ a' !! i = Some m.
Proof.
  intros Hbody n a a' i Hrun Hi.
  destruct (launch_pointwise slot1 body (fun t => is_Some (f t)) f)
    with (n := n) (s := a) (s' := a') (i := i) as [[m Hm] Hv];
    try assumption.
  - intros t s s' Ht. destruct (Hbody _ _ _ Ht) as (m & Hm & Hlen & ->).
    split; [eauto|]. unfold slot1. split.
    + rewrite Hm. now apply list_lookup_insert_eq.
    + intros j Hj. now apply list_lookup_insert_ne.
  - exists m. split; [assumption|]. unfold slot1 in Hv. congruence.
Qed.

(** *** [_preprocess] *)

Lemma launch_preprocess_slot n points coord mpp dem_shape xy x' y' i :
  launch_preprocess n points coord mpp dem_shape xy = Some (x', y') ->
  (i < n)%nat ->
  exists p, points !! i = Some p /\
            x' !! i = Some (pixel (v2f_0 p) mpp (v2f_0 coord)) /\
            y' !! i = Some (pixel (v2f_1 p) mpp (v2f_1 coord)).
Proof.
  intros Hrun Hi. unfold launch_preprocess in Hrun.
  pose (v := fun i : nat =>
               ((fun p => pixel (v2f_0 p) mpp (v2f_0 coord)) <$> points !! i,
                (fun p => pixel (v2f_1 p) mpp (v2f_1 coord)) <$> points !! i)).
  assert (Hbody : forall t s s',
             (fun tid '(x, y) =>
                _preprocess tid x y points coord mpp dem_shape) t s = Some s' ->
             is_Some (points !! t) /\ slot2 s' t = v t /\
             forall j, j <> t -> slot2 s' j = slot2 s j).
  { intros t [x y] [x1 y1] Ht.
    apply preprocess_inv in Ht as (p & Hp & Hx & Hy & -> & ->).
    split; [eauto|]. unfold slot2, v. simpl. split.
    - rewrite Hp, !list_lookup_insert_eq by assumption. reflexivity.
    - intros j Hj. rewrite !list_lookup_insert_ne by auto. reflexivity. }
  destruct (launch_pointwise _ _ _ _ Hbody _ _ _ i Hrun Hi) as [[p Hp] Hv].
  exists p. unfold slot2, v in Hv. simpl in Hv. rewrite Hp in Hv.
    injection Hv as -> ->. done.
Qed.

(** *** The gathers *)

Lemma launch_get_values_2x2_slot n dem dem_shape x y out out' i :
  launch_get_values_2x2 n dem dem_shape x y out = Some out' -> (i < n)%nat ->
  exists m, point_get_2x2 dem dem_shape x y i = Some m /\ out' !! i = Some m.
Proof.
  apply launch_array. intros t a a' Ht.
  apply get_values_2x2_inv in Ht as (xt & yt & ot & m & Hx & Hy & Ho & Hm & ->).
  exists m. unfold point_get_2x2. rewrite Hx, Hy.
  rewrite (get_2x2_mat_out _ _ _ _ zero22 ot).
  split; [assumption|]. split; [|reflexivity].
  eapply lookup_lt_Some; eassumption.
Qed.

Lemma launch_get_values_4x4_slot n dem dem_shape x y out out' i :
  launch_get_values_4x4 n dem dem_shape x y out = Some out' -> (i < n)%nat ->
  exists m, point_get_4x4 dem dem_shape x y i = Some m /\ out' !! i = Some m.
Proof.
  apply launch_array. intros t a a' Ht.
  apply get_values_4x4_inv in Ht as (xt & yt & ot & m & Hx & Hy & Ho & Hm & ->).
  exists m. unfold point_get_4x4. rewrite Hx, Hy.
  rewrite (get_4x4_mat_out _ _ _ _ zero44 ot).
  split; [assumption|]. split; [|reflexivity].
  eapply lookup_lt_Some; eassumption.
Qed.

(** *** The interpolations and the normals *)

Lemma launch_bilinear_slot n x y q out out' i :
  launch_bilinear n x y q out = Some out' -> (i < n)%nat ->
  exists m, point_bilinear x y q i = Some m /\ out' !! i = Some m.
Proof.
  apply launch_array. intros t a a' Ht.
  apply bilinear_inv in Ht as (xt & yt & qt & Hx & Hy & Hq & Hlen & ->).
  eexists. unfold point_bilinear. rewrite Hx, Hy, Hq. done.
Qed.

Lemma launch_normal_slot n q grid_size normal normal' i :
  launch_normal n q grid_size normal = Some normal' -> (i < n)%nat ->
  exists m, point_normal q grid_size i = Some m /\ normal' !! i = Some m.
Proof.
  apply launch_array. intros t a a' Ht.
  apply normal_inv in Ht as (qt & v & Hq & Hv & Hlen & ->).
  exists v. unfold point_normal. rewrite Hq. done.
Qed.

Lemma launch_bicubic_slot n x y q co coeffs' out' i :
  launch_bicubic n x y q co = Some (coeffs', out') -> (i < n)%nat ->
  exists m yt, point_bicubic x y q i = Some m /\ out' !! i = Some m /\
               y !! i = Some yt /\ coeffs' !! i = Some (cubic_weights yt).
Proof.
  intros Hrun Hi. unfold launch_bicubic in Hrun.
  pose (v := fun i : nat => (cubic_weights <$> y !! i, point_bicubic x y q i)).
  assert (Hbody : forall t s s',
             (fun tid '(coeffs, out) =>
                _bicubic_interpolation tid x y q coeffs out) t s = Some s' ->
             (is_Some (y !! t) /\ is_Some (point_bicubic x y q t)) /\
             slot2 s' t = v t /\
             forall j, j <> t -> slot2 s' j = slot2 s j).
  { intros t [c o] [c1 o1] Ht.
    apply bicubic_inv in Ht as (xt & yt & qt & Hx & Hy & Hq & Hc & Ho & -> & ->).
    unfold slot2, v, point_bicubic. simpl. rewrite Hx, Hy, Hq. simpl.
    split; [eauto|]. split.
    - rewrite !list_lookup_insert_eq by assumption. reflexivity.
    - intros j Hj. rewrite !list_lookup_insert_ne by auto. reflexivity. }
  destruct (launch_pointwise _ _ _ _ Hbody _ _ _ i Hrun Hi)
    as [[[yt Hy] [m Hm]] Hv].
  exists m, yt. unfold slot2, v in Hv. simpl in Hv. rewrite Hy, Hm in Hv.
  injection Hv as -> ->. done.
Qed.

(** ** Any schedule of the threads gives the same buffers *)

Lemma array_schedule {A : Type} (body : nat -> list A -> option (list A))
    (f : nat -> option A) :
  (forall t a a', body t a = Some a' ->
     exists m, f t = Some m /\ (t < length a)%nat /\ a' = <[t := m]> a) ->
  forall tids1 tids2 a a1 a2,
    tids1 ≡ₚ tids2 ->
    run_threads body tids1 a = Some a1 -> run_threads body tids2 a = Some a2 ->
    a1 = a2.
Proof.
  intros Hbody tids1 tids2 a a1 a2 Hperm H1 H2. apply list_eq. intros i.
  apply (run_threads_schedule slot1 body (fun _ => True) f)
    with (tids1 := tids1) (tids2 := tids2) (s := a); try assumption.
  intros t s s' Ht. destruct (Hbody _ _ _ Ht) as (m & Hm & Hlen & ->).
  split; [exact I|]. unfold slot1. split.
  - rewrite Hm. now apply list_lookup_insert_eq.
  - intros j Hj. now apply list_lookup_insert_ne.
Qed.

(** X17. Whatever the order in which the threads of a launch are run, each of
    the six kernels leaves the same buffers. *)
Lemma kernels_schedule_independent tids1 tids2 :
  tids1 ≡ₚ tids2 ->
  (forall points coord mpp dem_shape xy r1 r2,
     let body := fun tid '(x, y) =>
                   _preprocess tid x y points coord mpp dem_shape in
     run_threads body tids1 xy = Some r1 ->
     run_threads body tids2 xy = Some r2 -> r1 = r2) /\
  (forall dem dem_shape x y (out r1 r2 : list mat22f),
     let body := fun tid out => _get_values_wp_2x2 tid dem dem_shape x y out in
     run_threads body tids1 out = Some r1 ->
     run_threads body tids2 out = Some r2 -> r1 = r2) /\
  (forall dem dem_shape x y (out r1 r2 : list mat44f),
     let body := fun tid out => _get_values_wp_4x4 tid dem dem_shape x y out in
     run_threads body tids1 out = Some r1 ->
     run_threads body tids2 out = Some r2 -> r1 = r2) /\
  (forall x y q (out r1 r2 : list Q),
     let body := fun tid out => _bilinear_interpolation tid x y q out in
     run_threads body tids1 out = Some r1 ->
     run_threads body tids2 out = Some r2 -> r1 = r2) /\
  (forall x y q co r1 r2,
     let body := fun tid '(coeffs, out) =>
                   _bicubic_interpolation tid x y q coeffs out in
     run_threads body tids1 co = Some r1 ->
     run_threads body tids2 co = Some r2 -> r1 = r2) /\
  (forall q grid_size (normal r1 r2 : list vec3f),
     let body := fun tid normal => _4points_normal tid q grid_size normal in
     run_threads body tids1 normal = Some r1 ->
     run_threads body tids2 normal = Some r2 -> r1 = r2).
Proof.
  intros Hperm. repeat apply conj.
  - intros points coord mpp dem_shape xy [x1 y1] [x2 y2] body H1 H2.
    pose (v := fun i : nat =>
                 ((fun p => pixel (v2f_0 p) mpp (v2f_0 coord)) <$> points !! i,
                  (fun p => pixel (v2f_1 p) mpp (v2f_1 coord)) <$> points !! i)).
    assert (Hslots : forall i, slot2 (x1, y1) i = slot2 (x2, y2) i).
    { apply (run_threads_schedule (@slot2 Q Q) body (fun _ => True) v)
        with (tids1 := tids1) (tids2 := tids2) (s := xy); try assumption.
      intros t [x y] [x' y'] Ht.
      apply preprocess_inv in Ht as (p & Hp & Hx & Hy & -> & ->).
      split; [exact I|]. unfold slot2, v. simpl. split.
      - rewrite Hp, !list_lookup_insert_eq by assumption. reflexivity.
      - intros j Hj. rewrite !list_lookup_insert_ne by auto. reflexivity. }
    f_equal; apply list_eq; intros i; specialize (Hslots i);
      unfold slot2 in Hslots; simpl in Hslots; congruence.
  - intros dem dem_shape x y out r1 r2 body.
    apply (array_schedule body (point_get_2x2 dem dem_shape x y));
      [|assumption].
    intros t a a' Ht.
    apply get_values_2x2_inv in Ht
        as (xt & yt & ot & m & Hx & Hy & Ho & Hm & ->).
    exists m. unfold point_get_2x2. rewrite Hx, Hy.
    rewrite (get_2x2_mat_out _ _ _ _ zero22 ot).
    split; [assumption|]. split; [|reflexivity].
    eapply lookup_lt_Some; eassumption.
  - intros dem dem_shape x y out r1 r2 body.
    apply (array_schedule body (point_get_4x4 dem dem_shape x y));
      [|assumption].
    intros t a a' Ht.
    apply get_values_4x4_inv in Ht
        as (xt & yt & ot & m & Hx & Hy & Ho & Hm & ->).
    exists m. unfold point_get_4x4. rewrite Hx, Hy.
    rewrite (get_4x4_mat_out _ _ _ _ zero44 ot).
    split; [assumption|]. split; [|reflexivity].
    eapply lookup_lt_Some; eassumption.
  - intros x y q out r1 r2 body.
    apply (array_schedule body (point_bilinear x y q)); [|assumption].
    intros t a a' Ht.
    apply bilinear_inv in Ht as (xt & yt & qt & Hx & Hy & Hq & Hlen & ->).
    eexists. unfold point_bilinear. rewrite Hx, Hy, Hq. done.
  - intros x y q co [c1 o1] [c2 o2] body H1 H2.
    pose (v := fun i : nat => (cubic_weights <$> y !! i, point_bicubic x y q i)).
    assert (Hslots : forall i, slot2 (c1, o1) i = slot2 (c2, o2) i).
    { apply (run_threads_schedule (@slot2 vec4f Q) body (fun _ => True) v)
        with (tids1 := tids1) (tids2 := tids2) (s := co); try assumption.
      intros t [c o] [c' o'] Ht.
      apply bicubic_inv in Ht
          as (xt & yt & qt & Hx & Hy & Hq & Hc & Ho & -> & ->).
      unfold slot2, v, point_bicubic. simpl. rewrite Hx, Hy, Hq. simpl.
      split; [exact I|]. split.
      - rewrite !list_lookup_insert_eq by assumption. reflexivity.
      - intros j Hj. rewrite !list_lookup_insert_ne by auto. reflexivity. }
    f_equal; apply list_eq; intros i; specialize (Hslots i);
      unfold slot2 in Hslots; simpl in Hslots; congruence.
  - intros q grid_size normal r1 r2 body.
    apply (array_schedule body (point_normal q grid_size)); [|assumption].
    intros t a a' Ht.
    apply normal_inv in Ht as (qt & v & Hq & Hv & Hlen & ->).
    exists v. unfold point_normal. rewrite Hq. done.
Qed.

(** ** The pipelines, point by point *)

Lemma sample_bilinear_slot dem dem_shape coord mpp points out i p :
  sample_bilinear dem dem_shape coord mpp points = Some out ->
  points !! i = Some p ->
  out !! i = point_sample_bilinear dem dem_shape coord mpp p /\
  is_Some (out !! i).
Proof.
  unfold sample_bilinear. intros Hrun Hp.
  pose proof (lookup_lt_Some _ _ _ Hp) as Hi.
  destruct (launch_preprocess _ _ _ _ _ _) as [[x y]|] eqn:H1; [|discriminate].
  destruct (launch_get_values_2x2 _ _ _ _ _ _) as [q|] eqn:H2; [|discriminate].
  destruct (launch_preprocess_slot _ _ _ _ _ _ _ _ i H1 Hi)
    as (p' & Hp' & Hx & Hy).
  destruct (launch_get_values_2x2_slot _ _ _ _ _ _ _ i H2 Hi) as (m & Hm & Hq).
  destruct (launch_bilinear_slot _ _ _ _ _ _ i Hrun Hi) as (v & Hv & Ho).
  assert (p' = p) as -> by congruence.
  unfold point_get_2x2 in Hm. rewrite Hx, Hy in Hm.
  unfold point_bilinear in Hv. rewrite Hx, Hy, Hq in Hv.
  unfold point_sample_bilinear. rewrite Hm, Ho, <- Hv. eauto.
Qed.

Lemma sample_bicubic_slot dem dem_shape coord mpp points out i p :
  sample_bicubic dem dem_shape coord mpp points = Some out ->
  points !! i = Some p ->
  out !! i = point_sample_bicubic dem dem_shape coord mpp p /\
  is_Some (out !! i).
Proof.
  unfold sample_bicubic. intros Hrun Hp.
  pose proof (lookup_lt_Some _ _ _ Hp) as Hi.
  destruct (launch_preprocess _ _ _ _ _ _) as [[x y]|] eqn:H1; [|discriminate].
  destruct (launch_get_values_4x4 _ _ _ _ _ _) as [q|] eqn:H2; [|discriminate].
  destruct (launch_bicubic _ _ _ _ _) as [[c o]|] eqn:H3; [|discriminate].
  injection Hrun as ->.
  destruct (launch_preprocess_slot _ _ _ _ _ _ _ _ i H1 Hi)
    as (p' & Hp' & Hx & Hy).
  destruct (launch_get_values_4x4_slot _ _ _ _ _ _ _ i H2 Hi) as (m & Hm & Hq).
  destruct (launch_bicubic_slot _ _ _ _ _ _ _ i H3 Hi)
    as (v & yt & Hv & Ho & _).
  assert (p' = p) as -> by congruence.
  unfold point_get_4x4 in Hm. rewrite Hx, Hy in Hm.
  unfold point_bicubic in Hv. rewrite Hx, Hy, Hq in Hv.
  unfold point_sample_bicubic. rewrite Hm, Ho, <- Hv. eauto.
Qed.

Lemma sample_bilinear_length dem dem_shape coord mpp points out :
  sample_bilinear dem dem_shape coord mpp points = Some out ->
  length out = length points.
Proof.
  unfold sample_bilinear. intros Hrun.
  destruct (launch_preprocess _ _ _ _ _ _) as [[x y]|]; [|discriminate].
  destruct (launch_get_values_2x2 _ _ _ _ _ _) as [q|]; [|discriminate].
  apply (launch_invariant (fun a : list Q => length a = length points))
    in Hrun; [assumption| |apply length_replicate].
  intros t a a' Ht Ha.
  apply bilinear_inv in Ht as (? & ? & ? & _ & _ & _ & _ & ->).
  now rewrite length_insert.
Qed.

Lemma sample_bicubic_length dem dem_shape coord mpp points out :
  sample_bicubic dem dem_shape coord mpp points = Some out ->
  length out = length points.
Proof.
  unfold sample_bicubic. intros Hrun.
  destruct (launch_preprocess _ _ _ _ _ _) as [[x y]|]; [|discriminate].
  destruct (launch_get_values_4x4 _ _ _ _ _ _) as [q|]; [|discriminate].
  destruct (launch_bicubic _ _ _ _ _) as [[c o]|] eqn:H3; [|discriminate].
  injection Hrun as ->.
  apply (launch_invariant
           (fun co : list vec4f * list Q => length (snd co) = length points))
    in H3; [assumption| |apply length_replicate].
  intros t [c1 o1] [c2 o2] Ht Ha.
  apply bicubic_inv in Ht as (? & ? & ? & _ & _ & _ & _ & _ & -> & ->).
  simpl in *. now rewrite length_insert.
Qed.

Lemma preprocess_per_point coord mpp dem_shape :
  per_point (fun n points xy =>
               launch_preprocess n points coord mpp dem_shape xy)
            slot1 slot2.
Proof.
  intros n1 n2 pts1 pts2 s1 s2 [x1 y1] [x2 y2] i Hi1 Hi2 Hin H1 H2.
  unfold slot1, slot2 in *. simpl.
  destruct (launch_preprocess_slot _ _ _ _ _ _ _ _ i H1 Hi1)
    as (p1 & ? & -> & ->).
  destruct (launch_preprocess_slot _ _ _ _ _ _ _ _ i H2 Hi2)
    as (p2 & ? & -> & ->).
  congruence.
Qed.

Lemma get_values_2x2_per_point dem dem_shape :
  per_point (fun n '(x, y) out =>
               launch_get_values_2x2 n dem dem_shape x y out)
            slot2 slot1.
Proof.
  intros n1 n2 [x1 y1] [x2 y2] s1 s2 s1' s2' i Hi1 Hi2 Hin H1 H2.
  unfold slot1, slot2 in *. simpl in Hin. injection Hin as Hx Hy.
  destruct (launch_get_values_2x2_slot _ _ _ _ _ _ _ i H1 Hi1) as (m1 & Hm1 & ->).
  destruct (launch_get_values_2x2_slot _ _ _ _ _ _ _ i H2 Hi2) as (m2 & Hm2 & ->).
  unfold point_get_2x2 in *. rewrite Hx, Hy in Hm1. congruence.
Qed.

Lemma get_values_4x4_per_point dem dem_shape :
  per_point (fun n '(x, y) out =>
               launch_get_values_4x4 n dem dem_shape x y out)
            slot2 slot1.
Proof.
  intros n1 n2 [x1 y1] [x2 y2] s1 s2 s1' s2' i Hi1 Hi2 Hin H1 H2.
  unfold slot1, slot2 in *. simpl in Hin. injection Hin as Hx Hy.
  destruct (launch_get_values_4x4_slot _ _ _ _ _ _ _ i H1 Hi1) as (m1 & Hm1 & ->).
  destruct (launch_get_values_4x4_slot _ _ _ _ _ _ _ i H2 Hi2) as (m2 & Hm2 & ->).
  unfold point_get_4x4 in *. rewrite Hx, Hy in Hm1. congruence.
Qed.

Lemma bilinear_per_point :
  per_point (fun n '(x, y, q) out => launch_bilinear n x y q out) slot3 slot1.
Proof.
  intros n1 n2 [[x1 y1] q1] [[x2 y2] q2] s1 s2 s1' s2' i Hi1 Hi2 Hin H1 H2.
  unfold slot1, slot3 in *. simpl in Hin. injection Hin as Hx Hy Hq.
  destruct (launch_bilinear_slot _ _ _ _ _ _ i H1 Hi1) as (m1 & Hm1 & ->).
  destruct (launch_bilinear_slot _ _ _ _ _ _ i H2 Hi2) as (m2 & Hm2 & ->).
  unfold point_bilinear in *. rewrite Hx, Hy, Hq in Hm1. congruence.
Qed.

Lemma bicubic_per_point :
  per_point (fun n '(x, y, q) co => launch_bicubic n x y q co) slot3 slot2.
Proof.
  intros n1 n2 [[x1 y1] q1] [[x2 y2] q2] s1 s2 [c1 o1] [c2 o2] i Hi1 Hi2
    Hin H1 H2.
  unfold slot2, slot3 in *. simpl in Hin. injection Hin as Hx Hy Hq. simpl.
  destruct (launch_bicubic_slot _ _ _ _ _ _ _ i H1 Hi1)
    as (m1 & yt1 & Hm1 & -> & Hy1 & ->).
  destruct (launch_bicubic_slot _ _ _ _ _ _ _ i H2 Hi2)
    as (m2 & yt2 & Hm2 & -> & Hy2 & ->).
  unfold point_bicubic in *. rewrite Hx, Hy, Hq in Hm1.
  rewrite Hy in Hy1. congruence.
Qed.

Lemma sample_bilinear_per_point dem dem_shape coord mpp :
  per_point (fun _ points (_ : list Q) =>
               sample_bilinear dem dem_shape coord mpp points)
            slot1 slot1.
Proof.
  intros n1 n2 pts1 pts2 s1 s2 o1 o2 i _ _ Hin H1 H2. unfold slot1 in *.
  destruct (pts1 !! i) as [p|] eqn:Hp.
  - destruct (sample_bilinear_slot _ _ _ _ _ _ i p H1 Hp) as [-> _].
    symmetry in Hin.
    destruct (sample_bilinear_slot _ _ _ _ _ _ i p H2 Hin) as [-> _].
    reflexivity.
  - symmetry in Hin. apply lookup_ge_None in Hp, Hin.
    apply sample_bilinear_length in H1, H2.
    rewrite !(proj2 (lookup_ge_None _ _)) by lia. reflexivity.
Qed.

Lemma sample_bicubic_per_point dem dem_shape coord mpp :
  per_point (fun _ points (_ : list Q) =>
               sample_bicubic dem dem_shape coord mpp points)
            slot1 slot1.
Proof.
  intros n1 n2 pts1 pts2 s1 s2 o1 o2 i _ _ Hin H1 H2. unfold slot1 in *.
  destruct (pts1 !! i) as [p|] eqn:Hp.
  - destruct (sample_bicubic_slot _ _ _ _ _ _ i p H1 Hp) as [-> _].
    symmetry in Hin.
    destruct (sample_bicubic_slot _ _ _ _ _ _ i p H2 Hin) as [-> _].
    reflexivity.
  - symmetry in Hin. apply lookup_ge_None in Hp, Hin.
    apply sample_bicubic_length in H1, H2.
    rewrite !(proj2 (lookup_ge_None _ _)) by lia. reflexivity.
Qed.

(** Launches that run without fault are independent point by point: for the
    preprocessing, the two gathers, the bilinear and the bicubic
    interpolation, and for the two sampling pipelines, the output of index i
    is the same in any two runs that share the DEM and the configuration
    scalars and agree on the input of index i, whatever the other points of
    the two batches. *)
Lemma batch_operations_per_point :
  (forall coord mpp dem_shape,
     per_point (fun n points xy =>
                  launch_preprocess n points coord mpp dem_shape xy)
               slot1 slot2) /\
  (forall dem dem_shape,
     per_point (fun n '(x, y) out =>
                  launch_get_values_2x2 n dem dem_shape x y out)
               slot2 slot1) /\
  (forall dem dem_shape,
     per_point (fun n '(x, y) out =>
                  launch_get_values_4x4 n dem dem_shape x y out)
               slot2 slot1) /\
  per_point (fun n '(x, y, q) out => launch_bilinear n x y q out)
            slot3 slot1 /\
  per_point (fun n '(x, y, q) co => launch_bicubic n x y q co)
            slot3 slot2 /\
  (forall dem dem_shape coord mpp,
     per_point (fun _ points (_ : list Q) =>
                  sample_bilinear dem dem_shape coord mpp points)
               slot1 slot1) /\
  (forall dem dem_shape coord mpp,
     per_point (fun _ points (_ : list Q) =>
                  sample_bicubic dem dem_shape coord mpp points)
               slot1 slot1).
Proof.
  repeat apply conj.
  - apply preprocess_per_point.
  - apply get_values_2x2_per_point.
  - apply get_values_4x4_per_point.
  - apply bilinear_per_point.
  - apply bicubic_per_point.
  - apply sample_bilinear_per_point.
  - apply sample_bicubic_per_point.
Qed.

(** ** Interpolation at the nodes of the grid *)

Lemma frac_integer px i : px == inject_Z i -> (px - Float.trunc px == 0)%Q.
Proof.
  intros Hpx. unfold Float.trunc. rewrite (trunc_Z_integer _ _ Hpx), Hpx. ring.
Qed.

Lemma bilinear_on_grid px py i j q :
  px == inject_Z i -> py == inject_Z j ->
  _bilinear_interpolator px py q == mat22_get q 0 0.
Proof.
  intros Hx Hy. unfold _bilinear_interpolator. cbv zeta.
  rewrite (frac_integer _ _ Hx), (frac_integer _ _ Hy). ring.
Qed.

Lemma cubic_weights_on_grid px i k :
  px == inject_Z i ->
  vec4_get (cubic_weights px) k == if decide (k = 1%nat) then 1 else 0.
Proof.
  intros Hx. unfold cubic_weights, _cubic_interpolator. cbv zeta.
  destruct k as [|[|[|k]]]; cbn [vec4_get vec4_set v4f_0 v4f_1 v4f_2 v4f_3];
    rewrite (frac_integer _ _ Hx); destruct (decide _); try lia; ring.
Qed.

Lemma bicubic_on_grid px py i j q :
  px == inject_Z i -> py == inject_Z j ->
  bicubic_value px py q == mat44_get q 1 1.
Proof.
  intros Hx Hy. unfold bicubic_value, blend_col. cbv zeta.
  rewrite !(cubic_weights_on_grid _ _ _ Hx), !(cubic_weights_on_grid _ _ _ Hy).
  repeat (destruct (decide _); try lia). ring.
Qed.

Lemma get_values_2x2_run tid dem dem_shape x y out xt yt m :
  x !! tid = Some xt -> y !! tid = Some yt -> (tid < length out)%nat ->
  _get_2x2_mat dem dem_shape xt yt zero22 = Some m ->
  _get_values_wp_2x2 tid dem dem_shape x y out = Some (<[tid := m]> out).
Proof.
  intros Hx Hy Ho Hm. unfold _get_values_wp_2x2.
  destruct (lookup_lt_is_Some_2 out tid Ho) as [ot Hot].
  rewrite Hx, Hy, Hot, (get_2x2_mat_out _ _ _ _ ot zero22), Hm.
  now apply store_Some.
Qed.

Lemma get_values_4x4_run tid dem dem_shape x y out xt yt m :
  x !! tid = Some xt -> y !! tid = Some yt -> (tid < length out)%nat ->
  _get_4x4_mat dem dem_shape xt yt zero44 = Some m ->
  _get_values_wp_4x4 tid dem dem_shape x y out = Some (<[tid := m]> out).
Proof.
  intros Hx Hy Ho Hm. unfold _get_values_wp_4x4.
  destruct (lookup_lt_is_Some_2 out tid Ho) as [ot Hot].
  rewrite Hx, Hy, Hot, (get_4x4_mat_out _ _ _ _ ot zero44), Hm.
  now apply store_Some.
Qed.

Lemma bilinear_run tid x y q out xt yt qt :
  x !! tid = Some xt -> y !! tid = Some yt -> q !! tid = Some qt ->
  (tid < length out)%nat ->
  _bilinear_interpolation tid x y q out =
  Some (<[tid := _bilinear_interpolator xt yt qt]> out).
Proof.
  intros Hx Hy Hq Ho. unfold _bilinear_interpolation.
  rewrite Hx, Hy, Hq. now apply store_Some.
Qed.

Lemma on_grid_clamped n px i :
  0 <= i <= n - 1 -> px == inject_Z i -> clamped n px /\ Qfloor px = i.
Proof.
  intros Hi Hpx. unfold clamped. rewrite Hpx, Qfloor_Z.
  change 0%Q with (inject_Z 0). rewrite <- !Zle_Qle. lia.
Qed.

Lemma dem_clamped_inside dem dem_shape i j :
  0 <= i <= v2i_0 dem_shape - 1 -> 0 <= j <= v2i_1 dem_shape - 1 ->
  Spec.dem_clamped dem dem_shape i j = Spec.dem_at dem dem_shape i j.
Proof.
  intros Hi Hj. unfold Spec.dem_clamped, Spec.clamp. f_equal; lia.
Qed.

(** The two gathers and the two interpolators at a node strictly inside
    the DEM. *)
Lemma gather_on_grid dem dem_shape i j px py :
  wf_dem dem dem_shape ->
  0 < i < v2i_0 dem_shape - 1 -> 0 < j < v2i_1 dem_shape - 1 ->
  px == inject_Z i -> py == inject_Z j ->
  exists d m2 m4,
    Spec.dem_at dem dem_shape i j = Some d /\
    _get_2x2_mat dem dem_shape px py zero22 = Some m2 /\
    _bilinear_interpolator px py m2 == d /\
    _get_4x4_mat dem dem_shape px py zero44 = Some m4 /\
    bicubic_value px py m4 == d.
Proof.
  intros Hwf Hi Hj Hpx Hpy.
  destruct (wf_dem_dims _ _ Hwf) as [Hw Hh]. unfold Int32.max_signed in *.
  destruct (on_grid_clamped (v2i_0 dem_shape) px i ltac:(lia) Hpx) as [Cx Fx].
  destruct (on_grid_clamped (v2i_1 dem_shape) py j ltac:(lia) Hpy) as [Cy Fy].
  destruct (get_2x2_mat_clamped dem dem_shape px py zero22 Hwf Cx Cy)
    as (m2 & Hm2 & Htap2).
  destruct (get_4x4_mat_nodes dem dem_shape Hwf px py zero44 Cx Cy)
    as (m4 & Hm4 & Htap4).
  { rewrite (trunc_Z_integer _ _ Hpx). unfold Int32.max_signed. lia. }
  { rewrite (trunc_Z_integer _ _ Hpy). unfold Int32.max_signed. lia. }
  pose proof (Htap2 0%nat 0%nat ltac:(lia) ltac:(lia)) as H2.
  pose proof (Htap4 1%nat 1%nat ltac:(lia) ltac:(lia)) as H4.
  rewrite Fx, Fy in H2, H4. change (Z.of_nat 0) with 0 in H2.
  rewrite !Z.add_0_r, dem_clamped_inside in H2 by lia.
  replace (node4 (v2i_0 dem_shape) i 1) with i in H4 by (unfold node4; lia).
  replace (node4 (v2i_1 dem_shape) j 1) with j in H4 by (unfold node4; lia).
  exists (mat22_get m2 0 0), m2, m4.
  split; [assumption|]. split; [assumption|].
  split; [now apply bilinear_on_grid with i j|]. split; [assumption|].
  rewrite (bicubic_on_grid _ _ _ _ _ Hpx Hpy).
  assert (Heq : mat44_get m4 1 1 = mat22_get m2 0 0) by congruence.
  rewrite Heq. reflexivity.
Qed.

(** C6. For a query that lands on the node (i, j) of the grid, strictly
    inside the DEM (zero fractional part on both axes), the thread of the
    2x2 gather followed by the bilinear interpolation, and the thread of the
    4x4 gather followed by the bicubic interpolation, both run without fault
    and store in [out] the sample [dem[i, j]]. *)
Theorem on_grid_interpolation_exact dem dem_shape i j tid x y px py
    (q22 : list mat22f) (q44 : list mat44f) (coeffs : list vec4f)
    (out : list Q) :
  wf_dem dem dem_shape ->
  0 < i < v2i_0 dem_shape - 1 -> 0 < j < v2i_1 dem_shape - 1 ->
  x !! tid = Some px -> y !! tid = Some py ->
  px == inject_Z i -> py == inject_Z j ->
  (tid < length q22)%nat -> (tid < length q44)%nat ->
  (tid < length coeffs)%nat -> (tid < length out)%nat ->
  exists d,
    Spec.dem_at dem dem_shape i j = Some d /\
    (exists q22' out' v,
       _get_values_wp_2x2 tid dem dem_shape x y q22 = Some q22' /\
       _bilinear_interpolation tid x y q22' out = Some out' /\
       out' !! tid = Some v /\ v == d) /\
    (exists q44' coeffs' out' v,
       _get_values_wp_4x4 tid dem dem_shape x y q44 = Some q44' /\
       _bicubic_interpolation tid x y q44' coeffs out = Some (coeffs', out') /\
       out' !! tid = Some v /\ v == d).
Proof.
  intros Hwf Hi Hj Hx Hy Hpx Hpy Hq2 Hq4 Hc Ho.
  destruct (gather_on_grid dem dem_shape i j px py Hwf Hi Hj Hpx Hpy)
    as (d & m2 & m4 & Hd & Hm2 & Hv2 & Hm4 & Hv4).
  exists d. split; [assumption|]. split.
  - exists (<[tid := m2]> q22), (<[tid := _bilinear_interpolator px py m2]> out),
      (_bilinear_interpolator px py m2).
    split; [now apply get_values_2x2_run with px py|].
    split; [apply bilinear_run; auto using list_lookup_insert_eq|].
    split; [now apply list_lookup_insert_eq | assumption].
  - exists (<[tid := m4]> q44), (<[tid := cubic_weights py]> coeffs),
      (<[tid := bicubic_value px py m4]> out), (bicubic_value px py m4).
    split; [now apply get_values_4x4_run with px py|].
    split; [apply bicubic_run; auto using list_lookup_insert_eq|].
    split; [now apply list_lookup_insert_eq | assumption].
Qed.

(** The same on the pipelines: in a batch that the pipelines sample, the
    elevation of a point that lands on a node strictly inside the DEM is the
    sample of that node. *)
Lemma sample_on_grid dem dem_shape coord mpp points k p i j out_l out_c :
  wf_dem dem dem_shape ->
  0 < i < v2i_0 dem_shape - 1 -> 0 < j < v2i_1 dem_shape - 1 ->
  points !! k = Some p ->
  v2f_0 p / mpp + v2f_0 coord == inject_Z i ->
  v2f_1 p / mpp + v2f_1 coord == inject_Z j ->
  sample_bilinear dem dem_shape coord mpp points = Some out_l ->
  sample_bicubic dem dem_shape coord mpp points = Some out_c ->
  exists d vl vc,
    Spec.dem_at dem dem_shape i j = Some d /\
    out_l !! k = Some vl /\ vl == d /\ out_c !! k = Some vc /\ vc == d.
Proof.
  intros Hwf Hi Hj Hp Hpx Hpy Hl Hc.
  destruct (gather_on_grid dem dem_shape i j _ _ Hwf Hi Hj Hpx Hpy)
    as (d & m2 & m4 & Hd & Hm2 & Hv2 & Hm4 & Hv4).
  destruct (sample_bilinear_slot _ _ _ _ _ _ k p Hl Hp) as [Hol _].
  destruct (sample_bicubic_slot _ _ _ _ _ _ k p Hc Hp) as [Hoc _].
  unfold point_sample_bilinear, pixel in Hol. rewrite Hm2 in Hol.
  unfold point_sample_bicubic, pixel in Hoc. rewrite Hm4 in Hoc.
  eauto 10.
Qed.

(** ** The collider cache stays within its capacity *)

Section CacheBound.

Import Colliders.

Variable cfg : CollidersManagerConf.

Lemma farthest_member es f : farthest es = Some f -> f ∈ es.
Proof.
  revert f. induction es as [|e rest IH]; intros f Hf; simpl in Hf.
  - discriminate.
  - destruct (farthest rest) as [g|].
    + destruct (Qltb _ _); injection Hf as <-.
      * right. now apply IH.
      * left.
    + injection Hf as <-. left.
Qed.

Lemma tile_eqb_refl t : tile_eqb t t = true.
Proof. unfold tile_eqb. now rewrite !Z.eqb_refl. Qed.

Lemma remove_farthest_shrinks es f :
  farthest es = Some f ->
  (length (remove_tile es (tile f)) < length es)%nat.
Proof.
  intros Hf. unfold remove_tile.
  apply length_filter_lt with f; [now apply farthest_member|].
  rewrite tile_eqb_refl. discriminate.
Qed.

(** Visiting one candidate tile keeps the cache within its capacity: a
    build needs room, and an eviction frees the room of the build that
    follows it. *)
Lemma visit_within_capacity ref c d t :
  within_capacity cfg c -> within_capacity cfg (fst (visit cfg ref (c, d) t)).
Proof.
  unfold Colliders.within_capacity, visit. intros Hc.
  destruct (within _ _ && negb _); [|exact Hc].
  destruct (Z.ltb_spec (Z.of_nat (length (entries c))) (max_cache_size cfg))
    as [Hroom|Hfull].
  - simpl. rewrite length_app. simpl. lia.
  - destruct (farthest (entries c)) as [f|] eqn:Hf; [|exact Hc].
    destruct (Qltb _ _); [|exact Hc].
    simpl. rewrite length_app. simpl.
    pose proof (remove_farthest_shrinks _ _ Hf). lia.
Qed.

Lemma visits_within_capacity ref ts : forall st,
  within_capacity cfg (fst st) ->
  within_capacity cfg (fst (fold_left (visit cfg ref) ts st)).
Proof.
  induction ts as [|t ts IH]; intros [c d] Hc; simpl; [exact Hc|].
  apply IH. now apply visit_within_capacity.
Qed.

Lemma reconcile_within_capacity ref c :
  within_capacity cfg c -> within_capacity cfg (fst (reconcile cfg ref c)).
Proof.
  intros Hc. unfold reconcile. apply visits_within_capacity.
  unfold Colliders.within_capacity in *. simpl.
  pose proof (length_filter
                (fun e => within (last_seen_distance e) (remove_radius cfg)
                          = true)
                (map (refresh (tile_size cfg) ref) (entries c))) as Hlen.
  rewrite length_map in Hlen. lia.
Qed.

Lemma update_blocks_within_capacity c position :
  within_capacity cfg c -> within_capacity cfg (update_blocks cfg c position).
Proof.
  destruct position as [[x y] z]. apply reconcile_within_capacity.
Qed.

Lemma run_within_capacity positions : forall c,
  within_capacity cfg c -> Forall (within_capacity cfg) (run cfg c positions).
Proof.
  induction positions as [|p ps IH]; intros c Hc; simpl; constructor.
  - now apply update_blocks_within_capacity.
  - apply IH. now apply update_blocks_within_capacity.
Qed.

End CacheBound.

(** C9. For any sequence of reference positions driven through the collider
    cache, one [update_blocks] (one reconciliation) per tick, the number of
    live collider entries is at most [max_cache_size] after every tick. *)
Theorem cache_never_exceeds_capacity cfg cm positions :
  Colliders.CollidersManager cfg = Some cm ->
  Forall (fun c => Z.of_nat (length (Colliders.entries c))
                   <= Colliders.max_cache_size cfg)
         (Colliders.run cfg cm positions).
Proof.
  unfold Colliders.CollidersManager. intros Hcm.
  destruct (Colliders.valid_conf cfg) eqn:Hvalid; [|discriminate].
  injection Hcm as <-.
  apply run_within_capacity. unfold Colliders.within_capacity. simpl.
  unfold Colliders.valid_conf in Hvalid.
  apply andb_prop in Hvalid as [_ Hmax]. apply Z.leb_le in Hmax. lia.
Qed.

Lemma cache_never_exceeds_capacity_witness :
  exists cm,
    Colliders.CollidersManager Colliders.CMC = Some cm /\
    Forall (fun c => Z.of_nat (length (Colliders.entries c))
                     <= Colliders.max_cache_size Colliders.CMC)
           (Colliders.run Colliders.CMC cm
              [(60, 0, 1); (36, 48, 1); (0, 60, 1)]%Q).
Proof.
  eexists. split; [reflexivity|].
  apply (cache_never_exceeds_capacity Colliders.CMC). reflexivity.
Defined.

(** ** Launches that cannot fault *)

Lemma run_threads_total {S : Type} (body : nat -> S -> option S)
    (ok : nat -> S -> Prop) :
  (forall t s, ok t s ->
     exists s', body t s = Some s' /\ forall j, ok j s -> ok j s') ->
  forall tids s, (forall t, t ∈ tids -> ok t s) ->
                 exists s', run_threads body tids s = Some s'.
Proof.
  intros Hbody. induction tids as [|t ts IH]; intros s Hok; simpl.
  - eauto.
  - destruct (Hbody t s) as (s1 & -> & Hkeep); [apply Hok; left|].
    apply IH. intros j Hj. apply Hkeep, Hok. now right.
Qed.

(** ** Normals *)

(** [_normal_on_grid] is not built: the first operation of its return
    expression divides the float [grid_size] by the int literal [2]. *)
Lemma normal_on_grid_not_built q grid_size :
  _normal_on_grid q grid_size = None.
Proof. reflexivity. Qed.

(** No launch of [_4points_normal] over one thread or more returns. *)
Lemma launch_normal_fails n q grid_size normal :
  (0 < n)%nat -> launch_normal n q grid_size normal = None.
Proof.
  intros Hn. destruct n as [|n]; [lia|].
  unfold launch_normal, launch. simpl. unfold _4points_normal.
  destruct (q !! 0%nat); reflexivity.
Qed.

(** C7 fails on the code.  For the patch ((10, 8), (15, 7)) and a grid size
    of 2 the formula gives the vector (-4, -10, 4).  [_normal_on_grid]
    returns no vector, for this patch or any other: its return expression is
    the formula, written with [grid_size / 2], a float divided by an int
    literal, which Warp does not build. *)
Theorem normal_on_grid_is_not_built :
  (forall q grid_size, _normal_on_grid q grid_size = None) /\
  (let s := Spec.normal (mat22_get (Mat22f 10 8 15 7)) 2 in
   v3f_0 s == -4 /\ v3f_1 s == -10 /\ v3f_2 s == 4)%Q.
Proof.
  split; [intros q grid_size; apply normal_on_grid_not_built|].
  cbv zeta. unfold Spec.normal.
  cbn [v3f_0 v3f_1 v3f_2 mat22_get m22_00 m22_01 m22_10 m22_11].
  repeat split; vm_compute; reflexivity.
Qed.

(** C1 fails on the code.  For the flat patch and a grid size of 2 the
    unnormalized normal is (0, 0, 4), of length 4: for every epsilon up to 4
    the contract asks for a vector of unit length, and excludes the report
    of a degenerate normal.  The batch normal operation returns no vector:
    the launch of [_4points_normal] fails, [_normal_on_grid] not being
    built. *)
Theorem normals_are_not_returned :
  launch_normal 1 [zero22] 2 [Vec3f 0 0 0] = None /\
  (Spec.norm2 (Spec.normal (mat22_get zero22) 2) == 16)%Q /\
  (forall eps o,
     (eps * eps <= 16)%Q ->
     Spec.normal_contract eps (Spec.normal (mat22_get zero22) 2) o ->
     exists v, o = Spec.Normal v /\ Spec.unit_length v).
Proof.
  split; [reflexivity|]. split; [vm_compute; reflexivity|].
  intros eps o Heps Hc.
  assert (Hn : (Spec.norm2 (Spec.normal (mat22_get zero22) 2) == 16)%Q)
    by (vm_compute; reflexivity).
  destruct o as [v|]; simpl in Hc.
  - exists v. split; [reflexivity | apply Hc].
  - rewrite Hn in Hc. exfalso. lra.
Qed.

(** ** Preprocessing does not clamp *)

(** What [_preprocess] leaves in [x] and [y] for every point of the batch:
    the pixel coordinates, not clamped. *)
Lemma preprocess_stores_unclamped n points coord mpp dem_shape xy x' y' i p :
  launch_preprocess n points coord mpp dem_shape xy = Some (x', y') ->
  (i < n)%nat -> points !! i = Some p ->
  x' !! i = Some (v2f_0 p / mpp + v2f_0 coord)%Q /\
  y' !! i = Some (v2f_1 p / mpp + v2f_1 coord)%Q.
Proof.
  intros Hrun Hi Hp.
  destruct (launch_preprocess_slot _ _ _ _ _ _ _ _ i Hrun Hi)
    as (p' & Hp' & Hx & Hy).
  assert (p' = p) as -> by congruence. done.
Qed.

(** The clamped entry does exist for a moment: [atomic_min] leaves the
    minimum in the array and hands back the entry it replaced, which the
    assignment [x[tid] = ...] then stores over the minimum. *)
Lemma atomic_min_then_store a tid v old :
  a !! tid = Some old ->
  (do '(r, a1) <- atomic_min a tid v; store a1 tid r) = Some (<[tid := old]> a)
  /\ (exists a1, atomic_min a tid v = Some (old, a1)
                 /\ a1 !! tid = Some (Qmin old v)).
Proof.
  intros Ha. pose proof (lookup_lt_Some _ _ _ Ha) as Hlen.
  rewrite (atomic_min_run _ _ _ _ Ha). split.
  - rewrite store_Some by (now rewrite length_insert).
    now rewrite list_insert_insert_eq.
  - eexists. split; [reflexivity|]. now apply list_lookup_insert_eq.
Qed.

(** C2 fails on the code.  On a DEM of 4 by 4 samples, with one pixel per
    meter and no offset, the query point (100, -7) has the pixel coordinates
    (100, -7), which clamp to (3, 0); [_preprocess] stores (100, -7). *)
Theorem preprocess_clamp_is_lost :
  exists x' y' px py,
    launch_preprocess 1 [Vec2f 100 (-7)] (Vec2f 0 0) 1 (shape_f shape44)
      ([0%Q], [0%Q]) = Some (x', y') /\
    x' !! 0%nat = Some px /\ y' !! 0%nat = Some py /\
    px == 100 /\ py == -7 /\
    Spec.clamp_px 4 (100 / 1 + 0) == 3 /\
    Spec.clamp_px 4 (-7 / 1 + 0) == 0.
Proof.
  do 4 eexists. split; [vm_compute; reflexivity|].
  repeat split; reflexivity.
Qed.

(** ** Sampling outside of the DEM *)

(** C3 fails on the code.  Far outside the DEM, the point (100, -7) makes
    the gathers read outside the array, for the bilinear and for the bicubic
    pipeline.  Closer, the point (1, 5) is read in the row below, at the
    flat index 1 * 4 + 5: the pipeline returns dem[2, 1] = 21, where the
    nearest sample of the DEM, dem[1, 3], is 13. *)
Theorem sampling_outside_is_not_clamped :
  sample_bilinear dem44 shape44 (Vec2f 0 0) 1 [Vec2f 100 (-7)] = None /\
  sample_bicubic dem44 shape44 (Vec2f 0 0) 1 [Vec2f 100 (-7)] = None /\
  (exists v e,
     sample_bilinear dem44 shape44 (Vec2f 0 0) 1 [Vec2f 1 5] = Some [v] /\
     sample_bilinear dem44 shape44 (Vec2f 0 0) 1 [Vec2f 1 3] = Some [e] /\
     v == 21 /\ e == 13).
Proof.
  split; [vm_compute; reflexivity|]. split; [vm_compute; reflexivity|].
  do 2 eexists. split; [vm_compute; reflexivity|].
  split; [vm_compute; reflexivity|]. split; reflexivity.
Qed.

(** C8 fails on the code for a point outside of the DEM.  On the DEM of 4 by
    4 samples the point (3, 5) has the pixel coordinates (3, 5), which
    [_preprocess] leaves as they are, and [_get_2x2_mat] reads the flat index
    3 * 4 + 5 = 17, past the 16 samples of the DEM.  On an array of these 16
    samples the read is outside of the array.  On an array that holds
    something after the DEM the elevation returned is what follows the DEM:
    7 in one run, 8 in another, for the same point, the same DEM and the
    same scalars. *)
Theorem output_outside_depends_on_memory_past_the_dem :
  let run := fun past : list Q =>
               sample_bilinear (dem44 ++ past) shape44 (Vec2f 0 0) 1
                               [Vec2f 3 5] in
  run [] = None /\
  exists v1 v2,
    run [0; 7]%Q = Some [v1] /\ run [0; 8]%Q = Some [v2] /\
    (v1 == 7)%Q /\ (v2 == 8)%Q.
Proof.
  cbv zeta. split; [vm_compute; reflexivity|].
  do 2 eexists. split; [vm_compute; reflexivity|].
  split; [vm_compute; reflexivity|]. split; reflexivity.
Qed.

(** ** Bicubic sampling *)

(** The two pieces of the kernel, by the distance [r] to the sample. *)
Lemma keys_near a s r :
  Qabs s == r -> (r <= 1)%Q ->
  Spec.keys a s == (a + 2) * r * r * r - (a + 3) * r * r + 1.
Proof.
  intros Hs Hr. unfold Spec.keys. cbv zeta.
  destruct (Qle_bool (Qabs s) 1) eqn:E.
  - rewrite Hs. reflexivity.
  - exfalso. assert (Qle_bool (Qabs s) 1 = true); [|congruence].
    apply Qle_bool_iff. rewrite Hs. assumption.
Qed.

Lemma keys_far a s r :
  Qabs s == r -> (1 <= r)%Q -> (r <= 2)%Q ->
  Spec.keys a s == a * r * r * r - 5 * a * r * r + 8 * a * r - 4 * a.
Proof.
  intros Hs H1 H2. unfold Spec.keys. cbv zeta.
  destruct (Qle_bool (Qabs s) 1) eqn:E1.
  - apply Qle_bool_iff in E1. rewrite Hs in E1.
    assert (Hr : r == 1) by (apply Qle_antisym; assumption).
    rewrite Hs, Hr. ring.
  - destruct (Qle_bool 2 (Qabs s)) eqn:E2; simpl.
    + apply Qle_bool_iff in E2. rewrite Hs in E2.
      assert (Hr : r == 2) by (apply Qle_antisym; assumption).
      rewrite Hr. ring.
    + rewrite Hs. reflexivity.
Qed.

(** The four weights of the kernel as polynomials of the fraction. *)
Lemma cubic_weight_poly a k t :
  (0 <= t)%Q -> (t < 1)%Q -> (k < 4)%nat ->
  Spec.cubic_weight a k t ==
  match k with
  | 0%nat => a * t * t * t - 2 * a * t * t + a * t
  | 1%nat => (a + 2) * t * t * t - (a + 3) * t * t + 1
  | 2%nat => - (a + 2) * t * t * t + (2 * a + 3) * t * t - a * t
  | _ => - a * t * t * t + a * t * t
  end.
Proof.
  intros H0 H1 Hk. unfold Spec.cubic_weight.
  destruct k as [|[|[|[|]]]]; try lia.
  all: change (Z.of_nat 0) with 0; change (Z.of_nat 1) with 1;
    change (Z.of_nat 2) with 2; change (Z.of_nat 3) with 3; unfold inject_Z.
  - rewrite (keys_far a _ (t + 1)).
    + ring.
    + rewrite Qabs_pos; [ring | lra].
    + lra.
    + lra.
  - rewrite (keys_near a _ t).
    + ring.
    + rewrite Qabs_pos; [ring | lra].
    + lra.
  - rewrite (keys_near a _ (1 - t)).
    + ring.
    + rewrite Qabs_neg; [ring | lra].
    + lra.
  - rewrite (keys_far a _ (2 - t)).
    + ring.
    + rewrite Qabs_neg; [ring | lra].
    + lra.
    + lra.
Qed.

Lemma frac_bounds x : (0 <= Spec.frac x)%Q /\ (Spec.frac x < 1)%Q.
Proof.
  unfold Spec.frac. pose proof (Qfloor_le x) as Hle.
  pose proof (Qlt_floor x) as Hlt. rewrite inject_Z_plus in Hlt.
  change (inject_Z 1) with 1%Q in Hlt.
  set (f := inject_Z (Qfloor x)) in *. split; lra.
Qed.

(** The weights of [_cubic_interpolator] are those of the Catmull-Rom
    kernel (a = -0.5), and the value a thread of [_bicubic_interpolation]
    stores is the separable convolution of its patch: along x, then along
    y. *)
Lemma cubic_weights_catmull_rom x k :
  (0 <= x)%Q -> (k < 4)%nat ->
  vec4_get (cubic_weights x) k == Spec.catmull_rom k (Spec.frac x).
Proof.
  intros Hx Hk. unfold Spec.catmull_rom.
  destruct (frac_bounds x) as [H0 H1].
  rewrite (cubic_weight_poly _ _ _ H0 H1 Hk).
  unfold cubic_weights, _cubic_interpolator. cbv zeta.
  rewrite (trunc_frac_floor x Hx).
  destruct k as [|[|[|[|]]]]; try lia;
    cbn [vec4_get vec4_set v4f_0 v4f_1 v4f_2 v4f_3]; ring.
Qed.

Lemma bicubic_value_separable px py q :
  (0 <= px)%Q -> (0 <= py)%Q ->
  bicubic_value px py q == Spec.bicubic_patch q (Spec.frac px) (Spec.frac py).
Proof.
  intros Hx Hy. unfold bicubic_value, blend_col, Spec.bicubic_patch, Spec.blend4.
  cbv zeta.
  rewrite !(cubic_weights_catmull_rom px) by (assumption || lia).
  rewrite !(cubic_weights_catmull_rom py) by (assumption || lia).
  ring.
Qed.

Lemma mat44_ext m m' :
  (forall i j, (i < 4)%nat -> (j < 4)%nat -> mat44_get m i j = mat44_get m' i j) ->
  m = m'.
Proof.
  intros H.
  destruct m as [[a0 a1 a2 a3] [b0 b1 b2 b3] [c0 c1 c2 c3] [d0 d1 d2 d3]].
  destruct m' as [[a0' a1' a2' a3'] [b0' b1' b2' b3'] [c0' c1' c2' c3']
                    [d0' d1' d2' d3']].
  pose proof (H 0 0 ltac:(lia) ltac:(lia))%nat.
  pose proof (H 0 1 ltac:(lia) ltac:(lia))%nat.
  pose proof (H 0 2 ltac:(lia) ltac:(lia))%nat.
  pose proof (H 0 3 ltac:(lia) ltac:(lia))%nat.
  pose proof (H 1 0 ltac:(lia) ltac:(lia))%nat.
  pose proof (H 1 1 ltac:(lia) ltac:(lia))%nat.
  pose proof (H 1 2 ltac:(lia) ltac:(lia))%nat.
  pose proof (H 1 3 ltac:(lia) ltac:(lia))%nat.
  pose proof (H 2 0 ltac:(lia) ltac:(lia))%nat.
  pose proof (H 2 1 ltac:(lia) ltac:(lia))%nat.
  pose proof (H 2 2 ltac:(lia) ltac:(lia))%nat.
  pose proof (H 2 3 ltac:(lia) ltac:(lia))%nat.
  pose proof (H 3 0 ltac:(lia) ltac:(lia))%nat.
  pose proof (H 3 1 ltac:(lia) ltac:(lia))%nat.
  pose proof (H 3 2 ltac:(lia) ltac:(lia))%nat.
  pose proof (H 3 3 ltac:(lia) ltac:(lia))%nat.
  cbn in *. congruence.
Qed.

(** Away from the lower edges (integer parts at least 1), the 4x4 gather
    reads the taps at offsets -1 .. 2, every index clamped on its own, and
    the bicubic thread value is the Catmull-Rom reconstruction. *)
Lemma bicubic_sampling_off_lower_edge dem dem_shape px py out :
  wf_dem dem dem_shape ->
  clamped (v2i_0 dem_shape) px -> clamped (v2i_1 dem_shape) py ->
  1 <= Qfloor px -> 1 <= Qfloor py ->
  Qfloor px + 2 <= Int32.max_signed -> Qfloor py + 2 <= Int32.max_signed ->
  exists q v,
    _get_4x4_mat dem dem_shape px py out = Some q /\
    Spec.patch44 dem dem_shape (Qfloor px) (Qfloor py) = Some q /\
    Spec.bicubic dem dem_shape px py = Some v /\
    bicubic_value px py q == v.
Proof.
  intros Hwf Hx Hy Hx1 Hy1 Hxm Hym.
  destruct (get_4x4_mat_nodes dem dem_shape Hwf px py out Hx Hy)
    as (q & Hq & Htaps);
    [rewrite trunc_Z_floor by apply Hx; assumption
    |rewrite trunc_Z_floor by apply Hy; assumption|].
  assert (Hpatch : Spec.patch44 dem dem_shape (Qfloor px) (Qfloor py) = Some q).
  { unfold Spec.patch44.
    assert (Htap : forall i j, (i < 4)%nat -> (j < 4)%nat ->
               Spec.tap dem dem_shape (Qfloor px) (Qfloor py) i j
               = Some (mat44_get q i j)).
    { intros i j Hi Hj. rewrite <- (Htaps i j Hi Hj).
      pose proof Hwf as (Hw & Hh & _).
      unfold Spec.tap, Spec.dem_clamped, Spec.clamp, node4. f_equal; lia. }
    destruct (mat44_of_total (Spec.tap dem dem_shape (Qfloor px) (Qfloor py)))
      as (m & Hm & Hget).
    { intros i j Hi Hj. rewrite Htap by assumption. eauto. }
    rewrite Hm. f_equal. apply mat44_ext. intros i j Hi Hj.
    specialize (Hget i j Hi Hj). rewrite Htap in Hget by assumption.
    congruence. }
  exists q. eexists. split; [assumption|]. split; [assumption|].
  unfold Spec.bicubic. rewrite Hpatch. split; [reflexivity|].
  apply bicubic_value_separable; [apply Hx | apply Hy].
Qed.

(** C4 fails on the code at the lower edges.  On the 4 by 4 DEM, for the
    pixel coordinate (0, 0) the taps of the kernel are the rows and columns
    -1, 0, 1, 2, which clamp to 0, 0, 1, 2; [_get_4x4_mat] reads the rows and
    columns 0, 1, 2, 3.  The bicubic value is then dem[1, 1] = 11, where the
    convolution of the clamped neighbourhood is dem[0, 0] = 0. *)
Theorem bicubic_gather_shifts_at_lower_edge :
  exists q q' v',
    _get_4x4_mat dem44 shape44 0 0 zero44 = Some q /\
    Spec.patch44 dem44 shape44 (Qfloor 0) (Qfloor 0) = Some q' /\
    mat44_row q 0 = Vec4f 0 1 2 3 /\ mat44_row q' 0 = Vec4f 0 0 1 2 /\
    mat44_row q 1 = Vec4f 10 11 12 13 /\ mat44_row q' 1 = Vec4f 0 0 1 2 /\
    mat44_row q 2 = Vec4f 20 21 22 23 /\ mat44_row q' 2 = Vec4f 10 10 11 12 /\
    mat44_row q 3 = Vec4f 30 31 32 33 /\ mat44_row q' 3 = Vec4f 20 20 21 22 /\
    bicubic_value 0 0 q == 11 /\
    Spec.bicubic dem44 shape44 0 0 = Some v' /\ v' == 0 /\
    sample_bicubic dem44 shape44 (Vec2f 0 0) 1 [Vec2f 0 0]
      = Some [bicubic_value (0 / 1 + 0) (0 / 1 + 0) q].
Proof.
  do 3 eexists. split; [vm_compute; reflexivity|].
  split; [vm_compute; reflexivity|].
  repeat split; try reflexivity.
  all: vm_compute; reflexivity.
Qed.

(** ** The pipelines on points inside the DEM *)

Lemma launch_array_total {A : Type} (body : nat -> list A -> option (list A))
    (f : nat -> option A) n a :
  (forall t a m, (t < length a)%nat -> f t = Some m ->
                 body t a = Some (<[t := m]> a)) ->
  (n <= length a)%nat -> (forall t, (t < n)%nat -> is_Some (f t)) ->
  exists a', launch n body a = Some a'.
Proof.
  intros Hbody Hn Hf. unfold launch.
  apply run_threads_total
    with (ok := fun t (a : list A) => (t < length a)%nat /\ is_Some (f t)).
  - intros t s [Ht [m Hm]]. exists (<[t := m]> s). split; [now apply Hbody|].
    intros j. now rewrite length_insert.
  - intros t Ht. apply elem_of_seq in Ht. split; [lia | apply Hf; lia].
Qed.

Lemma launch_preprocess_total points coord mpp dem_shape n x y :
  (n <= length points)%nat -> (n <= length x)%nat -> (n <= length y)%nat ->
  exists x' y',
    launch_preprocess n points coord mpp dem_shape (x, y) = Some (x', y') /\
    length x' = length x /\ length y' = length y.
Proof.
  intros Hp Hx Hy.
  set (body := fun tid '(x, y) =>
                 _preprocess tid x y points coord mpp dem_shape).
  assert (Hinv : forall t s s', body t s = Some s' ->
                 length (fst s') = length (fst s) /\
                 length (snd s') = length (snd s)).
  { intros t [a b] [a' b'] Ht.
    apply preprocess_inv in Ht as (p & _ & _ & _ & -> & ->).
    simpl. now rewrite !length_insert. }
  destruct (run_threads_total body
              (fun t (s : list Q * list Q) =>
                 (t < length (fst s))%nat /\ (t < length (snd s))%nat /\
                 (t < length points)%nat)) with (tids := seq 0 n) (s := (x, y))
    as [[x' y'] Hrun].
  - intros t [a b] (Ha & Hb & Ht). simpl in Ha, Hb.
    destruct (lookup_lt_is_Some_2 points t Ht) as [p Hp'].
    eexists. split; [apply (preprocess_run _ _ _ _ _ _ _ p Hp' Ha Hb)|].
    intros j. simpl. now rewrite !length_insert.
  - intros t Ht. apply elem_of_seq in Ht. simpl. lia.
  - exists x', y'. split; [exact Hrun|].
    apply (launch_invariant
             (fun s : list Q * list Q =>
                length (fst s) = length x /\ length (snd s) = length y) body)
      with (n := n) (s := (x, y)) (s' := (x', y')); [|exact Hrun|done].
    intros t s s' Ht [H1 H2]. destruct (Hinv _ _ _ Ht) as [-> ->]. done.
Qed.

(** On a batch whose points all fall inside the DEM, the bilinear pipeline
    runs to its end and returns one elevation per point. *)
Lemma sample_bilinear_total dem dem_shape coord mpp points :
  wf_dem dem dem_shape ->
  Forall (fun p => clamped (v2i_0 dem_shape) (v2f_0 p / mpp + v2f_0 coord) /\
                   clamped (v2i_1 dem_shape) (v2f_1 p / mpp + v2f_1 coord))
         points ->
  exists out, sample_bilinear dem dem_shape coord mpp points = Some out /\
              length out = length points.
Proof.
  intros Hwf Hin. unfold sample_bilinear. set (n := length points).
  destruct (launch_preprocess_total points coord mpp (shape_f dem_shape) n
              (replicate n 0%Q) (replicate n 0%Q))
    as (x & y & H1 & Hlx & Hly); rewrite ?length_replicate; try lia.
  rewrite H1. rewrite length_replicate in Hlx, Hly.
  assert (Hxy : forall t, (t < n)%nat ->
            exists p, points !! t = Some p /\
                      x !! t = Some (pixel (v2f_0 p) mpp (v2f_0 coord)) /\
                      y !! t = Some (pixel (v2f_1 p) mpp (v2f_1 coord))).
  { intros t Ht. apply (launch_preprocess_slot _ _ _ _ _ _ _ _ t H1 Ht). }
  destruct (launch_array_total
              (fun tid out => _get_values_wp_2x2 tid dem dem_shape x y out)
              (point_get_2x2 dem dem_shape x y) n (replicate n (Mat22f 0 0 0 0)))
    as [q H2].
  { intros t a m Ht Hm. unfold point_get_2x2 in Hm.
    destruct (x !! t) as [xt|] eqn:Hx; [|discriminate].
    destruct (y !! t) as [yt|] eqn:Hy; [|discriminate].
    now apply get_values_2x2_run with xt yt. }
  { rewrite length_replicate. lia. }
  { intros t Ht. destruct (Hxy t Ht) as (p & Hp & Hx & Hy).
    unfold point_get_2x2. rewrite Hx, Hy.
    rewrite Forall_lookup in Hin. destruct (Hin t p Hp) as [Cx Cy].
    destruct (get_2x2_mat_clamped dem dem_shape _ _ zero22 Hwf Cx Cy)
      as (m & Hm & _).
    unfold pixel. rewrite Hm. eauto. }
  unfold launch_get_values_2x2. rewrite H2.
  assert (Hlq : length q = n).
  { apply (launch_invariant (fun a : list mat22f => length a = n))
      in H2; [assumption| |apply length_replicate].
    intros t a a' Ht Ha.
    apply get_values_2x2_inv in Ht as (? & ? & ? & ? & _ & _ & _ & _ & ->).
    now rewrite length_insert. }
  destruct (launch_array_total
              (fun tid out => _bilinear_interpolation tid x y q out)
              (point_bilinear x y q) n (replicate n 0%Q))
    as [out H3].
  { intros t a m Ht Hm. unfold point_bilinear in Hm.
    destruct (x !! t) as [xt|] eqn:Hx; [|discriminate].
    destruct (y !! t) as [yt|] eqn:Hy; [|discriminate].
    destruct (q !! t) as [qt|] eqn:Hq; [|discriminate].
    injection Hm as <-. now apply bilinear_run. }
  { rewrite length_replicate. lia. }
  { intros t Ht. destruct (Hxy t Ht) as (p & Hp & Hx & Hy).
    unfold point_bilinear. rewrite Hx, Hy.
    destruct (lookup_lt_is_Some_2 q t) as [qt Hq]; [lia|].
    rewrite Hq. eauto. }
  exists out. split; [exact H3|].
  apply (launch_invariant (fun a : list Q => length a = n))
    in H3; [assumption| |apply length_replicate].
  intros t a a' Ht Ha.
  apply bilinear_inv in Ht as (? & ? & ? & _ & _ & _ & _ & ->).
  now rewrite length_insert.
Qed.

(** The same for the bicubic pipeline, on a DEM whose dimensions leave room
    for [x0 + 3] and [y0 + 3] in 32 bits. *)
Lemma sample_bicubic_total dem dem_shape coord mpp points :
  wf_dem dem dem_shape ->
  v2i_0 dem_shape + 1 <= Int32.max_signed ->
  v2i_1 dem_shape + 1 <= Int32.max_signed ->
  Forall (fun p => clamped (v2i_0 dem_shape) (v2f_0 p / mpp + v2f_0 coord) /\
                   clamped (v2i_1 dem_shape) (v2f_1 p / mpp + v2f_1 coord))
         points ->
  exists out, sample_bicubic dem dem_shape coord mpp points = Some out /\
              length out = length points.
Proof.
  intros Hwf Hw1 Hh1 Hin. unfold sample_bicubic. cbv zeta.
  set (n := length points).
  destruct (launch_preprocess_total points coord mpp (shape_f dem_shape) n
              (replicate n 0%Q) (replicate n 0%Q))
    as (x & y & H1 & Hlx & Hly); rewrite ?length_replicate; try lia.
  rewrite H1. rewrite length_replicate in Hlx, Hly.
  assert (Hxy : forall t, (t < n)%nat ->
            exists p, points !! t = Some p /\
                      x !! t = Some (pixel (v2f_0 p) mpp (v2f_0 coord)) /\
                      y !! t = Some (pixel (v2f_1 p) mpp (v2f_1 coord))).
  { intros t Ht. apply (launch_preprocess_slot _ _ _ _ _ _ _ _ t H1 Ht). }
  destruct (launch_array_total
              (fun tid out => _get_values_wp_4x4 tid dem dem_shape x y out)
              (point_get_4x4 dem dem_shape x y) n
              (replicate n (Mat44f (Vec4f 0 0 0 0) (Vec4f 0 0 0 0)
                                   (Vec4f 0 0 0 0) (Vec4f 0 0 0 0))))
    as [q H2].
  { intros t a m Ht Hm. unfold point_get_4x4 in Hm.
    destruct (x !! t) as [xt|] eqn:Hx; [|discriminate].
    destruct (y !! t) as [yt|] eqn:Hy; [|discriminate].
    now apply get_values_4x4_run with xt yt. }
  { rewrite length_replicate. lia. }
  { intros t Ht. destruct (Hxy t Ht) as (p & Hp & Hx & Hy).
    unfold point_get_4x4. rewrite Hx, Hy.
    rewrite Forall_lookup in Hin. destruct (Hin t p Hp) as [Cx Cy].
    destruct (wf_dem_dims _ _ Hwf) as [Hw Hh].
    destruct (to_int_clamped _ _ Hw Cx) as [_ Hbx].
    destruct (to_int_clamped _ _ Hh Cy) as [_ Hby].
    destruct (get_4x4_mat_nodes dem dem_shape Hwf _ _ zero44 Cx Cy)
      as (m & Hm & _).
    { rewrite trunc_Z_floor by apply Cx. lia. }
    { rewrite trunc_Z_floor by apply Cy. lia. }
    unfold pixel. rewrite Hm. eauto. }
  unfold launch_get_values_4x4. rewrite H2.
  assert (Hlq : length q = n).
  { apply (launch_invariant (fun a : list mat44f => length a = n))
      in H2; [assumption| |apply length_replicate].
    intros t a a' Ht Ha.
    apply get_values_4x4_inv in Ht as (? & ? & ? & ? & _ & _ & _ & _ & ->).
    now rewrite length_insert. }
  set (body := fun tid '(coeffs, out) =>
                 _bicubic_interpolation tid x y q coeffs out).
  destruct (run_threads_total body
              (fun t (s : list vec4f * list Q) =>
                 (t < length (fst s))%nat /\ (t < length (snd s))%nat /\
                 (t < n)%nat))
    with (tids := seq 0 n)
         (s := (replicate n (Vec4f 0 0 0 0), replicate n 0%Q))
    as [[c o] H3].
  { intros t [a b] (Ha & Hb & Ht). simpl in Ha, Hb.
    destruct (Hxy t Ht) as (p & Hp & Hx & Hy).
    destruct (lookup_lt_is_Some_2 q t) as [qt Hq]; [lia|].
    eexists. split; [apply (bicubic_run _ _ _ _ _ _ _ _ _ Hx Hy Hq Ha Hb)|].
    intros j. simpl. now rewrite !length_insert. }
  { intros t Ht. apply elem_of_seq in Ht. simpl.
    rewrite !length_replicate. lia. }
  unfold launch_bicubic, launch. fold body. rewrite H3.
  exists o. split; [reflexivity|].
  apply (launch_invariant
           (fun s : list vec4f * list Q => length (snd s) = n) body)
    with (n := n) (s := (replicate n (Vec4f 0 0 0 0), replicate n 0%Q))
         (s' := (c, o)); [|exact H3|apply length_replicate].
  intros t [a b] [a' b'] Ht Hs.
  apply bicubic_inv in Ht as (? & ? & ? & _ & _ & _ & _ & _ & -> & ->).
  simpl in *. now rewrite length_insert.
Qed.

(** ** Instances on the 4 by 4 DEM *)

Ltac solve_wf44 :=
  unfold wf_dem, shape44, dem44, Int32.max_signed; simpl; lia.

Ltac solve_clamped := unfold clamped, Qle; simpl; lia.

Lemma bilinear_sampling_correct_witness :
  wf_dem dem44 shape44 /\ clamped 4 1.5 /\ clamped 4 2.25 /\
  exists q v,
    _get_2x2_mat dem44 shape44 1.5 2.25 zero22 = Some q /\
    Spec.dem_clamped dem44 shape44 (Qfloor 1.5) (Qfloor 2.25)
      = Some (mat22_get q 0 0) /\
    Spec.dem_clamped dem44 shape44 (Qfloor 1.5 + 1) (Qfloor 2.25)
      = Some (mat22_get q 1 0) /\
    Spec.dem_clamped dem44 shape44 (Qfloor 1.5) (Qfloor 2.25 + 1)
      = Some (mat22_get q 0 1) /\
    Spec.dem_clamped dem44 shape44 (Qfloor 1.5 + 1) (Qfloor 2.25 + 1)
      = Some (mat22_get q 1 1) /\
    Spec.bilinear dem44 shape44 1.5 2.25 = Some v /\
    _bilinear_interpolator 1.5 2.25 q == v.
Proof.
  split; [solve_wf44|]. split; [solve_clamped|]. split; [solve_clamped|].
  apply (bilinear_sampling_correct dem44 shape44 1.5 2.25 zero22);
    [solve_wf44 | solve_clamped | solve_clamped].
Defined.

Lemma on_grid_interpolation_exact_witness :
  wf_dem dem44 shape44 /\ 0 < 1 < 4 - 1 /\ 0 < 2 < 4 - 1 /\
  exists d,
    Spec.dem_at dem44 shape44 1 2 = Some d /\
    (exists q22' out' v,
       _get_values_wp_2x2 0 dem44 shape44 [1%Q] [2%Q] [zero22] = Some q22' /\
       _bilinear_interpolation 0 [1%Q] [2%Q] q22' [0%Q] = Some out' /\
       out' !! 0%nat = Some v /\ v == d) /\
    (exists q44' coeffs' out' v,
       _get_values_wp_4x4 0 dem44 shape44 [1%Q] [2%Q] [zero44] = Some q44' /\
       _bicubic_interpolation 0 [1%Q] [2%Q] q44' [zero4] [0%Q]
         = Some (coeffs', out') /\
       out' !! 0%nat = Some v /\ v == d).
Proof.
  split; [solve_wf44|]. split; [lia|]. split; [lia|].
  apply (on_grid_interpolation_exact dem44 shape44 1 2 0 [1%Q] [2%Q] 1 2
           [zero22] [zero44] [zero4] [0%Q]);
    try reflexivity; try solve_wf44; simpl; lia.
Defined.

Lemma gather_indices_in_bounds_witness :
  wf_dem dem44 shape44 /\ Float.binary32 2.5 /\ Float.binary32 3 /\
  clamped 4 2.5 /\ clamped 4 3 /\
  (forall i j, (i < 2)%nat -> (j < 2)%nat ->
     0 <= Int32.add (row2 shape44 (Float.trunc_Z 2.5) i)
                    (col2 shape44 (Float.trunc_Z 3) j) < 4 * 4) /\
  (forall i j, (i < 4)%nat -> (j < 4)%nat ->
     0 <= Int32.add (row4 shape44 (Float.trunc_Z 2.5) i)
                    (col4 shape44 (Float.trunc_Z 3) j) < 4 * 4) /\
  (exists q, _get_2x2_mat dem44 shape44 2.5 3 zero22 = Some q) /\
  (exists q, _get_4x4_mat dem44 shape44 2.5 3 zero44 = Some q).
Proof.
  assert (B1 : Float.binary32 2.5).
  { exists 5, (-1). repeat split; try lia; reflexivity. }
  assert (B2 : Float.binary32 3).
  { exists 3, 0. repeat split; try lia; reflexivity. }
  split; [solve_wf44|]. split; [exact B1|]. split; [exact B2|].
  split; [solve_clamped|]. split; [solve_clamped|].
  apply (gather_indices_in_bounds dem44 shape44 2.5 3 zero22 zero44);
    [solve_wf44 | exact B1 | exact B2 | solve_clamped | solve_clamped].
Defined.

(** Two batches that share their second point: the pipelines run, and the
    elevation of the shared point is the same in both. *)
Example sample_bilinear_shared_point :
  exists o1 o2 v,
    sample_bilinear dem44 shape44 (Vec2f 0 0) 1
      [Vec2f 0.5 0.5; Vec2f 1.5 2.5] = Some o1 /\
    sample_bilinear dem44 shape44 (Vec2f 0 0) 1
      [Vec2f 3 0; Vec2f 1.5 2.5; Vec2f 2 2] = Some o2 /\
    o1 !! 1%nat = Some v /\ o2 !! 1%nat = Some v /\ v == 17.5.
Proof.
  do 3 eexists. split; [vm_compute; reflexivity|].
  split; [vm_compute; reflexivity|]. repeat split; reflexivity.
Qed.

(** The cache of the test fills up to its capacity, and stays there. *)
Example cache_fills_up :
  map (fun c => length (Colliders.entries c))
      (Colliders.run Colliders.CMC
         {| Colliders.entries := []; Colliders.next_handle := 0 |}
         [(60, 0, 1); (36, 48, 1)]%Q)
  = [6; 6]%nat.
Proof. vm_compute. reflexivity. Qed.

(** The eviction of the farthest entry: with a capacity of 2 and the tiles
    at the squared distances 9 and 16 in the cache, a tile at the squared
    distance 4 replaces the one at 16. *)
Example evict_farthest :
  let cfg := {| Colliders.root_path := "/Main";
                Colliders.sim_length := 50; Colliders.sim_width := 50;
                Colliders.resolution := 1;
                Colliders.build_radius := 5; Colliders.remove_radius := 8;
                Colliders.max_cache_size := 2 |} in
  let e1 := {| Colliders.tile := (3, 0); Colliders.handle := 0%nat;
               Colliders.last_seen_distance := 9 |} in
  let e2 := {| Colliders.tile := (4, 0); Colliders.handle := 1%nat;
               Colliders.last_seen_distance := 16 |} in
  let c := {| Colliders.entries := [e1; e2]; Colliders.next_handle := 2 |} in
  let '(c', d) := Colliders.visit cfg (0.5, 0.5)%Q
                    (c, {| Colliders.built := []; Colliders.evicted := [];
                           Colliders.contention := [] |}) (2, 0) in
  map Colliders.tile (Colliders.entries c') = [(3, 0); (2, 0)] /\
  Colliders.built d = [(2, 0)] /\ Colliders.evicted d = [(4, 0)].
Proof. vm_compute. repeat split. Qed.


(** * Further properties of the kernels *)

(** ** The bilinear interpolator *)

(** X1. For non-negative coordinates the four weights of
    [_bilinear_interpolator] are non-negative and add up to 1: the value
    returned stays within the range of the four samples of the patch. *)
Theorem bilinear_within_patch_range x y q lo hi :
  (0 <= x)%Q -> (0 <= y)%Q ->
  (forall i j, (i < 2)%nat -> (j < 2)%nat ->
               (lo <= mat22_get q i j)%Q /\ (mat22_get q i j <= hi)%Q) ->
  (lo <= _bilinear_interpolator x y q)%Q /\
  (_bilinear_interpolator x y q <= hi)%Q.
Proof.
  intros Hx Hy Hq. unfold _bilinear_interpolator. cbv zeta.
  rewrite !(trunc_frac_floor x Hx), !(trunc_frac_floor y Hy).
  destruct (frac_bounds x) as [Ha0 Ha1]. destruct (frac_bounds y) as [Hb0 Hb1].
  set (a := Spec.frac x) in *. set (b := Spec.frac y) in *.
  destruct (Hq 0 0 ltac:(lia) ltac:(lia))%nat as [L00 U00].
  destruct (Hq 1 0 ltac:(lia) ltac:(lia))%nat as [L10 U10].
  destruct (Hq 0 1 ltac:(lia) ltac:(lia))%nat as [L01 U01].
  destruct (Hq 1 1 ltac:(lia) ltac:(lia))%nat as [L11 U11].
  set (q00 := mat22_get q 0 0) in *. set (q10 := mat22_get q 1 0) in *.
  set (q01 := mat22_get q 0 1) in *. set (q11 := mat22_get q 1 1) in *.
  assert (W00 : (0 <= (1 - a) * (1 - b))%Q) by nra.
  assert (W10 : (0 <= a * (1 - b))%Q) by nra.
  assert (W01 : (0 <= (1 - a) * b)%Q) by nra.
  assert (W11 : (0 <= a * b)%Q) by nra.
  split; nra.
Qed.

Lemma frac_times_next n px :
  0 < n -> clamped n px ->
  (Spec.frac px * inject_Z (Spec.clamp 0 (n - 1) (Qfloor px + 1))
   == Spec.frac px * (inject_Z (Qfloor px) + 1))%Q.
Proof.
  intros Hn [H0 H1].
  pose proof (trunc_Z_bounds px (n - 1) H0 H1) as Hb.
  rewrite (trunc_Z_floor px H0) in Hb.
  destruct (Z_le_gt_dec (Qfloor px + 1) (n - 1)) as [Hin|Hedge].
  - replace (Spec.clamp 0 (n - 1) (Qfloor px + 1)) with (Qfloor px + 1)
      by (unfold Spec.clamp; lia).
    rewrite inject_Z_plus. reflexivity.
  - assert (Hfl : Qfloor px = n - 1) by lia.
    assert (Hz : Spec.frac px == 0).
    { unfold Spec.frac. pose proof (Qfloor_le px) as Hle.
      rewrite Hfl in *. set (f := inject_Z (n - 1)) in *. lra. }
    rewrite Hz. ring.
Qed.

Lemma plane_dem_clamped dem dem_shape a b c i j :
  wf_dem dem dem_shape -> plane_dem dem dem_shape a b c ->
  exists v,
    Spec.dem_clamped dem dem_shape i j = Some v /\
    v == a * inject_Z (Spec.clamp 0 (v2i_0 dem_shape - 1) i)
         + b * inject_Z (Spec.clamp 0 (v2i_1 dem_shape - 1) j) + c.
Proof.
  intros (Hw & Hh & _) Hplane. unfold Spec.dem_clamped.
  apply Hplane; unfold Spec.clamp; lia.
Qed.

(** X2. On a DEM that samples a plane, the 2x2 gather followed by the bilinear
    interpolator returns the height of the plane at the query, for every
    coordinate inside the DEM, the last row and the last column included. *)
Theorem bilinear_exact_on_planes dem dem_shape a b c px py out :
  wf_dem dem dem_shape -> plane_dem dem dem_shape a b c ->
  clamped (v2i_0 dem_shape) px -> clamped (v2i_1 dem_shape) py ->
  exists q,
    _get_2x2_mat dem dem_shape px py out = Some q /\
    _bilinear_interpolator px py q == a * px + b * py + c.
Proof.
  intros Hwf Hplane Cx Cy.
  destruct (get_2x2_mat_clamped dem dem_shape px py out Hwf Cx Cy)
    as (q & Hq & Htaps).
  exists q. split; [assumption|].
  pose proof Hwf as (Hw & Hh & _).
  destruct (wf_dem_dims _ _ Hwf) as [Hwm Hhm].
  destruct (to_int_clamped _ _ Hwm Cx) as [_ Hbx].
  destruct (to_int_clamped _ _ Hhm Cy) as [_ Hby].
  pose proof (frac_times_next _ _ Hw Cx) as Ex.
  pose proof (frac_times_next _ _ Hh Cy) as Ey.
  assert (Hv : forall i j, (i < 2)%nat -> (j < 2)%nat ->
             mat22_get q i j ==
             a * inject_Z (Spec.clamp 0 (v2i_0 dem_shape - 1)
                                      (Qfloor px + Z.of_nat i))
             + b * inject_Z (Spec.clamp 0 (v2i_1 dem_shape - 1)
                                        (Qfloor py + Z.of_nat j)) + c).
  { intros i j Hi Hj.
    destruct (plane_dem_clamped dem dem_shape a b c
                (Qfloor px + Z.of_nat i) (Qfloor py + Z.of_nat j) Hwf Hplane)
      as (v & Hv1 & Hv2).
    rewrite (Htaps i j Hi Hj) in Hv1. injection Hv1 as <-. exact Hv2. }
  unfold _bilinear_interpolator. cbv zeta.
  rewrite !(trunc_frac_floor px (proj1 Cx)), !(trunc_frac_floor py (proj1 Cy)).
  rewrite (Hv 0 0 ltac:(lia) ltac:(lia))%nat, (Hv 1 0 ltac:(lia) ltac:(lia))%nat,
    (Hv 0 1 ltac:(lia) ltac:(lia))%nat, (Hv 1 1 ltac:(lia) ltac:(lia))%nat.
  change (Z.of_nat 0) with 0. change (Z.of_nat 1) with 1.
  rewrite !Z.add_0_r.
  replace (Spec.clamp 0 (v2i_0 dem_shape - 1) (Qfloor px)) with (Qfloor px)
    by (unfold Spec.clamp; lia).
  replace (Spec.clamp 0 (v2i_1 dem_shape - 1) (Qfloor py)) with (Qfloor py)
    by (unfold Spec.clamp; lia).
  set (R1 := inject_Z (Spec.clamp 0 (v2i_0 dem_shape - 1) (Qfloor px + 1))) in *.
  set (C1 := inject_Z (Spec.clamp 0 (v2i_1 dem_shape - 1) (Qfloor py + 1))) in *.
  set (fx := Spec.frac px) in *. set (fy := Spec.frac py) in *.
  set (X := inject_Z (Qfloor px)) in *. set (Y := inject_Z (Qfloor py)) in *.
  transitivity (c + a * (X - fx * X + fx * R1) + b * (Y - fy * Y + fy * C1))%Q;
    [ring|].
  rewrite Ex, Ey. unfold fx, fy, Spec.frac. fold X Y. ring.
Qed.

Ltac solve_plane44 :=
  let i := fresh "i" in let j := fresh "j" in
  let Hi := fresh "Hi" in let Hj := fresh "Hj" in
  intros i j Hi Hj; simpl in Hi, Hj;
  assert (i = 0 \/ i = 1 \/ i = 2 \/ i = 3) as [->|[->|[->| ->]]] by lia;
  assert (j = 0 \/ j = 1 \/ j = 2 \/ j = 3) as [->|[->|[->| ->]]] by lia;
  eexists; (split; [vm_compute; reflexivity | reflexivity]).

Lemma bilinear_exact_on_planes_witness :
  wf_dem dem44 shape44 /\ plane_dem dem44 shape44 10 1 0 /\
  clamped 4 1.5 /\ clamped 4 3 /\
  exists q,
    _get_2x2_mat dem44 shape44 1.5 3 zero22 = Some q /\
    _bilinear_interpolator 1.5 3 q == 10 * 1.5 + 1 * 3 + 0.
Proof.
  split; [solve_wf44|]. split; [solve_plane44|].
  split; [solve_clamped|]. split; [solve_clamped|].
  apply (bilinear_exact_on_planes dem44 shape44 10 1 0 1.5 3 zero22);
    [solve_wf44 | solve_plane44 | solve_clamped | solve_clamped].
Defined.

Lemma bilinear_within_patch_range_witness :
  (1 <= _bilinear_interpolator 0.25 1.5 (Mat22f 1 2 3 5))%Q /\
  (_bilinear_interpolator 0.25 1.5 (Mat22f 1 2 3 5) <= 5)%Q.
Proof.
  apply (bilinear_within_patch_range 0.25 1.5 (Mat22f 1 2 3 5) 1 5).
  - unfold Qle; simpl; lia.
  - unfold Qle; simpl; lia.
  - intros [|[|]] [|[|]] Hi Hj; try lia; unfold Qle; simpl; lia.
Defined.

(** ** Interpolation at the nodes of the edges *)

Lemma gather2_on_node dem dem_shape i j px py :
  wf_dem dem dem_shape ->
  0 <= i <= v2i_0 dem_shape - 1 -> 0 <= j <= v2i_1 dem_shape - 1 ->
  px == inject_Z i -> py == inject_Z j ->
  exists d m2,
    Spec.dem_at dem dem_shape i j = Some d /\
    _get_2x2_mat dem dem_shape px py zero22 = Some m2 /\
    _bilinear_interpolator px py m2 == d.
Proof.
  intros Hwf Hi Hj Hpx Hpy.
  destruct (on_grid_clamped (v2i_0 dem_shape) px i Hi Hpx) as [Cx Fx].
  destruct (on_grid_clamped (v2i_1 dem_shape) py j Hj Hpy) as [Cy Fy].
  destruct (get_2x2_mat_clamped dem dem_shape px py zero22 Hwf Cx Cy)
    as (m2 & Hm2 & Htap2).
  pose proof (Htap2 0%nat 0%nat ltac:(lia) ltac:(lia)) as H2.
  rewrite Fx, Fy in H2. change (Z.of_nat 0) with 0 in H2.
  rewrite !Z.add_0_r, dem_clamped_inside in H2 by lia.
  exists (mat22_get m2 0 0), m2. split; [assumption|]. split; [assumption|].
  now apply bilinear_on_grid with i j.
Qed.

Lemma gather4_on_node dem dem_shape i j px py :
  wf_dem dem dem_shape ->
  1 <= i <= v2i_0 dem_shape - 1 -> 1 <= j <= v2i_1 dem_shape - 1 ->
  i + 2 <= Int32.max_signed -> j + 2 <= Int32.max_signed ->
  px == inject_Z i -> py == inject_Z j ->
  exists d m4,
    Spec.dem_at dem dem_shape i j = Some d /\
    _get_4x4_mat dem dem_shape px py zero44 = Some m4 /\
    bicubic_value px py m4 == d.
Proof.
  intros Hwf Hi Hj Him Hjm Hpx Hpy.
  destruct (on_grid_clamped (v2i_0 dem_shape) px i ltac:(lia) Hpx) as [Cx Fx].
  destruct (on_grid_clamped (v2i_1 dem_shape) py j ltac:(lia) Hpy) as [Cy Fy].
  destruct (get_4x4_mat_nodes dem dem_shape Hwf px py zero44 Cx Cy)
    as (m4 & Hm4 & Htap4).
  { now rewrite (trunc_Z_integer _ _ Hpx). }
  { now rewrite (trunc_Z_integer _ _ Hpy). }
  pose proof (Htap4 1%nat 1%nat ltac:(lia) ltac:(lia)) as H4.
  rewrite Fx, Fy in H4.
  replace (node4 (v2i_0 dem_shape) i 1) with i in H4 by (unfold node4; lia).
  replace (node4 (v2i_1 dem_shape) j 1) with j in H4 by (unfold node4; lia).
  exists (mat44_get m4 1 1), m4. split; [assumption|]. split; [assumption|].
  apply (bicubic_on_grid _ _ _ _ _ Hpx Hpy).
Qed.

(** X3. At every node of the grid, the edges included, the thread of the 2x2
    gather followed by the bilinear interpolation stores the sample of the
    node; the thread of the 4x4 gather followed by the bicubic interpolation
    does so at every node that is not in the first row or the first column. *)
Theorem interpolation_exact_at_nodes dem dem_shape i j tid x y px py
    (q22 : list mat22f) (q44 : list mat44f) (coeffs : list vec4f)
    (out : list Q) :
  wf_dem dem dem_shape ->
  0 <= i <= v2i_0 dem_shape - 1 -> 0 <= j <= v2i_1 dem_shape - 1 ->
  x !! tid = Some px -> y !! tid = Some py ->
  px == inject_Z i -> py == inject_Z j ->
  (tid < length q22)%nat -> (tid < length q44)%nat ->
  (tid < length coeffs)%nat -> (tid < length out)%nat ->
  exists d,
    Spec.dem_at dem dem_shape i j = Some d /\
    (exists q22' out' v,
       _get_values_wp_2x2 tid dem dem_shape x y q22 = Some q22' /\
       _bilinear_interpolation tid x y q22' out = Some out' /\
       out' !! tid = Some v /\ v == d) /\
    (1 <= i -> 1 <= j ->
     i + 2 <= Int32.max_signed -> j + 2 <= Int32.max_signed ->
     exists q44' coeffs' out' v,
       _get_values_wp_4x4 tid dem dem_shape x y q44 = Some q44' /\
       _bicubic_interpolation tid x y q44' coeffs out = Some (coeffs', out') /\
       out' !! tid = Some v /\ v == d).
Proof.
  intros Hwf Hi Hj Hx Hy Hpx Hpy Hq2 Hq4 Hc Ho.
  destruct (gather2_on_node dem dem_shape i j px py Hwf Hi Hj Hpx Hpy)
    as (d & m2 & Hd & Hm2 & Hv2).
  exists d. split; [assumption|]. split.
  - exists (<[tid := m2]> q22), (<[tid := _bilinear_interpolator px py m2]> out),
      (_bilinear_interpolator px py m2).
    split; [now apply get_values_2x2_run with px py|].
    split; [apply bilinear_run; auto using list_lookup_insert_eq|].
    split; [now apply list_lookup_insert_eq | assumption].
  - intros Hi1 Hj1 Him Hjm.
    destruct (gather4_on_node dem dem_shape i j px py Hwf
                ltac:(lia) ltac:(lia) Him Hjm Hpx Hpy)
      as (d' & m4 & Hd' & Hm4 & Hv4).
    assert (d' = d) as -> by congruence.
    exists (<[tid := m4]> q44), (<[tid := cubic_weights py]> coeffs),
      (<[tid := bicubic_value px py m4]> out), (bicubic_value px py m4).
    split; [now apply get_values_4x4_run with px py|].
    split; [apply bicubic_run; auto using list_lookup_insert_eq|].
    split; [now apply list_lookup_insert_eq | assumption].
Qed.

Lemma interpolation_exact_at_nodes_witness :
  wf_dem dem44 shape44 /\
  exists d,
    Spec.dem_at dem44 shape44 3 2 = Some d /\
    (exists q22' out' v,
       _get_values_wp_2x2 0 dem44 shape44 [3%Q] [2%Q] [zero22] = Some q22' /\
       _bilinear_interpolation 0 [3%Q] [2%Q] q22' [0%Q] = Some out' /\
       out' !! 0%nat = Some v /\ v == d) /\
    (1 <= 3 -> 1 <= 2 ->
     3 + 2 <= Int32.max_signed -> 2 + 2 <= Int32.max_signed ->
     exists q44' coeffs' out' v,
       _get_values_wp_4x4 0 dem44 shape44 [3%Q] [2%Q] [zero44] = Some q44' /\
       _bicubic_interpolation 0 [3%Q] [2%Q] q44' [zero4] [0%Q]
         = Some (coeffs', out') /\
       out' !! 0%nat = Some v /\ v == d).
Proof.
  split; [solve_wf44|].
  apply (interpolation_exact_at_nodes dem44 shape44 3 2 0 [3%Q] [2%Q] 3 2
           [zero22] [zero44] [zero4] [0%Q]);
    try reflexivity; try solve_wf44; simpl; lia.
Defined.

(** ** The cubic weights *)

(** X4. Whatever the coordinate and the previous content of [coeffs], the four
    weights that [_cubic_interpolator] returns add up to 1, and their first
    and second moments about the taps at offsets -1, 0, 1, 2 are the
    fractional part and its square. *)
Theorem cubic_weights_moments x coeffs :
  let c := _cubic_interpolator x coeffs in
  let t := (x - Float.trunc x)%Q in
  vec4_get c 0 + vec4_get c 1 + vec4_get c 2 + vec4_get c 3 == 1 /\
  - vec4_get c 0 + vec4_get c 2 + 2 * vec4_get c 3 == t /\
  vec4_get c 0 + vec4_get c 2 + 4 * vec4_get c 3 == t * t.
Proof.
  unfold _cubic_interpolator. cbv zeta.
  cbn [vec4_get vec4_set v4f_0 v4f_1 v4f_2 v4f_3].
  repeat split; ring.
Qed.

(** X5. The weights are mirrored when the fraction is: the weight of tap [k]
    at the fraction [1 - t] is the weight of tap [3 - k] at the fraction
    [t]. *)
Theorem cubic_weights_mirror x x' coeffs coeffs' k :
  (x' - Float.trunc x' == 1 - (x - Float.trunc x))%Q -> (k < 4)%nat ->
  vec4_get (_cubic_interpolator x' coeffs') k ==
  vec4_get (_cubic_interpolator x coeffs) (3 - k).
Proof.
  intros Hm Hk. unfold _cubic_interpolator. cbv zeta.
  destruct k as [|[|[|[|]]]]; try lia;
    cbn [Nat.sub vec4_get vec4_set v4f_0 v4f_1 v4f_2 v4f_3];
    rewrite Hm; ring.
Qed.

Lemma cubic_weights_mirror_witness :
  vec4_get (_cubic_interpolator 2.75 zero4) 0 ==
  vec4_get (_cubic_interpolator 5.25 zero4) (3 - 0).
Proof.
  apply (cubic_weights_mirror 5.25 2.75 zero4 zero4 0); [reflexivity | lia].
Defined.

(** ** The bicubic interpolation on polynomial patches *)

Lemma bicubic_value_biquadratic x y q c :
  (forall i j, (i < 4)%nat -> (j < 4)%nat ->
     mat44_get q i j ==
     biquadratic c (inject_Z (Z.of_nat i) - 1) (inject_Z (Z.of_nat j) - 1)) ->
  bicubic_value x y q ==
  biquadratic c (x - Float.trunc x) (y - Float.trunc y).
Proof.
  intros Hq. unfold bicubic_value, blend_col. cbv zeta.
  rewrite (Hq 0 0 ltac:(lia) ltac:(lia))%nat, (Hq 1 0 ltac:(lia) ltac:(lia))%nat,
    (Hq 2 0 ltac:(lia) ltac:(lia))%nat, (Hq 3 0 ltac:(lia) ltac:(lia))%nat,
    (Hq 0 1 ltac:(lia) ltac:(lia))%nat, (Hq 1 1 ltac:(lia) ltac:(lia))%nat,
    (Hq 2 1 ltac:(lia) ltac:(lia))%nat, (Hq 3 1 ltac:(lia) ltac:(lia))%nat,
    (Hq 0 2 ltac:(lia) ltac:(lia))%nat, (Hq 1 2 ltac:(lia) ltac:(lia))%nat,
    (Hq 2 2 ltac:(lia) ltac:(lia))%nat, (Hq 3 2 ltac:(lia) ltac:(lia))%nat,
    (Hq 0 3 ltac:(lia) ltac:(lia))%nat, (Hq 1 3 ltac:(lia) ltac:(lia))%nat,
    (Hq 2 3 ltac:(lia) ltac:(lia))%nat, (Hq 3 3 ltac:(lia) ltac:(lia))%nat.
  change (Z.of_nat 0) with 0. change (Z.of_nat 1) with 1.
  change (Z.of_nat 2) with 2. change (Z.of_nat 3) with 3.
  unfold inject_Z, biquadratic, cubic_weights, _cubic_interpolator. cbv zeta.
  cbn [vec4_get vec4_set v4f_0 v4f_1 v4f_2 v4f_3].
  ring.
Qed.

(** X6. A thread of [_bicubic_interpolation] reconstructs exactly every patch
    that samples a polynomial of degree at most 2 in each direction (a
    constant, a plane, a paraboloid): it stores the value of the polynomial at
    the fractional parts of the coordinates. *)
Theorem bicubic_reproduces_biquadratics tid x y q coeffs out xt yt qt c :
  x !! tid = Some xt -> y !! tid = Some yt -> q !! tid = Some qt ->
  (tid < length coeffs)%nat -> (tid < length out)%nat ->
  (forall i j, (i < 4)%nat -> (j < 4)%nat ->
     mat44_get qt i j ==
     biquadratic c (inject_Z (Z.of_nat i) - 1) (inject_Z (Z.of_nat j) - 1)) ->
  exists coeffs' out' v,
    _bicubic_interpolation tid x y q coeffs out = Some (coeffs', out') /\
    out' !! tid = Some v /\
    v == biquadratic c (xt - Float.trunc xt) (yt - Float.trunc yt).
Proof.
  intros Hx Hy Hq Hc Ho Hpatch.
  exists (<[tid := cubic_weights yt]> coeffs),
    (<[tid := bicubic_value xt yt qt]> out), (bicubic_value xt yt qt).
  split; [now apply bicubic_run|].
  split; [now apply list_lookup_insert_eq|].
  now apply bicubic_value_biquadratic.
Qed.

Lemma bicubic_reproduces_biquadratics_witness :
  exists coeffs' out' v,
    _bicubic_interpolation 0 [2.5%Q] [7.25%Q]
      [Mat44f (Vec4f 0 1 2 3) (Vec4f (-1) 0 1 2) (Vec4f 0 1 2 3) (Vec4f 3 4 5 6)]
      [zero4] [0%Q] = Some (coeffs', out') /\
    out' !! 0%nat = Some v /\
    v == biquadratic paraboloid_coeffs (2.5 - Float.trunc 2.5)
                                       (7.25 - Float.trunc 7.25).
Proof.
  apply (bicubic_reproduces_biquadratics 0 [2.5%Q] [7.25%Q]
           [Mat44f (Vec4f 0 1 2 3) (Vec4f (-1) 0 1 2) (Vec4f 0 1 2 3)
                   (Vec4f 3 4 5 6)]
           [zero4] [0%Q] 2.5 7.25
           (Mat44f (Vec4f 0 1 2 3) (Vec4f (-1) 0 1 2) (Vec4f 0 1 2 3)
                   (Vec4f 3 4 5 6))
           paraboloid_coeffs);
    try reflexivity; try (simpl; lia).
  intros [|[|[|[|]]]] [|[|[|[|]]]] Hi Hj; try lia; vm_compute; reflexivity.
Defined.

(** X7. On a DEM that samples a plane, the thread of the 4x4 gather followed
    by the bicubic interpolation stores the height of the plane at the query,
    for every coordinate whose 4x4 neighbourhood lies inside the DEM. *)
Theorem bicubic_exact_on_planes dem dem_shape a b c tid x y px py
    (q44 : list mat44f) (coeffs : list vec4f) (out : list Q) :
  wf_dem dem dem_shape -> plane_dem dem dem_shape a b c ->
  x !! tid = Some px -> y !! tid = Some py ->
  (0 <= px)%Q -> (0 <= py)%Q ->
  1 <= Qfloor px <= v2i_0 dem_shape - 3 ->
  1 <= Qfloor py <= v2i_1 dem_shape - 3 ->
  (tid < length q44)%nat -> (tid < length coeffs)%nat ->
  (tid < length out)%nat ->
  exists q44' coeffs' out' v,
    _get_values_wp_4x4 tid dem dem_shape x y q44 = Some q44' /\
    _bicubic_interpolation tid x y q44' coeffs out = Some (coeffs', out') /\
    out' !! tid = Some v /\ v == a * px + b * py + c.
Proof.
  intros Hwf Hplane Hx Hy Hx0 Hy0 Hfx Hfy Hq Hc Ho.
  pose proof Hwf as (Hw & Hh & _).
  destruct (wf_dem_dims _ _ Hwf) as [Hwm Hhm].
  assert (Cx : clamped (v2i_0 dem_shape) px).
  { split; [assumption|]. apply Qlt_le_weak.
    apply Qlt_le_trans with (inject_Z (Qfloor px + 1)); [apply Qlt_floor|].
    rewrite <- Zle_Qle. lia. }
  assert (Cy : clamped (v2i_1 dem_shape) py).
  { split; [assumption|]. apply Qlt_le_weak.
    apply Qlt_le_trans with (inject_Z (Qfloor py + 1)); [apply Qlt_floor|].
    rewrite <- Zle_Qle. lia. }
  destruct (get_4x4_mat_nodes dem dem_shape Hwf px py zero44 Cx Cy)
    as (m4 & Hm4 & Htaps).
  { rewrite trunc_Z_floor by assumption. lia. }
  { rewrite trunc_Z_floor by assumption. lia. }
  exists (<[tid := m4]> q44), (<[tid := cubic_weights py]> coeffs),
    (<[tid := bicubic_value px py m4]> out), (bicubic_value px py m4).
  split; [now apply get_values_4x4_run with px py|].
  split; [apply bicubic_run; auto using list_lookup_insert_eq|].
  split; [now apply list_lookup_insert_eq|].
  rewrite (bicubic_value_biquadratic px py m4
             (plane_coeffs (a * inject_Z (Qfloor px) + b * inject_Z (Qfloor py) + c)
                           a b)).
  - unfold biquadratic, plane_coeffs, Float.trunc.
    rewrite !trunc_Z_floor by assumption. ring.
  - intros i j Hi Hj.
    destruct (Hplane (node4 (v2i_0 dem_shape) (Qfloor px) i)
                     (node4 (v2i_1 dem_shape) (Qfloor py) j))
      as (v & Hv1 & Hv2); [unfold node4; lia..|].
    rewrite (Htaps i j Hi Hj) in Hv1. injection Hv1 as <-. rewrite Hv2.
    replace (node4 (v2i_0 dem_shape) (Qfloor px) i)
      with (Qfloor px + (Z.of_nat i - 1)) by (unfold node4; lia).
    replace (node4 (v2i_1 dem_shape) (Qfloor py) j)
      with (Qfloor py + (Z.of_nat j - 1)) by (unfold node4; lia).
    rewrite !inject_Z_plus. unfold Zminus. rewrite !inject_Z_plus.
    unfold biquadratic, plane_coeffs. change (inject_Z (Z.opp 1)) with (-1)%Q. ring.
Qed.

Lemma bicubic_exact_on_planes_witness :
  wf_dem dem44 shape44 /\ plane_dem dem44 shape44 10 1 0 /\
  exists q44' coeffs' out' v,
    _get_values_wp_4x4 0 dem44 shape44 [1.5%Q] [1.25%Q] [zero44] = Some q44' /\
    _bicubic_interpolation 0 [1.5%Q] [1.25%Q] q44' [zero4] [0%Q]
      = Some (coeffs', out') /\
    out' !! 0%nat = Some v /\ v == 10 * 1.5 + 1 * 1.25 + 0.
Proof.
  split; [solve_wf44|]. split; [solve_plane44|].
  apply (bicubic_exact_on_planes dem44 shape44 10 1 0 0 [1.5%Q] [1.25%Q]
           1.5 1.25 [zero44] [zero4] [0%Q]);
    try reflexivity; try solve_wf44; try solve_plane44;
    try (unfold Qle; simpl; lia); try (vm_compute; split; discriminate);
    simpl; lia.
Defined.

(** ** The bicubic path away from the lower edges *)

(** X8. For a coordinate inside the DEM whose integer parts are at least 1,
    the thread of the 4x4 gather followed by the bicubic interpolation stores
    the Catmull-Rom reconstruction: the separable convolution, with the kernel
    of coefficient -0.5, of the neighbourhood at offsets -1 .. 2 with every
    index clamped on its own. *)
Theorem bicubic_is_catmull_rom_off_lower_edge dem dem_shape tid x y px py
    (q44 : list mat44f) (coeffs : list vec4f) (out : list Q) :
  wf_dem dem dem_shape ->
  x !! tid = Some px -> y !! tid = Some py ->
  clamped (v2i_0 dem_shape) px -> clamped (v2i_1 dem_shape) py ->
  1 <= Qfloor px -> 1 <= Qfloor py ->
  Qfloor px + 2 <= Int32.max_signed -> Qfloor py + 2 <= Int32.max_signed ->
  (tid < length q44)%nat -> (tid < length coeffs)%nat ->
  (tid < length out)%nat ->
  exists r q44' coeffs' out' v,
    Spec.bicubic dem dem_shape px py = Some r /\
    _get_values_wp_4x4 tid dem dem_shape x y q44 = Some q44' /\
    _bicubic_interpolation tid x y q44' coeffs out = Some (coeffs', out') /\
    out' !! tid = Some v /\ v == r.
Proof.
  intros Hwf Hx Hy Cx Cy Hx1 Hy1 Hxm Hym Hq Hc Ho.
  destruct (bicubic_sampling_off_lower_edge dem dem_shape px py zero44
              Hwf Cx Cy Hx1 Hy1 Hxm Hym)
    as (m4 & r & Hm4 & _ & Hr & Hv).
  exists r, (<[tid := m4]> q44), (<[tid := cubic_weights py]> coeffs),
    (<[tid := bicubic_value px py m4]> out), (bicubic_value px py m4).
  split; [assumption|].
  split; [now apply get_values_4x4_run with px py|].
  split; [apply bicubic_run; auto using list_lookup_insert_eq|].
  split; [now apply list_lookup_insert_eq | assumption].
Qed.

Lemma bicubic_is_catmull_rom_off_lower_edge_witness :
  wf_dem dem44 shape44 /\ clamped 4 2.5 /\ clamped 4 3 /\
  exists r q44' coeffs' out' v,
    Spec.bicubic dem44 shape44 2.5 3 = Some r /\
    _get_values_wp_4x4 0 dem44 shape44 [2.5%Q] [3%Q] [zero44] = Some q44' /\
    _bicubic_interpolation 0 [2.5%Q] [3%Q] q44' [zero4] [0%Q]
      = Some (coeffs', out') /\
    out' !! 0%nat = Some v /\ v == r.
Proof.
  split; [solve_wf44|]. split; [solve_clamped|]. split; [solve_clamped|].
  apply (bicubic_is_catmull_rom_off_lower_edge dem44 shape44 0 [2.5%Q] [3%Q]
           2.5 3 [zero44] [zero4] [0%Q]);
    try reflexivity; try solve_wf44; try solve_clamped;
    try (vm_compute; discriminate); simpl; lia.
Defined.

(** ** The gathers at the upper edges *)

(** X9. In the last row of the DEM both gathers hold the edge: the two rows of
    the 2x2 patch are equal, and the 4x4 gather reads the rows w-2, w-1, w-1,
    w-1 of the DEM. *)
Theorem gathers_hold_the_upper_edge dem dem_shape px py out2 out4 :
  wf_dem dem dem_shape ->
  clamped (v2i_0 dem_shape) px -> clamped (v2i_1 dem_shape) py ->
  Qfloor px = v2i_0 dem_shape - 1 -> 2 <= v2i_0 dem_shape ->
  v2i_0 dem_shape + 1 <= Int32.max_signed ->
  v2i_1 dem_shape + 1 <= Int32.max_signed ->
  exists q2 q4,
    _get_2x2_mat dem dem_shape px py out2 = Some q2 /\
    _get_4x4_mat dem dem_shape px py out4 = Some q4 /\
    (forall j, (j < 2)%nat -> mat22_get q2 1 j = mat22_get q2 0 j) /\
    (forall j, (j < 4)%nat ->
       mat44_get q4 2 j = mat44_get q4 1 j /\
       mat44_get q4 3 j = mat44_get q4 1 j /\
       Spec.dem_at dem dem_shape (v2i_0 dem_shape - 2)
                   (node4 (v2i_1 dem_shape) (Qfloor py) j)
       = Some (mat44_get q4 0 j) /\
       Spec.dem_at dem dem_shape (v2i_0 dem_shape - 1)
                   (node4 (v2i_1 dem_shape) (Qfloor py) j)
       = Some (mat44_get q4 1 j)).
Proof.
  intros Hwf Cx Cy Hlast Hw2 Hwm Hhm.
  destruct (wf_dem_dims _ _ Hwf) as [Hw Hh].
  destruct (to_int_clamped _ _ Hh Cy) as [_ Hby].
  destruct (get_2x2_mat_clamped dem dem_shape px py out2 Hwf Cx Cy)
    as (q2 & Hq2 & Htap2).
  destruct (get_4x4_mat_nodes dem dem_shape Hwf px py out4 Cx Cy)
    as (q4 & Hq4 & Htap4).
  { rewrite trunc_Z_floor by apply Cx. lia. }
  { rewrite trunc_Z_floor by apply Cy. lia. }
  exists q2, q4. split; [assumption|]. split; [assumption|]. split.
  - intros j Hj.
    pose proof (Htap2 0%nat j ltac:(lia) Hj) as H0.
    pose proof (Htap2 1%nat j ltac:(lia) Hj) as H1.
    unfold Spec.dem_clamped in H0, H1.
    replace (Spec.clamp 0 (v2i_0 dem_shape - 1) (Qfloor px + Z.of_nat 1))
      with (Spec.clamp 0 (v2i_0 dem_shape - 1) (Qfloor px + Z.of_nat 0))
      in H1 by (unfold Spec.clamp; lia).
    congruence.
  - intros j Hj.
    pose proof (Htap4 0%nat j ltac:(lia) Hj) as H0.
    pose proof (Htap4 1%nat j ltac:(lia) Hj) as H1.
    pose proof (Htap4 2%nat j ltac:(lia) Hj) as H2.
    pose proof (Htap4 3%nat j ltac:(lia) Hj) as H3.
    replace (node4 (v2i_0 dem_shape) (Qfloor px) 0)
      with (v2i_0 dem_shape - 2) in H0 by (unfold node4; lia).
    replace (node4 (v2i_0 dem_shape) (Qfloor px) 1)
      with (v2i_0 dem_shape - 1) in H1 by (unfold node4; lia).
    replace (node4 (v2i_0 dem_shape) (Qfloor px) 2)
      with (v2i_0 dem_shape - 1) in H2 by (unfold node4; lia).
    replace (node4 (v2i_0 dem_shape) (Qfloor px) 3)
      with (v2i_0 dem_shape - 1) in H3 by (unfold node4; lia).
    repeat split; congruence.
Qed.

Lemma gathers_hold_the_upper_edge_witness :
  wf_dem dem44 shape44 /\ clamped 4 3 /\ clamped 4 1.5 /\
  exists q2 q4,
    _get_2x2_mat dem44 shape44 3 1.5 zero22 = Some q2 /\
    _get_4x4_mat dem44 shape44 3 1.5 zero44 = Some q4 /\
    (forall j, (j < 2)%nat -> mat22_get q2 1 j = mat22_get q2 0 j) /\
    (forall j, (j < 4)%nat ->
       mat44_get q4 2 j = mat44_get q4 1 j /\
       mat44_get q4 3 j = mat44_get q4 1 j /\
       Spec.dem_at dem44 shape44 (4 - 2) (node4 4 (Qfloor 1.5) j)
       = Some (mat44_get q4 0 j) /\
       Spec.dem_at dem44 shape44 (4 - 1) (node4 4 (Qfloor 1.5) j)
       = Some (mat44_get q4 1 j)).
Proof.
  split; [solve_wf44|]. split; [solve_clamped|]. split; [solve_clamped|].
  apply (gathers_hold_the_upper_edge dem44 shape44 3 1.5 zero22 zero44);
    try reflexivity; try solve_wf44; try solve_clamped;
    try (vm_compute; discriminate); simpl; lia.
Defined.

(** ** The gathers outside of the DEM *)

(** A flat index formed from a row counted from the end of the DEM: the
    array reads it as the row [r mod w]. *)
Lemma load_row_from_the_end dem dem_shape r c :
  wf_dem dem dem_shape ->
  - v2i_0 dem_shape <= r <= 0 -> 0 <= c < v2i_1 dem_shape ->
  exists v,
    load dem (r * v2i_1 dem_shape + c) = Some v /\
    Spec.dem_at dem dem_shape (r mod v2i_0 dem_shape) c = Some v.
Proof.
  intros Hwf Hr Hc. pose proof Hwf as (Hw & Hh & Hlen & Hcap).
  set (w := v2i_0 dem_shape) in *. set (h := v2i_1 dem_shape) in *.
  assert (Hrow : 0 <= r mod w < w) by (apply Z.mod_pos_bound; lia).
  destruct (dem_at_in_range dem dem_shape Hwf (r mod w) c) as (v & Hv & Hl);
    [assumption..|].
  destruct (flat_index_small dem dem_shape Hwf (r mod w) c) as [Hidx Hb];
    [assumption..|].
  fold w h in Hidx, Hb, Hl. rewrite Hidx in Hl.
  exists v. split; [|exact Hv].
  destruct (Z.eq_dec r 0) as [->|Hneg].
  - rewrite Z.mod_0_l in Hl by lia. exact Hl.
  - assert (Hmod : r mod w = r + w)
      by (symmetry; apply (Z.mod_unique r w (-1) (r + w)); lia).
    assert (Hrh : r * h <= - h) by nia.
    assert (Hlow : - (w * h) <= r * h) by nia.
    rewrite load_negative by lia.
    rewrite Hmod in Hl.
    replace (r * h + c + Z.of_nat (length dem)) with ((r + w) * h + c) by lia.
    exact Hl.
Qed.

(** X10. [_get_2x2_mat] does not clamp the row.  A row coordinate past the
    last row makes the first load of the gather fall outside of the array.  A
    negative one, down to minus the number of rows, is read from the end of
    the array, where negative indices count from: the patch holds the rows [x0
    mod w] and [(x0 + 1) mod w] of the DEM. *)
Theorem gather_2x2_rows_outside dem dem_shape x y out x0 :
  wf_dem dem dem_shape -> clamped (v2i_1 dem_shape) y ->
  Float.to_int x = Some x0 ->
  (v2i_0 dem_shape <= x0 ->
   x0 * v2i_1 dem_shape + v2i_1 dem_shape <= Int32.max_signed ->
   _get_2x2_mat dem dem_shape x y out = None) /\
  (- v2i_0 dem_shape <= x0 < 0 ->
   exists q,
     _get_2x2_mat dem dem_shape x y out = Some q /\
     forall j, (j < 2)%nat ->
       let c := Spec.clamp 0 (v2i_1 dem_shape - 1) (Qfloor y + Z.of_nat j) in
       Spec.dem_at dem dem_shape (x0 mod v2i_0 dem_shape) c
         = Some (mat22_get q 0 j) /\
       Spec.dem_at dem dem_shape ((x0 + 1) mod v2i_0 dem_shape) c
         = Some (mat22_get q 1 j)).
Proof.
  intros Hwf Cy Hx0.
  pose proof Hwf as (Hw & Hh & Hlen & Hcap).
  destruct (wf_dem_dims _ _ Hwf) as [Hwm Hhm].
  destruct (to_int_clamped _ _ Hhm Cy) as [Hy0 Hby].
  set (w := v2i_0 dem_shape) in *. set (h := v2i_1 dem_shape) in *.
  unfold Int32.max_signed in Hcap, Hwm, Hhm.
  split.
  - intros Hpast Hmax.
    rewrite get_2x2_mat_table, Hx0, Hy0. unfold mat22_of. cbn [row2 col2].
    fold w h. unfold Int32.max_signed in Hmax.
    assert (w * h <= x0 * h) by (apply Z.mul_le_mono_nonneg_r; lia).
    rewrite int32_mul_small, int32_add_small
      by (unfold Int32.min_signed, Int32.max_signed; lia).
    rewrite load_past_the_end by lia. reflexivity.
  - intros Hneg.
    assert (Hc : forall j, (j < 2)%nat ->
              col2 dem_shape (Qfloor y) j
              = Spec.clamp 0 (h - 1) (Qfloor y + Z.of_nat j)
              /\ 0 <= Spec.clamp 0 (h - 1) (Qfloor y + Z.of_nat j) < h).
    { intros j Hj. split; [|now apply clamp_bounds].
      destruct j as [|[|]]; [| |lia]; cbn [col2]; fold h.
      - unfold Spec.clamp. lia.
      - rewrite int32_add_small, int32_sub_small
          by (unfold Int32.min_signed, Int32.max_signed; lia).
        unfold Spec.clamp. lia. }
    assert (Hr0 : row2 dem_shape x0 0 = x0 * h).
    { cbn [row2]. fold h.
      assert (- (w * h) <= x0 * h <= 0) by nia.
      apply int32_mul_small.
      unfold Int32.min_signed, Int32.max_signed. lia. }
    assert (Hr1 : row2 dem_shape x0 1 = (x0 + 1) * h).
    { cbn [row2]. fold w h.
      rewrite int32_add_small, int32_sub_small
        by (unfold Int32.min_signed, Int32.max_signed; lia).
      replace (Z.min (x0 + 1) (w - 1)) with (x0 + 1) by lia.
      assert (- (w * h) <= (x0 + 1) * h <= 0) by nia.
      apply int32_mul_small.
      unfold Int32.min_signed, Int32.max_signed. lia. }
    assert (Hload : forall i j, (i < 2)%nat -> (j < 2)%nat ->
              exists v,
                load dem (Int32.add (row2 dem_shape x0 i)
                                    (col2 dem_shape (Qfloor y) j)) = Some v /\
                Spec.dem_at dem dem_shape ((x0 + Z.of_nat i) mod w)
                  (Spec.clamp 0 (h - 1) (Qfloor y + Z.of_nat j)) = Some v).
    { intros i j Hi Hj. destruct (Hc j Hj) as [-> Hcb].
      assert (Hrow : row2 dem_shape x0 i = (x0 + Z.of_nat i) * h)
        by (destruct i as [|[|]]; [| |lia];
            [rewrite Hr0; f_equal; lia | rewrite Hr1; f_equal; lia]).
      rewrite Hrow.
      assert (- w <= x0 + Z.of_nat i <= 0) by lia.
      assert (- (w * h) <= (x0 + Z.of_nat i) * h <= 0) by nia.
      rewrite int32_add_small
        by (unfold Int32.min_signed, Int32.max_signed; lia).
      now apply load_row_from_the_end. }
    rewrite get_2x2_mat_table, Hx0, Hy0. unfold mat22_of.
    destruct (Hload 0%nat 0%nat) as (q00 & L00 & D00); [lia..|].
    destruct (Hload 1%nat 0%nat) as (q10 & L10 & D10); [lia..|].
    destruct (Hload 0%nat 1%nat) as (q01 & L01 & D01); [lia..|].
    destruct (Hload 1%nat 1%nat) as (q11 & L11 & D11); [lia..|].
    rewrite L00, L10, L01, L11. eexists. split; [reflexivity|].
    change (Z.of_nat 1) with 1 in *. change (Z.of_nat 0) with 0 in *.
    rewrite Z.add_0_r in D00, D01.
    intros [|[|]] Hj; [| |lia]; cbv zeta;
      cbn [mat22_get m22_00 m22_01 m22_10 m22_11];
      change (Z.of_nat 1) with 1; change (Z.of_nat 0) with 0;
      split; assumption.
Qed.

Lemma gather_2x2_rows_outside_witness :
  _get_2x2_mat dem44 shape44 4 2 zero22 = None /\
  exists q,
    _get_2x2_mat dem44 shape44 (-1.5) 2 zero22 = Some q /\
    forall j, (j < 2)%nat ->
      let c := Spec.clamp 0 (4 - 1) (Qfloor 2 + Z.of_nat j) in
      Spec.dem_at dem44 shape44 ((-1) mod 4) c = Some (mat22_get q 0 j) /\
      Spec.dem_at dem44 shape44 ((-1 + 1) mod 4) c = Some (mat22_get q 1 j).
Proof.
  split.
  - apply (gather_2x2_rows_outside dem44 shape44 4 2 zero22 4);
      try solve_wf44; try solve_clamped; try reflexivity;
      vm_compute; discriminate.
  - apply (gather_2x2_rows_outside dem44 shape44 (-1.5) 2 zero22 (-1));
      try solve_wf44; try solve_clamped; reflexivity.
Defined.

(** X11. [_get_2x2_mat] does not check the column either: past the last
    column, as long as the flat index stays inside the array, the gather reads
    without fault the samples of the following rows. *)
Theorem gather_2x2_wraps_columns dem dem_shape x y out x0 y0 :
  wf_dem dem dem_shape ->
  Float.to_int x = Some x0 -> Float.to_int y = Some y0 ->
  0 <= x0 <= v2i_0 dem_shape - 1 -> v2i_1 dem_shape <= y0 ->
  Z.min (x0 + 1) (v2i_0 dem_shape - 1) * v2i_1 dem_shape + y0
    < v2i_0 dem_shape * v2i_1 dem_shape ->
  exists q,
    _get_2x2_mat dem dem_shape x y out = Some q /\
    Spec.dem_at dem dem_shape (x0 + y0 / v2i_1 dem_shape)
                (y0 mod v2i_1 dem_shape) = Some (mat22_get q 0 0) /\
    Spec.dem_at dem dem_shape x0 (v2i_1 dem_shape - 1)
      = Some (mat22_get q 0 1).
Proof.
  intros Hwf Hx0 Hy0 Hbx Hy Hflat.
  pose proof Hwf as (Hw & Hh & Hlen & Hcap).
  set (w := v2i_0 dem_shape) in *. set (h := v2i_1 dem_shape) in *.
  unfold Int32.max_signed in Hcap.
  assert (Hx1 : 0 <= Z.min (x0 + 1) (w - 1) <= w - 1) by lia.
  assert (Hm0 : 0 <= x0 * h) by (apply Z.mul_nonneg_nonneg; lia).
  assert (Hm1 : 0 <= Z.min (x0 + 1) (w - 1) * h)
    by (apply Z.mul_nonneg_nonneg; lia).
  assert (Hle : x0 * h <= Z.min (x0 + 1) (w - 1) * h)
    by (apply Z.mul_le_mono_nonneg_r; lia).
  assert (Hlast : Z.min (x0 + 1) (w - 1) * h <= (w - 1) * h)
    by (apply Z.mul_le_mono_nonneg_r; lia).
  rewrite get_2x2_mat_table, Hx0, Hy0. unfold mat22_of. cbn [row2 col2].
  fold w h.
  rewrite !(int32_add_small x0 1), !(int32_add_small y0 1),
    !(int32_sub_small w 1), !(int32_sub_small h 1)
    by (unfold Int32.min_signed, Int32.max_signed; lia).
  replace (Z.min (y0 + 1) (h - 1)) with (h - 1) by lia.
  rewrite !int32_mul_small
    by (unfold Int32.min_signed, Int32.max_signed; lia).
  rewrite !int32_add_small
    by (unfold Int32.min_signed, Int32.max_signed; lia).
  destruct (load_in_range dem (x0 * h + y0)) as [q00 H00]; [lia|].
  destruct (load_in_range dem (Z.min (x0 + 1) (w - 1) * h + y0))
    as [q10 H10]; [lia|].
  destruct (load_in_range dem (x0 * h + (h - 1))) as [q01 H01]; [lia|].
  destruct (load_in_range dem (Z.min (x0 + 1) (w - 1) * h + (h - 1)))
    as [q11 H11]; [lia|].
  rewrite H00, H10, H01, H11. eexists. split; [reflexivity|].
  cbn [mat22_get m22_00 m22_01].
  assert (Hdiv : 0 <= y0 / h) by (apply Z.div_pos; lia).
  pose proof (Z.mod_pos_bound y0 h Hh) as Hmod.
  pose proof (Z.div_mod y0 h ltac:(lia)) as Hdm.
  assert (Hrow : x0 + y0 / h < w) by nia.
  split.
  - unfold Spec.dem_at. fold w h.
    destruct (Z.leb_spec 0 (x0 + y0 / h)); [|lia].
    destruct (Z.ltb_spec (x0 + y0 / h) w); [|lia].
    destruct (Z.leb_spec 0 (y0 mod h)); [|lia].
    destruct (Z.ltb_spec (y0 mod h) h); [|lia].
    simpl. replace ((x0 + y0 / h) * h + y0 mod h) with (x0 * h + y0) by lia.
    rewrite load_nonneg in H00 by lia. exact H00.
  - unfold Spec.dem_at. fold w h.
    destruct (Z.leb_spec 0 x0); [|lia].
    destruct (Z.ltb_spec x0 w); [|lia].
    destruct (Z.leb_spec 0 (h - 1)); [|lia].
    destruct (Z.ltb_spec (h - 1) h); [|lia].
    simpl. rewrite load_nonneg in H01 by lia. exact H01.
Qed.

Lemma gather_2x2_wraps_columns_witness :
  exists q,
    _get_2x2_mat dem44 shape44 1 5 zero22 = Some q /\
    Spec.dem_at dem44 shape44 (1 + 5 / 4) (5 mod 4) = Some (mat22_get q 0 0) /\
    Spec.dem_at dem44 shape44 1 (4 - 1) = Some (mat22_get q 0 1).
Proof.
  apply (gather_2x2_wraps_columns dem44 shape44 1 5 zero22 1 5);
    try solve_wf44; try reflexivity; simpl; lia.
Defined.

(** X12. [_get_4x4_mat] clamps the first row and column at 0, and takes the
    other three from them: every coordinate whose integer part is at most 1,
    the negative ones included, gathers the same rows (or columns). *)
Theorem gather_4x4_same_patch_below_two dem dem_shape x y x' y' out out'
    ix iy ix' iy' :
  Float.to_int x = Some ix -> Float.to_int y = Some iy ->
  Float.to_int x' = Some ix' -> Float.to_int y' = Some iy' ->
  Int32.min_signed < ix <= 1 -> Int32.min_signed < ix' <= 1 ->
  Int32.min_signed < iy <= 1 -> Int32.min_signed < iy' <= 1 ->
  _get_4x4_mat dem dem_shape x y out = _get_4x4_mat dem dem_shape x' y' out'.
Proof.
  intros Hx Hy Hx' Hy' Bx Bx' By By'.
  rewrite !get_4x4_mat_table, Hx, Hy, Hx', Hy'.
  assert (Hs : forall a, Int32.min_signed < a <= 1 ->
                         Z.max (Int32.sub a 1) 0 = 0).
  { intros a Ha. rewrite int32_sub_small
      by (unfold Int32.min_signed, Int32.max_signed in *; lia). lia. }
  unfold row4, col4. rewrite (Hs ix Bx), (Hs ix' Bx'), (Hs iy By), (Hs iy' By').
  reflexivity.
Qed.

Lemma gather_4x4_same_patch_below_two_witness :
  _get_4x4_mat dem44 shape44 (-7.5) 1.25 zero44
  = _get_4x4_mat dem44 shape44 1.75 (-0.5) zero44.
Proof.
  apply (gather_4x4_same_patch_below_two dem44 shape44 (-7.5) 1.25 1.75 (-0.5)
           zero44 zero44 (-7) 1 1 0);
    try reflexivity; vm_compute; (split; [reflexivity | discriminate]).
Defined.

(** ** Launches and their buffers *)

Lemma run_threads_array_frame {A : Type}
    (body : nat -> list A -> option (list A)) :
  (forall t a a', body t a = Some a' -> exists m, a' = <[t := m]> a) ->
  forall tids a a', run_threads body tids a = Some a' ->
    length a' = length a /\ forall j, j ∉ tids -> a' !! j = a !! j.
Proof.
  intros Hbody. induction tids as [|t ts IH]; intros a a' Hrun; simpl in Hrun.
  - injection Hrun as <-. done.
  - destruct (body t a) as [a1|] eqn:Ht; [|discriminate].
    destruct (Hbody _ _ _ Ht) as [m ->].
    destruct (IH _ _ Hrun) as [Hlen Hrest]. split.
    + now rewrite Hlen, length_insert.
    + intros j Hj. apply not_elem_of_cons in Hj as [Hne Hj].
      rewrite (Hrest j Hj). now apply list_lookup_insert_ne.
Qed.

Lemma run_threads_pair_frame {A B : Type}
    (body : nat -> list A * list B -> option (list A * list B)) :
  (forall t a b a' b', body t (a, b) = Some (a', b') ->
     exists m m', a' = <[t := m]> a /\ b' = <[t := m']> b) ->
  forall tids a b a' b', run_threads body tids (a, b) = Some (a', b') ->
    length a' = length a /\ length b' = length b /\
    forall j, j ∉ tids -> a' !! j = a !! j /\ b' !! j = b !! j.
Proof.
  intros Hbody. induction tids as [|t ts IH]; intros a b a' b' Hrun;
    simpl in Hrun.
  - injection Hrun as <- <-. done.
  - destruct (body t (a, b)) as [[a1 b1]|] eqn:Ht; [|discriminate].
    destruct (Hbody _ _ _ _ _ Ht) as (m & m' & -> & ->).
    destruct (IH _ _ _ _ Hrun) as (Hla & Hlb & Hrest). split; [|split].
    + now rewrite Hla, length_insert.
    + now rewrite Hlb, length_insert.
    + intros j Hj. apply not_elem_of_cons in Hj as [Hne Hj].
      destruct (Hrest j Hj) as [-> ->].
      split; now apply list_lookup_insert_ne.
Qed.

Lemma not_in_launch n j : (n <= j)%nat -> j ∉ seq 0 n.
Proof. intros Hj Hin. apply elem_of_seq in Hin. lia. Qed.

(** X16. A launch over [n] threads writes in the first [n] entries of its
    output buffers only: for each of the six kernels, the buffers keep their
    length, and every entry of index [n] or more is left as it was. *)
Theorem launch_leaves_the_rest_of_the_buffers n j :
  (n <= j)%nat ->
  (forall points coord mpp dem_shape x y x' y',
     launch_preprocess n points coord mpp dem_shape (x, y) = Some (x', y') ->
     length x' = length x /\ length y' = length y /\
     x' !! j = x !! j /\ y' !! j = y !! j) /\
  (forall dem dem_shape x y out out',
     launch_get_values_2x2 n dem dem_shape x y out = Some out' ->
     length out' = length out /\ out' !! j = out !! j) /\
  (forall dem dem_shape x y out out',
     launch_get_values_4x4 n dem dem_shape x y out = Some out' ->
     length out' = length out /\ out' !! j = out !! j) /\
  (forall x y q out out',
     launch_bilinear n x y q out = Some out' ->
     length out' = length out /\ out' !! j = out !! j) /\
  (forall x y q coeffs out coeffs' out',
     launch_bicubic n x y q (coeffs, out) = Some (coeffs', out') ->
     length coeffs' = length coeffs /\ length out' = length out /\
     coeffs' !! j = coeffs !! j /\ out' !! j = out !! j) /\
  (forall q grid_size normal normal',
     launch_normal n q grid_size normal = Some normal' ->
     length normal' = length normal /\ normal' !! j = normal !! j).
Proof.
  intros Hj. pose proof (not_in_launch n j Hj) as Hout. repeat apply conj.
  - intros points coord mpp dem_shape x y x' y' Hrun.
    apply run_threads_pair_frame in Hrun as (Hx & Hy & Hrest).
    + destruct (Hrest j Hout). auto.
    + intros t a b a' b' Ht.
      apply preprocess_inv in Ht as (p & _ & _ & _ & -> & ->). eauto.
  - intros dem dem_shape x y out out' Hrun.
    apply run_threads_array_frame in Hrun as (Hlen & Hrest); [auto|].
    intros t a a' Ht.
    apply get_values_2x2_inv in Ht as (? & ? & ? & m & _ & _ & _ & _ & ->).
    eauto.
  - intros dem dem_shape x y out out' Hrun.
    apply run_threads_array_frame in Hrun as (Hlen & Hrest); [auto|].
    intros t a a' Ht.
    apply get_values_4x4_inv in Ht as (? & ? & ? & m & _ & _ & _ & _ & ->).
    eauto.
  - intros x y q out out' Hrun.
    apply run_threads_array_frame in Hrun as (Hlen & Hrest); [auto|].
    intros t a a' Ht.
    apply bilinear_inv in Ht as (? & ? & ? & _ & _ & _ & _ & ->). eauto.
  - intros x y q coeffs out coeffs' out' Hrun.
    apply run_threads_pair_frame in Hrun as (Hc & Ho & Hrest).
    + destruct (Hrest j Hout). auto.
    + intros t a b a' b' Ht.
      apply bicubic_inv in Ht as (? & ? & ? & _ & _ & _ & _ & _ & -> & ->).
      eauto.
  - intros q grid_size normal normal' Hrun.
    apply run_threads_array_frame in Hrun as (Hlen & Hrest); [auto|].
    intros t a a' Ht.
    apply normal_inv in Ht as (? & v & _ & _ & _ & ->). eauto.
Qed.

Lemma launch_leaves_the_rest_of_the_buffers_witness :
  exists out',
    launch_bilinear 1 [1.5; 0]%Q [2.5; 0]%Q
                    [Mat22f 10 8 15 7; Mat22f 0 0 0 0] [0; 42]%Q
      = Some out' /\
    length out' = 2%nat /\ out' !! 1%nat = Some 42%Q.
Proof.
  assert (H : (1 <= 1)%nat) by lia.
  destruct (launch_leaves_the_rest_of_the_buffers 1 1 H)
    as (_ & _ & _ & Hb & _).
  eexists. split; [vm_compute; reflexivity|].
  apply (Hb [1.5; 0]%Q [2.5; 0]%Q [Mat22f 10 8 15 7; Mat22f 0 0 0 0]
            [0; 42]%Q).
  vm_compute. reflexivity.
Defined.

Lemma kernels_schedule_independent_witness :
  let body := fun tid out =>
                _bilinear_interpolation tid [1.5; 0.25]%Q [2.5; 3]%Q
                  [Mat22f 10 8 15 7; Mat22f 0 1 2 3] out in
  run_threads body [0; 1]%nat [0; 0]%Q = run_threads body [1; 0]%nat [0; 0]%Q.
Proof.
  intros body.
  assert (H : [0; 1]%nat ≡ₚ [1; 0]%nat) by apply perm_swap.
  destruct (kernels_schedule_independent _ _ H) as (_ & _ & _ & Hb & _).
  assert (H1 : exists r, run_threads body [0; 1]%nat [0; 0]%Q = Some r)
    by (eexists; vm_compute; reflexivity).
  assert (H2 : exists r, run_threads body [1; 0]%nat [0; 0]%Q = Some r)
    by (eexists; vm_compute; reflexivity).
  destruct H1 as [r1 H1], H2 as [r2 H2]. rewrite H1, H2. f_equal.
  exact (Hb _ _ _ _ _ _ H1 H2).
Defined.

(** * The lab manager factory *)

Lemma call_registered {node : Type} (self : Factory.ROS2_LabManagerFactory node)
    (m : Factory.lab_manager node) cfg environment rendering lens_flares name :
  Factory.subscript cfg "environment" = inr environment ->
  Factory.subscript environment "name" = inr (Factory.VStr name) ->
  Factory.subscript cfg "rendering" = inr rendering ->
  Factory.subscript rendering "lens_flares" = inr lens_flares ->
  Factory._lab_managers self !! name = Some m ->
  Factory.__call__ self cfg = m environment lens_flares.
Proof.
  intros He Hn Hr Hf Hm. unfold Factory.__call__.
  rewrite He. cbn [Factory.bind]. rewrite Hn. cbn [Factory.bind].
  unfold Factory.registered. rewrite Hm. cbn [Factory.bind].
  rewrite Hr. cbn [Factory.bind]. rewrite Hf. reflexivity.
Qed.

Lemma call_unregistered {node : Type}
    (self : Factory.ROS2_LabManagerFactory node) cfg environment name :
  Factory.subscript cfg "environment" = inr environment ->
  Factory.subscript environment "name" = inr (Factory.VStr name) ->
  Factory._lab_managers self !! name = None ->
  Factory.__call__ self cfg = inl (Factory.KeyError (Factory.VStr name)).
Proof.
  intros He Hn Hm. unfold Factory.__call__.
  rewrite He. cbn [Factory.bind]. rewrite Hn. cbn [Factory.bind].
  unfold Factory.registered. rewrite Hm. reflexivity.
Qed.

(** X18. Calling the factory on a configuration builds the lab manager that
    was registered last under the name of the environment, with the
    environment and the lens flare configurations as arguments; what is
    registered under other names, before or after, does not matter. *)
Theorem factory_calls_the_last_registered {node : Type}
    (self : Factory.ROS2_LabManagerFactory node) (m : Factory.lab_manager node)
    cfg environment rendering lens_flares name :
  Factory.subscript cfg "environment" = inr environment ->
  Factory.subscript environment "name" = inr (Factory.VStr name) ->
  Factory.subscript cfg "rendering" = inr rendering ->
  Factory.subscript rendering "lens_flares" = inr lens_flares ->
  Factory.__call__ (Factory.register self name m) cfg
    = m environment lens_flares /\
  (forall m', Factory.__call__
                (Factory.register (Factory.register self name m') name m) cfg
              = m environment lens_flares) /\
  (forall other m', other <> name ->
     Factory.__call__ (Factory.register (Factory.register self name m) other m')
                      cfg
     = m environment lens_flares).
Proof.
  intros He Hn Hr Hf. repeat split; intros;
    apply (call_registered _ _ _ _ _ _ _ He Hn Hr Hf); simpl.
  - apply lookup_insert_eq.
  - apply lookup_insert_eq.
  - rewrite lookup_insert_ne by assumption. apply lookup_insert_eq.
Qed.

Lemma factory_calls_the_last_registered_witness :
  let cfg := Factory.VDict
               [("environment", Factory.VDict [("name", Factory.VStr "Mars")]);
                ("rendering",
                 Factory.VDict [("lens_flares", Factory.VBool true)])] in
  let m : Factory.lab_manager bool :=
    fun _ flares => match flares with
                    | Factory.VBool b => inr b
                    | _ => inl Factory.TypeError
                    end in
  Factory.__call__ (Factory.register Factory.__init__ "Mars" m) cfg = inr true.
Proof.
  intros cfg m.
  apply (factory_calls_the_last_registered Factory.__init__ m cfg
           (Factory.VDict [("name", Factory.VStr "Mars")])
           (Factory.VDict [("lens_flares", Factory.VBool true)])
           (Factory.VBool true) "Mars");
    reflexivity.
Defined.

(** X19. [ROS2_LMF] knows two environments.  For [Lunalab] and [Lunaryard] it
    calls the class of that name; for any other name it raises
    [KeyError(name)], and does so before it looks at the rendering
    configuration. *)
Theorem ROS2_LMF_knows_two_environments {node : Type}
    (ROS_LunalabManager ROS_LunaryardManager : Factory.lab_manager node)
    cfg environment name :
  Factory.subscript cfg "environment" = inr environment ->
  Factory.subscript environment "name" = inr (Factory.VStr name) ->
  let LMF := Factory.ROS2_LMF ROS_LunalabManager ROS_LunaryardManager in
  (name <> "Lunalab" -> name <> "Lunaryard" ->
   Factory.__call__ LMF cfg = inl (Factory.KeyError (Factory.VStr name))) /\
  (forall rendering lens_flares,
     Factory.subscript cfg "rendering" = inr rendering ->
     Factory.subscript rendering "lens_flares" = inr lens_flares ->
     (name = "Lunalab" ->
      Factory.__call__ LMF cfg = ROS_LunalabManager environment lens_flares) /\
     (name = "Lunaryard" ->
      Factory.__call__ LMF cfg = ROS_LunaryardManager environment lens_flares)).
Proof.
  intros He Hn LMF. split.
  - intros H1 H2. apply (call_unregistered _ _ _ _ He Hn). simpl.
    rewrite !lookup_insert_ne by congruence. apply lookup_empty.
  - intros rendering lens_flares Hr Hf. split; intros ->;
      apply (call_registered _ _ _ _ _ _ _ He Hn Hr Hf); simpl.
    + rewrite lookup_insert_ne by discriminate. apply lookup_insert_eq.
    + apply lookup_insert_eq.
Qed.

Lemma ROS2_LMF_knows_two_environments_witness :
  let lab : Factory.lab_manager string := fun _ _ => inr "lab" in
  let yard : Factory.lab_manager string := fun _ _ => inr "yard" in
  Factory.__call__ (Factory.ROS2_LMF lab yard)
    (Factory.VDict
       [("environment", Factory.VDict [("name", Factory.VStr "Mars")])])
  = inl (Factory.KeyError (Factory.VStr "Mars")).
Proof.
  intros lab yard.
  apply (ROS2_LMF_knows_two_environments lab yard
           (Factory.VDict
              [("environment", Factory.VDict [("name", Factory.VStr "Mars")])])
           (Factory.VDict [("name", Factory.VStr "Mars")]) "Mars");
    try reflexivity; discriminate.
Defined.

(** * The lens flare of the lab *)

Ltac flare_lookup :=
  repeat first
    [ rewrite lookup_insert_eq
    | rewrite lookup_insert_ne by (first [discriminate | congruence]) ].

Ltac flare_unfold :=
  unfold Lunalab.step, Lunalab.enableLensFlare, Lunalab.setFlareScale,
    Lunalab.setFlareNumBlades, Lunalab.setFlareApertureRotation,
    Lunalab.setFlareSensorDiagonal, Lunalab.setFlareSensorAspectRatio,
    Lunalab.setFlareFstop, Lunalab.setFlareFocalLength.

Lemma not_flare_path k :
  k ∉ Lunalab.flare_paths ->
  Forall (fun p => p <> k) Lunalab.flare_paths.
Proof.
  intros Hk. apply Forall_forall. intros p Hp ->. contradiction.
Qed.

Ltac flare_outside H :=
  apply not_flare_path in H; unfold Lunalab.flare_paths in H;
  repeat match goal with
         | H : Forall _ (_ :: _) |- _ =>
             apply Forall_cons in H; destruct H as [? H]
         end.

Lemma step_outside conf c s k :
  k ∉ Lunalab.flare_paths -> Lunalab.step conf c s !! k = s !! k.
Proof.
  intros Hk. flare_outside Hk.
  destruct c as [[|]| | | | | | |]; flare_unfold; cbv zeta;
    rewrite ?lookup_insert_ne by assumption; reflexivity.
Qed.

Lemma enable_outside conf data s k :
  k ∉ Lunalab.flare_paths ->
  Lunalab.enableLensFlare conf data s !! k = s !! k.
Proof. exact (step_outside conf (Lunalab.EnableLensFlare data) s k). Qed.

Lemma run_outside conf cs : forall s k,
  k ∉ Lunalab.flare_paths -> Lunalab.run conf cs s !! k = s !! k.
Proof.
  induction cs as [|c cs IH]; intros s k Hk; simpl; [reflexivity|].
  rewrite IH by assumption. now apply step_outside.
Qed.

Lemma enable_inside conf s s' k :
  k ∈ Lunalab.flare_paths ->
  Lunalab.enableLensFlare conf true s !! k
  = Lunalab.enableLensFlare conf true s' !! k.
Proof.
  intros Hk. unfold Lunalab.flare_paths in Hk.
  repeat (apply elem_of_cons in Hk as [->|Hk]);
    [..|now apply elem_of_nil in Hk];
    flare_unfold; cbv zeta; flare_lookup; reflexivity.
Qed.

(** X20. Whatever calls were made before, enabling the lens flare leaves the
    settings that enabling it at once would have left: the parameters set by
    hand through the setters are replaced by the ones of the configuration,
    and disabling the flare in between has no effect. *)
Theorem enabling_restores_the_configured_flare conf cs s :
  Lunalab.enableLensFlare conf true (Lunalab.run conf cs s)
  = Lunalab.enableLensFlare conf true s.
Proof.
  apply map_eq. intros k.
  destruct (decide (k ∈ Lunalab.flare_paths)) as [Hk|Hk].
  - now apply enable_inside.
  - rewrite !enable_outside by assumption. now apply run_outside.
Qed.

(** X21. The render control of the lens flare writes under
    [/rtx/post/lensFlares/] only: whatever the calls, a setting whose path
    does not start with it is left as it was. *)
Theorem flare_calls_touch_flare_settings_only conf cs s k :
  String.prefix "/rtx/post/lensFlares/" k = false ->
  Lunalab.run conf cs s !! k = s !! k.
Proof.
  intros Hk. apply run_outside. intros Hin. unfold Lunalab.flare_paths in Hin.
  repeat (apply elem_of_cons in Hin as [->|Hin]);
    [..|now apply elem_of_nil in Hin]; discriminate.
Qed.

Lemma flare_calls_touch_flare_settings_only_witness :
  let conf := {| Lunalab.enable := true; Lunalab.scale := Lunalab.PFloat 0.5;
                 Lunalab.blades := Lunalab.PInt 3;
                 Lunalab.aperture_rotation := Lunalab.PFloat 0;
                 Lunalab.sensor_aspect_ratio := Lunalab.PFloat 1.5;
                 Lunalab.sensor_diagonal := Lunalab.PFloat 28;
                 Lunalab.fstop := Lunalab.PFloat 1;
                 Lunalab.focal_length := Lunalab.PFloat 12 |} in
  let s : gmap string Lunalab.pyval :=
    {["/rtx/post/dlss/execMode" := Lunalab.PInt 1]} in
  Lunalab.run conf [Lunalab.EnableLensFlare true;
                    Lunalab.SetFlareNumBlades (Lunalab.PFloat 5.7)] s
    !! "/rtx/post/dlss/execMode"
  = s !! "/rtx/post/dlss/execMode".
Proof.
  intros conf s.
  apply (flare_calls_touch_flare_settings_only conf _ s
           "/rtx/post/dlss/execMode").
  reflexivity.
Defined.

(** X22. The number of blades is stored as an integer: if the setting holds an
    [int] (or nothing) to begin with, it holds an [int] after any calls, also
    when [setFlareNumBlades] is given a float. *)
Theorem blades_setting_is_an_integer conf cs s v :
  (forall v0, s !! "/rtx/post/lensFlares/blades" = Some v0 ->
              Lunalab.is_int v0 = true) ->
  Lunalab.run conf cs s !! "/rtx/post/lensFlares/blades" = Some v ->
  Lunalab.is_int v = true.
Proof.
  revert s. induction cs as [|c cs IH]; intros s Hs Hv; simpl in Hv.
  - now apply Hs.
  - apply (IH (Lunalab.step conf c s)); [|assumption].
    intros v0. destruct c as [[|]| | | | | | |]; flare_unfold; cbv zeta;
      flare_lookup; first [apply Hs | now intros [= <-]].
Qed.

Lemma blades_setting_is_an_integer_witness :
  Lunalab.is_int (Lunalab.PInt 5) = true.
Proof.
  apply (blades_setting_is_an_integer
           {| Lunalab.enable := true; Lunalab.scale := Lunalab.PFloat 0.5;
              Lunalab.blades := Lunalab.PInt 3;
              Lunalab.aperture_rotation := Lunalab.PFloat 0;
              Lunalab.sensor_aspect_ratio := Lunalab.PFloat 1.5;
              Lunalab.sensor_diagonal := Lunalab.PFloat 28;
              Lunalab.fstop := Lunalab.PFloat 1;
              Lunalab.focal_length := Lunalab.PFloat 12 |}
           [Lunalab.EnableLensFlare true;
            Lunalab.SetFlareNumBlades (Lunalab.PFloat 5.7)] ∅).
  - intros v0 H. rewrite lookup_empty in H. discriminate.
  - vm_compute. reflexivity.
Defined.
